(** * PaperPay: Open Payments orchestration, grant ledger and QR bundles

    A shallow embedding of the TypeScript sources

    - [FinalSolution-main/open-payments.ts]: the Open Payments helpers,
    - [FinalSolution-main/server.ts], first program: the payment server
      (payment sessions, vendor authorization, process-payment),
    - [FinalSolution-main/server.ts], second program: the customer API
      (customer grants, QR bundle signing and verification),
    - [src/server/cache.ts]: the [OpenPayments] instant-pay service.

    Asynchronous functions are state-passing computations over a system
    state made of the outside world (payment network, clock, identifier
    source, the [Cache] object), the log of calls made to the payment
    network, and the program's own in-memory stores.  A rejected promise
    or a thrown exception is the left summand of the result.

    Numbers: JavaScript numbers are modelled by [Z].  The model covers
    the runs in which every number that is computed or written is a
    safe integer ([is_safe_integer], at most 2^53 - 1 in size): there
    the arithmetic of the sources is exact and [toString] and
    [toFixed()] both write the decimal digits.  Beyond, the sources
    round, write fractions or an exponent, and the model says nothing;
    the properties about amounts carry that bound.

    Requests: a handler is a computation that runs from its first line
    to its answer, which is how the sources serve one request at a
    time.  A handler gives way to other requests at each [await]; the
    handlers that check a store and write to it later are modelled a
    second time, cut at the await in between ([InFlight]).

    Strings are [string]; a request field that is absent is [None]. *)

From Stdlib Require Import ZArith Ascii DecimalString DecimalZ DecimalPos.
From stdpp Require Import base strings list gmap.

Local Open Scope Z_scope.

(** ** Data of the Open Payments client *)

Record WalletAddress := {
  wa_id : string;
  wa_assetCode : string;
  wa_assetScale : N;
  wa_authServer : string;
  wa_resourceServer : string
}.

Record Amount := {
  value : string;
  assetCode : string;
  assetScale : N
}.

(** One entry of [access_token.access] in a grant request. *)
Record Access := {
  ac_type : string;
  ac_actions : list string;
  ac_identifier : option string;
  ac_debitAmount : option Amount;
  ac_interval : option string
}.

Record Interact := {
  finish_uri : option string;
  finish_nonce : string
}.

Record GrantRequest := {
  gr_access : Access;
  gr_interact : option Interact
}.

(** [Grant | PendingGrant]: what [client.grant.request] resolves to.
    [isPendingGrant] is the test for the first constructor. *)
Inductive GrantResponse :=
| PendingGrant (redirect finish continue_uri continue_token : string)
| Grant (access_token manage : string).

Definition isPendingGrant (g : GrantResponse) : bool :=
  match g with PendingGrant _ _ _ _ => true | Grant _ _ => false end.

(** What [client.grant.continue] resolves to: a grant carrying an
    [access_token], or a continuation without one. *)
Inductive Continuation :=
| ContinuedGrant (access_token manage : string)
| StillPending.

Record IncomingPayment := { ip_id : string }.
Record Quote := { quote_id : string }.
Record OutgoingPayment := { op_id : string }.

Record OutgoingPaymentArgs := {
  opa_walletAddress : string;
  opa_quoteId : option string;
  opa_incomingPayment : option string;
  opa_debitAmount : option Amount;
  opa_description : option string
}.

(** The calls a program makes to the payment network, with their
    arguments; the system state keeps them in order. *)
Inductive Call :=
| WalletAddressGet (url : string)
| GrantRequestCall (url : string) (req : GrantRequest)
| GrantContinue (accessToken url : string) (interact_ref : option string)
| TokenRotate (accessToken url : string)
| IncomingPaymentCreate (url accessToken walletAddress : string)
    (incomingAmount : Amount)
| QuoteCreate (url accessToken walletAddress receiver : string)
| OutgoingPaymentCreate (url accessToken : string)
    (args : OutgoingPaymentArgs).

Definition isOutgoingPaymentCreate (c : Call) : bool :=
  match c with OutgoingPaymentCreate _ _ _ => true | _ => false end.

Definition isGrantContinue (c : Call) : bool :=
  match c with GrantContinue _ _ _ => true | _ => false end.

(** What [cache.ts] stores per client identifier. *)
Record InstantPayData := {
  ipd_walletAddressUrl : string;
  ipd_clientNonce : string;
  ipd_interactNonce : string;
  ipd_continueUri : string;
  ipd_continueToken : string
}.

Record TokenInfo := {
  accessToken : string;
  manageUrl : string
}.

(** ** The outside world

    Everything the programs do not own: the payment network behind the
    authenticated client, the clock, the identifier source and the
    [Cache] object of [cache.ts] (its class is not part of the
    sources).  Each operation reads and updates a world state [W];
    [None] is a rejected promise. *)
Class Env (W : Type) := {
  clock : W → Z;
  uuid : W → string * W;
  createAuthenticatedClient : W → option unit * W;
  walletAddress_get : string → W → option WalletAddress * W;
  grant_request : string → GrantRequest → W → option GrantResponse * W;
  grant_continue :
    string → string → option string → W → option Continuation * W;
  token_rotate : string → string → W → option string * W;
  incomingPayment_create :
    string → string → string → Amount → W → option IncomingPayment * W;
  quote_create :
    string → string → string → string → W → option Quote * W;
  outgoingPayment_create :
    string → string → OutgoingPaymentArgs → W → option OutgoingPayment * W;
  cache_get : string → W → option InstantPayData;
  cache_set : string → InstantPayData → Z → W → W
}.

(** The two digests the sources take from Node's [crypto] module. *)
Class Crypto := {
  (** [createHash("sha-256").update(data).digest("base64")] *)
  sha256_base64 : string → string;
  (** [createHmac('sha256', secret).update(data).digest('hex')] *)
  hmac_sha256_hex : string → string → string
}.

(** ** Asynchronous computations *)

Inductive Exn :=
| TypeError
| RangeError
| Error (msg : string)
| Rejected.

Record Sys (W St : Type) := {
  world : W;
  calls : list Call;
  store : St
}.
Arguments world {W St} _.
Arguments calls {W St} _.
Arguments store {W St} _.

Definition Task (W St A : Type) : Type := Sys W St → (Exn + A) * Sys W St.

Section Tasks.
Context {W St : Type}.

Definition ret {A} (a : A) : Task W St A := λ s, (inr a, s).

Definition throw {A} (e : Exn) : Task W St A := λ s, (inl e, s).

Definition bind {A B} (m : Task W St A) (k : A → Task W St B)
  : Task W St B :=
  λ s, match m s with
       | (inr a, s') => k a s'
       | (inl e, s') => (inl e, s')
       end.

(** [x ← m; k] awaits [m] and goes on with [k]. *)
Global Instance task_bind : MBind (Task W St) := λ A B k m, bind m k.

(** [try { body } catch (err) { handler }] *)
Definition try_catch {A} (body : Task W St A) (handler : Exn → Task W St A)
  : Task W St A :=
  λ s, match body s with
       | (inr a, s') => (inr a, s')
       | (inl e, s') => handler e s'
       end.

Definition get_store : Task W St St := λ s, (inr (store s), s).

Definition modify_store (f : St → St) : Task W St unit :=
  λ s, (inr (), {| world := world s; calls := calls s; store := f (store s) |}).

Definition read_world {A} (f : W → A) : Task W St A :=
  λ s, (inr (f (world s)), s).

Definition step_world {A} (f : W → A * W) : Task W St A :=
  λ s, let '(a, w) := f (world s) in
       (inr a, {| world := w; calls := calls s; store := store s |}).

(** A call to the payment network: it is logged, the world answers. *)
Definition request {A} (c : Call) (answer : W → option A * W)
  : Task W St A :=
  λ s, let '(r, w) := answer (world s) in
       (match r with Some a => inr a | None => inl Rejected end,
        {| world := w; calls := calls s ++ [c]; store := store s |}).
End Tasks.

(** ** Requests in flight

    A handler runs without interruption from one [await] to the next;
    while it waits, the handlers of other requests run.  [InFlight] is
    a handler cut at one of its awaits: it runs up to there and either
    answers or hands over what is left of it.  The awaited call is
    answered when the handler is resumed. *)
Definition InFlight (W St A : Type) : Type := Task W St (A + Task W St A).

Section InFlight.
Context {W St : Type}.

Definition resume {A} (r : A + Task W St A) : Task W St A :=
  match r with
  | inl a => ret a
  | inr rest => rest
  end.

(** The handler served alone: nothing else runs while it waits. *)
Definition alone {A} (h : InFlight W St A) : Task W St A :=
  r ← h; resume r.

(** Two requests in flight together: while the first waits, the second
    runs up to its own await; then the first is resumed and answers,
    then the second. *)
Definition overlapped {A B} (h1 : InFlight W St A) (h2 : InFlight W St B)
  : Task W St (A * B) :=
  r1 ← h1; r2 ← h2; a ← resume r1; b ← resume r2; ret (a, b).
End InFlight.

(** ** [open-payments.ts] *)

Section OpenPaymentsHelpers.
Context {W St : Type} `{Env W}.

(** A promise of the outside world that is not a payment-network call. *)
Definition await {A} (answer : W → option A * W) : Task W St A :=
  λ s, let '(r, w) := answer (world s) in
       (match r with Some a => inr a | None => inl Rejected end,
        {| world := w; calls := calls s; store := store s |}).

Definition getAuthenticatedClient : Task W St unit :=
  await createAuthenticatedClient.

(** [if (w.startsWith("$")) w = w.replace("$", "https://")] *)
Definition payment_pointer_url (w : string) : string :=
  match w with
  | String "$"%char rest => "https://" +:+ rest
  | _ => w
  end.

Definition getWalletAddressInfo (walletAddress : string)
  : Task W St (string * WalletAddress) :=
  let walletAddress := payment_pointer_url walletAddress in
  walletAddressDetails ←
    request (WalletAddressGet walletAddress)
            (walletAddress_get walletAddress);
  ret (walletAddress, walletAddressDetails).

Definition createIncomingPayment (value : string)
    (walletAddressDetails : WalletAddress) : Task W St IncomingPayment :=
  let req := {| gr_access :=
                  {| ac_type := "incoming-payment";
                     ac_actions := ["read"; "create"; "complete"];
                     ac_identifier := None;
                     ac_debitAmount := None;
                     ac_interval := None |};
                gr_interact := None |} in
  grant ← request
             (GrantRequestCall (wa_authServer walletAddressDetails) req)
             (grant_request (wa_authServer walletAddressDetails) req);
  match grant with
  | PendingGrant _ _ _ _ => throw (Error "Expected non-interactive grant")
  | Grant access_token _ =>
      let amount := {| value := value;
                       assetCode := wa_assetCode walletAddressDetails;
                       assetScale := wa_assetScale walletAddressDetails |} in
      request
        (IncomingPaymentCreate (wa_resourceServer walletAddressDetails)
           access_token (wa_id walletAddressDetails) amount)
        (incomingPayment_create (wa_resourceServer walletAddressDetails)
           access_token (wa_id walletAddressDetails) amount)
  end.

Definition createQuote (incomingPaymentUrl : string)
    (walletAddressDetails : WalletAddress) : Task W St Quote :=
  let req := {| gr_access :=
                  {| ac_type := "quote";
                     ac_actions := ["create"; "read"; "read-all"];
                     ac_identifier := None;
                     ac_debitAmount := None;
                     ac_interval := None |};
                gr_interact := None |} in
  grant ← request
             (GrantRequestCall (wa_authServer walletAddressDetails) req)
             (grant_request (wa_authServer walletAddressDetails) req);
  match grant with
  | PendingGrant _ _ _ _ => throw (Error "Expected non-interactive grant")
  | Grant access_token _ =>
      request
        (QuoteCreate (wa_resourceServer walletAddressDetails) access_token
           (wa_id walletAddressDetails) incomingPaymentUrl)
        (quote_create (wa_resourceServer walletAddressDetails) access_token
           (wa_id walletAddressDetails) incomingPaymentUrl)
  end.

(** The [input] of [createOutgoingPaymentPendingGrant] as the two
    servers build it; [pg_interval] is the interval string of a
    ["new_subscription"] request, which neither server sends. *)
Record PendingGrantInput := {
  pg_debitAmount : option Amount;
  pg_interval : option string;
  pg_redirectUrl : option string
}.

(** The answer for a pending grant, as the callers read it. *)
Record Pending := {
  interact_redirect : string;
  interact_finish : string;
  continue_uri : string;
  continue_access_token : string
}.

Definition createOutgoingPaymentPendingGrant (input : PendingGrantInput)
    (walletAddressDetails : WalletAddress) : Task W St Pending :=
  nonce ← step_world uuid;
  let req := {| gr_access :=
                  {| ac_type := "outgoing-payment";
                     ac_actions := ["create"];
                     ac_identifier := Some (wa_id walletAddressDetails);
                     ac_debitAmount := pg_debitAmount input;
                     ac_interval := pg_interval input |};
                gr_interact :=
                  Some {| finish_uri := pg_redirectUrl input;
                          finish_nonce := nonce |} |} in
  grant ← request
             (GrantRequestCall (wa_authServer walletAddressDetails) req)
             (grant_request (wa_authServer walletAddressDetails) req);
  match grant with
  | PendingGrant redirect finish uri token =>
      ret {| interact_redirect := redirect; interact_finish := finish;
             continue_uri := uri; continue_access_token := token |}
  | Grant _ _ => throw (Error "Expected interactive grant")
  end.

Record OutgoingPaymentInput := {
  opi_senderWalletAddress : string;
  opi_continueAccessToken : string;
  opi_quoteId : string;
  opi_interactRef : string;
  opi_continueUri : string
}.

(** [grant.access_token.value], a [TypeError] on a continuation that
    carries no [access_token]. *)
Definition access_token_value (c : Continuation) : Task W St string :=
  match c with
  | ContinuedGrant token _ => ret token
  | StillPending => throw TypeError
  end.

Definition createOutgoingPayment (input : OutgoingPaymentInput)
    (walletAddressDetails : WalletAddress) : Task W St OutgoingPayment :=
  let walletAddress := payment_pointer_url (opi_senderWalletAddress input) in
  grant ← request
             (GrantContinue (opi_continueAccessToken input)
                (opi_continueUri input) (Some (opi_interactRef input)))
             (grant_continue (opi_continueAccessToken input)
                (opi_continueUri input) (Some (opi_interactRef input)));
  token ← access_token_value grant;
  let args := {| opa_walletAddress := walletAddress;
                 opa_quoteId := Some (opi_quoteId input);
                 opa_incomingPayment := None;
                 opa_debitAmount := None;
                 opa_description := None |} in
  request
    (OutgoingPaymentCreate (wa_resourceServer walletAddressDetails)
       token args)
    (outgoingPayment_create (wa_resourceServer walletAddressDetails)
       token args).
End OpenPaymentsHelpers.

(** [Number.isSafeInteger]: the integers that a JavaScript number
    holds exactly.  A product of safe integers that is itself a safe
    integer is computed exactly. *)
Definition MAX_SAFE_INTEGER : Z := 2 ^ 53 - 1.

Definition is_safe_integer (n : Z) : Prop :=
  - MAX_SAFE_INTEGER ≤ n ≤ MAX_SAFE_INTEGER.

Global Instance is_safe_integer_dec n : Decision (is_safe_integer n).
Proof. unfold is_safe_integer. apply _. Defined.

(** [Number.prototype.toString] and [toFixed()] on a safe integer: the
    decimal digits, with a minus sign below zero.  The two differ, and
    differ from this, on fractions and from 10^21 on. *)
Definition number_to_string (n : Z) : string :=
  NilEmpty.string_of_int (Z.to_int n).

(** The [limits.interval] that [createOutgoingPaymentPendingGrant] adds
    for an input of type ["new_subscription"], at the instant text
    [dateNow]: [`R${payments}/${dateNow}/${duration ?? "PT10M"}`].  A
    count of payments that is absent reads [undefined]. *)
Definition subscription_interval (type : option string) (payments : option Z)
    (duration : option string) (dateNow : string) : option string :=
  if decide (type = Some "new_subscription") then
    Some ("R" +:+ from_option number_to_string "undefined" payments +:+ "/"
          +:+ dateNow +:+ "/" +:+ default "PT10M" duration)
  else None.

(** ** [cache.ts]: the [OpenPayments] instant-pay service *)

(** The line feed of the template literal. *)
Definition LF : string := String "010"%char "".

Section InstantPay.
Context {W : Type} `{Env W} `{Crypto}.
(** [process.env.FRONTEND_URL] *)
Variable FRONTEND_URL : string.

Local Abbreviation Task := (Task W unit).

Definition setupInstantPay (walletAddressUrl : string) (maxAmount : Z)
  : Task string :=
  walletAddress ← request (WalletAddressGet walletAddressUrl)
                           (walletAddress_get walletAddressUrl);
  clientNonce ← step_world uuid;
  clientIdentifier ← step_world uuid;
  let amountData :=
    {| value := number_to_string (maxAmount * 10 ^ Z.of_N (wa_assetScale walletAddress));
       assetCode := wa_assetCode walletAddress;
       assetScale := wa_assetScale walletAddress |} in
  let req :=
    {| gr_access :=
         {| ac_type := "outgoing-payment";
            ac_actions := ["create"; "read"; "list"];
            ac_identifier := Some (wa_id walletAddress);
            ac_debitAmount := Some amountData;
            ac_interval := None |};
       gr_interact :=
         Some {| finish_uri :=
                   Some (FRONTEND_URL +:+ "/instant-pay/finish?identifier="
                         +:+ clientIdentifier);
                 finish_nonce := clientNonce |} |} in
  grant ← request (GrantRequestCall (wa_authServer walletAddress) req)
                   (grant_request (wa_authServer walletAddress) req);
  match grant with
  | Grant _ _ =>
      throw (Error "Expected interactive grant for instant-pay setup")
  | PendingGrant redirect finish uri token =>
      step_world (λ w,
        ((), cache_set clientIdentifier
               {| ipd_walletAddressUrl := wa_id walletAddress;
                  ipd_clientNonce := clientNonce;
                  ipd_interactNonce := finish;
                  ipd_continueUri := uri;
                  ipd_continueToken := token |} 300 w));;
      ret redirect
  end.

(** The text that is hashed: the three values each on its own line,
    then the authorization server's URL and a slash. *)
Definition interaction_data
    (clientNonce interactNonce interactRef authServer : string) : string :=
  clientNonce +:+ LF +:+ interactNonce +:+ LF +:+ interactRef +:+ LF
    +:+ authServer +:+ "/".

Definition verifyInteractionHash
    (interactRef receivedHash clientNonce interactNonce walletAddressUrl
       : string) : Task unit :=
  walletAddress ← request (WalletAddressGet walletAddressUrl)
                           (walletAddress_get walletAddressUrl);
  let data := interaction_data clientNonce interactNonce interactRef
                (wa_authServer walletAddress) in
  let calculatedHash := sha256_base64 data in
  if decide (calculatedHash = receivedHash) then ret ()
  else throw (Error "Hash verification failed").

Definition continueGrant (accessToken url interactRef : string)
  : Task TokenInfo :=
  continuation ← request (GrantContinue accessToken url (Some interactRef))
                    (grant_continue accessToken url (Some interactRef));
  match continuation with
  | StillPending => throw (Error "Expected grant response")
  | ContinuedGrant token manage =>
      ret {| accessToken := token; manageUrl := manage |}
  end.

Definition completeInstantPaySetup (identifier interactRef hash : string)
  : Task TokenInfo :=
  cached ← read_world (cache_get identifier);
  match cached with
  | None => throw TypeError
  | Some InstantPayData =>
      verifyInteractionHash interactRef hash
        (ipd_clientNonce InstantPayData)
        (ipd_interactNonce InstantPayData)
        (ipd_walletAddressUrl InstantPayData);;
      continueGrant (ipd_continueToken InstantPayData)
        (ipd_continueUri InstantPayData) interactRef
  end.

Definition createVendorIncomingPayment (vendorWallet : WalletAddress)
    (amount : Z) (description : string) : Task IncomingPayment :=
  let req := {| gr_access :=
                  {| ac_type := "incoming-payment";
                     ac_actions := ["read-all"; "create"];
                     ac_identifier := None;
                     ac_debitAmount := None;
                     ac_interval := None |};
                gr_interact := None |} in
  grant ← request (GrantRequestCall (wa_id vendorWallet) req)
                   (grant_request (wa_id vendorWallet) req);
  match grant with
  | PendingGrant _ _ _ _ =>
      throw (Error "Expected non-interactive grant for incoming payment")
  | Grant access_token _ =>
      let incomingAmount :=
        {| assetCode := wa_assetCode vendorWallet;
           assetScale := wa_assetScale vendorWallet;
           value := number_to_string (amount * 10 ^ Z.of_N (wa_assetScale vendorWallet))
        |} in
      request
        (IncomingPaymentCreate (wa_id vendorWallet) access_token
           (wa_id vendorWallet) incomingAmount)
        (incomingPayment_create (wa_id vendorWallet) access_token
           (wa_id vendorWallet) incomingAmount)
  end.

Definition makeInstantPayment
    (accessToken manageUrl vendorPaymentPointer senderPaymentPointer : string)
    (amount : Z) (description : string) : Task unit :=
  senderWallet ← request (WalletAddressGet senderPaymentPointer)
                          (walletAddress_get senderPaymentPointer);
  vendorWallet ← request (WalletAddressGet vendorPaymentPointer)
                          (walletAddress_get vendorPaymentPointer);
  incomingPayment ←
    createVendorIncomingPayment vendorWallet amount description;
  freshGrant ← request (TokenRotate accessToken manageUrl)
                        (token_rotate accessToken manageUrl);
  let args :=
    {| opa_walletAddress := wa_id senderWallet;
       opa_quoteId := None;
       opa_incomingPayment := Some (ip_id incomingPayment);
       opa_debitAmount :=
         Some {| assetCode := wa_assetCode senderWallet;
                 assetScale := wa_assetScale senderWallet;
                 value := number_to_string
                   (amount * 10 ^ Z.of_N (wa_assetScale senderWallet)) |};
       opa_description := Some description |} in
  try_catch
    (request (OutgoingPaymentCreate (wa_id senderWallet) freshGrant args)
       (outgoingPayment_create (wa_id senderWallet) freshGrant args);;
     ret ())
    (λ _, throw (Error
       "One click buy spending limit exceeded. Please setup one click buy again.")).
End InstantPay.

(** ** Dates, JavaScript truthiness and [Map] *)

(** [Date.prototype.toISOString], [new Date(string)] ([None] is an
    invalid date) and [d.setDate(d.getDate() + n)], on instants in
    milliseconds. *)
Class Dates := {
  toISOString : Z → string;
  parseDate : string → option Z;
  addDays : Z → Z → Z
}.

(** The time values of a valid date: 8.64e15 milliseconds either side
    of the epoch.  A date computed beyond is an invalid date, on which
    [toISOString] throws a [RangeError].  The clock reads valid
    instants, and so do the instants a fixed span after it; the check
    is made where a number of the request moves the date. *)
Definition valid_time (t : Z) : Prop :=
  -8640000000000000 ≤ t ≤ 8640000000000000.

Global Instance valid_time_dec t : Decision (valid_time t).
Proof. unfold valid_time. apply _. Defined.

Definition date_toISOString {W St} `{Dates} (t : Z) : Task W St string :=
  if decide (valid_time t) then ret (toISOString t) else throw RangeError.

(** [!x] is false exactly on a present, non-empty string and on a
    present, non-zero number. *)
Definition present (x : option string) : option string :=
  match x with
  | Some s => if decide (s = "") then None else Some s
  | None => None
  end.

Definition nonzero (x : option Z) : option Z :=
  match x with
  | Some n => if decide (n = 0) then None else Some n
  | None => None
  end.

(** A [Map] whose iteration order matters: the entries in insertion
    order.  [Map.prototype.set] keeps the place of a key that exists. *)
Fixpoint map_set {V} (k : string) (v : V) (m : list (string * V))
  : list (string * V) :=
  match m with
  | [] => [(k, v)]
  | (k', v') :: m' =>
      if decide (k' = k) then (k, v) :: m' else (k', v') :: map_set k v m'
  end.

Definition map_values {V} (m : list (string * V)) : list V := m.*2.

(** [Map.prototype.get]: [None] is [undefined]. *)
Fixpoint map_get {V} (k : string) (m : list (string * V)) : option V :=
  match m with
  | [] => None
  | (k', v) :: m' => if decide (k' = k) then Some v else map_get k m'
  end.

(** An HTTP response: [res.status(n).json(...)]. *)
Inductive Response (A : Type) :=
| Reply (status : Z) (payload : A)
| Fail (status : Z) (error : string).
Arguments Reply {A} _ _.
Arguments Fail {A} _ _.

(** ** The stores of [server.ts] *)

Record Session := {
  quote : Quote;
  grantExpiry : Z;
  incomingPaymentUrl : string
}.

Record Customer := {
  c_id : string;
  c_name : string;
  c_walletAddress : string;
  c_phone : option string;
  c_email : option string;
  c_createdAt : string
}.

Record Vendor := {
  v_id : string;
  v_name : string;
  v_walletAddress : string;
  v_createdAt : option string
}.

Record GrantData := {
  continueAccessToken : string;
  continueUri : string;
  interactRef : option string;
  senderWalletAddress : string
}.

Record CustomerGrant := {
  grantId : string;
  customerId : string;
  vendorId : string;
  vendorName : string;
  dailyLimit : Z;
  spentToday : Z;
  expiresAt : string;
  createdAt : string;
  grantData : GrantData;
  status : string
}.

(** ** [server.ts], first program: the payment server *)

Module PaymentServer.

Record PaymentStore := {
  quoteCache : gmap string Session;
  customers : gmap string Customer;
  vendors : gmap string Vendor;
  grants : list (string * CustomerGrant);
  outgoingpaymentgrantaccessToken : option string
}.

Record StartSessionBody := {
  ss_clientSessionId : option string;
  ss_senderWalletAddress : option string;
  ss_receiverWalletAddress : option string;
  ss_amount : option string
}.

Record StartSessionResult := {
  ssr_quote : Quote;
  ssr_incomingPaymentUrl : string;
  ssr_grantExpiry : string
}.

Record ApproveBody := {
  ap_clientSessionId : option string;
  ap_senderWalletAddress : option string;
  ap_continueAccessToken : option string;
  ap_interactRef : option string;
  ap_continueUri : option string
}.

Record AuthorizeVendorBody := {
  av_vendorId : option string;
  av_spendingLimit : option Z;
  av_redirectUrl : option string
}.

(** [{ id: vendor.id, name: vendor.name }] *)
Record VendorRef := {
  vref_id : string;
  vref_name : string
}.

Record AuthorizeVendorResult := {
  avr_grantId : string;
  avr_vendor : VendorRef;
  avr_spendingLimit : Z;
  avr_expiresAt : string;
  avr_authorizationUrl : string
}.

Record VendorGrantBody := {
  vg_customerWalletAddress : option string;
  vg_vendorWalletAddress : option string;
  vg_spendingLimit : option Z;
  vg_redirectUrl : option string
}.

Record VendorGrantResult := {
  vgr_authorizationUrl : string;
  vgr_continueAccessToken : string;
  vgr_continueUri : string
}.

Record ProcessPaymentBody := {
  pp_customerWalletAddress : option string;
  pp_receiverWalletAddress : option string;
  pp_continueAccessToken : option string;
  pp_continueUri : option string;
  pp_interactRef : option string;
  pp_spendAmount : option Z
}.

Record ProcessPaymentResult := {
  ppr_incomingPayment : IncomingPayment;
  ppr_quote : Quote;
  ppr_outgoingPayment : OutgoingPayment;
  ppr_newAccessToken : string
}.

Record IncomingPaymentBody := {
  cip_senderWalletAddress : option string;
  cip_receiverWalletAddress : option string;
  cip_amount : option string
}.

Record QuoteBody := {
  cq_senderWalletAddress : option string;
  cq_incomingPaymentUrl : option string
}.

(** The body of the outgoing-payment-auth route; [type], [payments]
    and [duration] are what the helper reads for a subscription. *)
Record PaymentAuthBody := {
  pa_senderWalletAddress : option string;
  pa_quoteId : option string;
  pa_debitAmount : option Amount;
  pa_receiveAmount : option Amount;
  pa_type : option string;
  pa_payments : option Z;
  pa_redirectUrl : option string;
  pa_duration : option string
}.

Section Handlers.
Context {W : Type} `{Env W} `{Dates}.

Local Abbreviation Task := (Task W PaymentStore).

Definition set_quoteCache (f : gmap string Session → gmap string Session)
  : Task unit :=
  modify_store (λ st,
    {| quoteCache := f (quoteCache st);
       customers := customers st;
       vendors := vendors st;
       grants := grants st;
       outgoingpaymentgrantaccessToken :=
         outgoingpaymentgrantaccessToken st |}).

Definition set_grants
    (f : list (string * CustomerGrant) → list (string * CustomerGrant))
  : Task unit :=
  modify_store (λ st,
    {| quoteCache := quoteCache st;
       customers := customers st;
       vendors := vendors st;
       grants := f (grants st);
       outgoingpaymentgrantaccessToken :=
         outgoingpaymentgrantaccessToken st |}).

Definition set_token (t : string) : Task unit :=
  modify_store (λ st,
    {| quoteCache := quoteCache st;
       customers := customers st;
       vendors := vendors st;
       grants := grants st;
       outgoingpaymentgrantaccessToken := Some t |}).

(** [POST /api/start-payment-session] *)
Definition start_payment_session (body : StartSessionBody)
  : Task (Response StartSessionResult) :=
  match present (ss_clientSessionId body),
        present (ss_senderWalletAddress body),
        present (ss_receiverWalletAddress body),
        present (ss_amount body) with
  | Some clientSessionId, Some senderWalletAddress,
    Some receiverWalletAddress, Some amount =>
      try_catch
        (getAuthenticatedClient;;
         '(_, receiverDetails) ← getWalletAddressInfo receiverWalletAddress;
         incomingPayment ← createIncomingPayment amount receiverDetails;
         '(_, senderDetails) ← getWalletAddressInfo senderWalletAddress;
         quote ← createQuote (ip_id incomingPayment) senderDetails;
         now ← read_world clock;
         let expiry := now + 3 * 60 * 1000 in
         set_quoteCache
           (insert clientSessionId
              {| quote := quote; grantExpiry := expiry;
                 incomingPaymentUrl := ip_id incomingPayment |});;
         ret (Reply 200
                {| ssr_quote := quote;
                   ssr_incomingPaymentUrl := ip_id incomingPayment;
                   ssr_grantExpiry := toISOString expiry |}))
        (λ _, ret (Fail 500 "Failed to start payment session"))
  | _, _, _, _ => ret (Fail 400 "Missing required fields")
  end.

(** [POST /api/approve-payment], served alone: no other request runs
    while it waits. *)
Definition approve_payment (body : ApproveBody)
  : Task (Response OutgoingPayment) :=
  match present (ap_clientSessionId body),
        present (ap_senderWalletAddress body),
        present (ap_continueAccessToken body),
        present (ap_interactRef body),
        present (ap_continueUri body) with
  | Some clientSessionId, Some senderWalletAddress,
    Some continueAccessToken, Some interactRef, Some continueUri =>
      try_catch
        (getAuthenticatedClient;;
         st ← get_store;
         match quoteCache st !! clientSessionId with
         | None => ret (Fail 400 "No payment session found")
         | Some cached =>
             now ← read_world clock;
             if decide (grantExpiry cached < now) then
               ret (Fail 400 "Quote grant expired, please restart payment")
             else
               '(_, senderDetails) ←
                 getWalletAddressInfo senderWalletAddress;
               outgoingPayment ←
                 createOutgoingPayment
                   {| opi_senderWalletAddress := senderWalletAddress;
                      opi_continueAccessToken := continueAccessToken;
                      opi_quoteId := quote_id (quote cached);
                      opi_interactRef := interactRef;
                      opi_continueUri := continueUri |}
                   senderDetails;
               set_quoteCache (delete clientSessionId);;
               ret (Reply 200 outgoingPayment)
         end)
        (λ _, ret (Fail 500 "Failed to approve payment"))
  | _, _, _, _, _ => ret (Fail 400 "Missing required fields")
  end.

(** [POST /api/approve-payment] with other requests in flight: the
    handler cut at the await of line 168, after the session was looked
    up and before it is deleted. *)
Definition approve_payment_in_flight (body : ApproveBody)
  : InFlight W PaymentStore (Response OutgoingPayment) :=
  match present (ap_clientSessionId body),
        present (ap_senderWalletAddress body),
        present (ap_continueAccessToken body),
        present (ap_interactRef body),
        present (ap_continueUri body) with
  | Some clientSessionId, Some senderWalletAddress,
    Some continueAccessToken, Some interactRef, Some continueUri =>
      try_catch
        (getAuthenticatedClient;;
         st ← get_store;
         match quoteCache st !! clientSessionId with
         | None => ret (inl (Fail 400 "No payment session found"))
         | Some cached =>
             now ← read_world clock;
             if decide (grantExpiry cached < now) then
               ret (inl (Fail 400
                           "Quote grant expired, please restart payment"))
             else
               ret (inr
                 (try_catch
                    ('(_, senderDetails) ←
                       getWalletAddressInfo senderWalletAddress;
                     outgoingPayment ←
                       createOutgoingPayment
                         {| opi_senderWalletAddress := senderWalletAddress;
                            opi_continueAccessToken := continueAccessToken;
                            opi_quoteId := quote_id (quote cached);
                            opi_interactRef := interactRef;
                            opi_continueUri := continueUri |}
                         senderDetails;
                     set_quoteCache (delete clientSessionId);;
                     ret (Reply 200 outgoingPayment))
                    (λ _, ret (Fail 500 "Failed to approve payment"))))
         end)
        (λ _, ret (inl (Fail 500 "Failed to approve payment")))
  | _, _, _, _, _ => ret (inl (Fail 400 "Missing required fields"))
  end.

(** [POST /api/customers/:customerId/authorize-vendor] *)
Definition authorize_vendor (customerId : string)
    (body : AuthorizeVendorBody) : Task (Response AuthorizeVendorResult) :=
  match present (av_vendorId body), nonzero (av_spendingLimit body),
        present (av_redirectUrl body) with
  | Some vendorId, Some spendingLimit, Some redirectUrl =>
      st ← get_store;
      match customers st !! customerId with
      | None => ret (Fail 404 "Customer not found")
      | Some customer =>
          match vendors st !! vendorId with
          | None => ret (Fail 404 "Vendor not found")
          | Some vendor =>
              try_catch
                (getAuthenticatedClient;;
                 '(_, walletAddressDetails) ←
                   getWalletAddressInfo (c_walletAddress customer);
                 pendingGrant ←
                   createOutgoingPaymentPendingGrant
                     {| pg_debitAmount :=
                          Some {| value := number_to_string (spendingLimit * 100);
                                  assetCode := "ZAR";
                                  assetScale := 2 |};
                        pg_interval := None;
                        pg_redirectUrl := Some redirectUrl |}
                     walletAddressDetails;
                 grantId ← step_world uuid;
                 now ← read_world clock;
                 let expires := addDays now 30 in
                 set_grants
                   (map_set grantId
                      {| grantId := grantId;
                         customerId := customerId;
                         vendorId := vendorId;
                         vendorName := v_name vendor;
                         dailyLimit := spendingLimit;
                         spentToday := 0;
                         expiresAt := toISOString expires;
                         createdAt := toISOString now;
                         grantData :=
                           {| continueAccessToken :=
                                continue_access_token pendingGrant;
                              continueUri := continue_uri pendingGrant;
                              interactRef := None;
                              senderWalletAddress :=
                                c_walletAddress customer |};
                         status := "active" |});;
                 ret (Reply 201
                        {| avr_grantId := grantId;
                           avr_vendor :=
                             {| vref_id := v_id vendor;
                                vref_name := v_name vendor |};
                           avr_spendingLimit := spendingLimit;
                           avr_expiresAt := toISOString expires;
                           avr_authorizationUrl :=
                             interact_redirect pendingGrant |}))
                (λ _, ret (Fail 500 "Failed to authorize vendor"))
          end
      end
  | _, _, _ => ret (Fail 400 "Validation failed")
  end.

(** [POST /api/create-vendor-grant] *)
Definition create_vendor_grant (body : VendorGrantBody)
  : Task (Response VendorGrantResult) :=
  match present (vg_customerWalletAddress body),
        present (vg_vendorWalletAddress body),
        nonzero (vg_spendingLimit body),
        present (vg_redirectUrl body) with
  | Some customerWalletAddress, Some vendorWalletAddress,
    Some spendingLimit, Some redirectUrl =>
      try_catch
        (getAuthenticatedClient;;
         '(_, walletAddressDetails) ←
           getWalletAddressInfo customerWalletAddress;
         pendingGrant ←
           createOutgoingPaymentPendingGrant
             {| pg_debitAmount :=
                  Some {| value :=
                            number_to_string (spendingLimit * 10 ^
                              Z.of_N (wa_assetScale walletAddressDetails));
                          assetCode := wa_assetCode walletAddressDetails;
                          assetScale := wa_assetScale walletAddressDetails |};
                pg_interval := None;
                pg_redirectUrl := Some redirectUrl |}
             walletAddressDetails;
         ret (Reply 201
                {| vgr_authorizationUrl := interact_redirect pendingGrant;
                   vgr_continueAccessToken :=
                     continue_access_token pendingGrant;
                   vgr_continueUri := continue_uri pendingGrant |}))
        (λ _, ret (Fail 500 "Failed to create vendor grant"))
  | _, _, _, _ => ret (Fail 400 "Validation failed")
  end.

(** [customerWalletDetails!.resourceServer] and its like: reading a
    property of [undefined] throws. *)
Definition non_null {A} (x : option A) : Task A :=
  match x with
  | Some a => ret a
  | None => throw TypeError
  end.

(** [POST /api/process-payment], served alone: the slot is not
    assigned by others between its test and its uses. *)
Definition process_payment (body : ProcessPaymentBody)
  : Task (Response ProcessPaymentResult) :=
  match present (pp_receiverWalletAddress body),
        present (pp_continueAccessToken body),
        present (pp_continueUri body),
        nonzero (pp_spendAmount body) with
  | Some receiverWalletAddress, Some continueAccessToken,
    Some continueUri, Some spendAmount =>
      try_catch
        (getAuthenticatedClient;;
         '(_, receiverWalletDetails) ←
           getWalletAddressInfo receiverWalletAddress;
         customerWalletDetails ←
           match present (pp_customerWalletAddress body) with
           | Some customerWalletAddress =>
               result ← getWalletAddressInfo customerWalletAddress;
               ret (Some result.2)
           | None => ret None
           end;
         st ← get_store;
         token ←
           match present (outgoingpaymentgrantaccessToken st) with
           | Some token => ret token
           | None =>
               grant ← request
                 (GrantContinue continueAccessToken continueUri
                    (pp_interactRef body))
                 (grant_continue continueAccessToken continueUri
                    (pp_interactRef body));
               token ← access_token_value grant;
               set_token token;;
               ret token
           end;
         incomingPayment ←
           createIncomingPayment (number_to_string (spendAmount * 100))
             receiverWalletDetails;
         let walletForQuote :=
           default receiverWalletDetails customerWalletDetails in
         quote ← createQuote (ip_id incomingPayment) walletForQuote;
         customer ← non_null customerWalletDetails;
         let args :=
           {| opa_walletAddress := wa_id customer;
              opa_quoteId := None;
              opa_incomingPayment := Some (ip_id incomingPayment);
              opa_debitAmount :=
                Some {| assetCode := wa_assetCode customer;
                        assetScale := wa_assetScale customer;
                        value := number_to_string (spendAmount * 100) |};
              opa_description := None |} in
         outgoingPayment ←
           request
             (OutgoingPaymentCreate (wa_resourceServer customer) token args)
             (outgoingPayment_create (wa_resourceServer customer) token
                args);
         ret (Reply 201
                {| ppr_incomingPayment := incomingPayment;
                   ppr_quote := quote;
                   ppr_outgoingPayment := outgoingPayment;
                   ppr_newAccessToken := token |}))
        (λ _, ret (Fail 500 "Failed to process payment"))
  | _, _, _, _ => ret (Fail 400 "Validation failed")
  end.

(** [outgoingpaymentgrantaccessToken!] where the slot was assigned
    or found to hold a token before. *)
Definition slot_value (st : PaymentStore) : string :=
  default "" (outgoingpaymentgrantaccessToken st).

(** Process-payment from line 611 on: the slot is read again where the
    outgoing payment is created and where the answer is written. *)
Definition process_payment_pay (spendAmount : Z)
    (receiverWalletDetails : WalletAddress)
    (customerWalletDetails : option WalletAddress)
  : Task (Response ProcessPaymentResult) :=
  incomingPayment ←
    createIncomingPayment (number_to_string (spendAmount * 100))
      receiverWalletDetails;
  let walletForQuote :=
    default receiverWalletDetails customerWalletDetails in
  quote ← createQuote (ip_id incomingPayment) walletForQuote;
  customer ← non_null customerWalletDetails;
  st ← get_store;
  let args :=
    {| opa_walletAddress := wa_id customer;
       opa_quoteId := None;
       opa_incomingPayment := Some (ip_id incomingPayment);
       opa_debitAmount :=
         Some {| assetCode := wa_assetCode customer;
                 assetScale := wa_assetScale customer;
                 value := number_to_string (spendAmount * 100) |};
       opa_description := None |} in
  outgoingPayment ←
    request
      (OutgoingPaymentCreate (wa_resourceServer customer) (slot_value st)
         args)
      (outgoingPayment_create (wa_resourceServer customer) (slot_value st)
         args);
  st ← get_store;
  ret (Reply 201
         {| ppr_incomingPayment := incomingPayment;
            ppr_quote := quote;
            ppr_outgoingPayment := outgoingPayment;
            ppr_newAccessToken := slot_value st |}).

(** Process-payment from the await of line 599 on: the grant is
    continued, the slot is assigned and the payment is made. *)
Definition process_payment_continue (continueAccessToken continueUri : string)
    (interactRef : option string) (spendAmount : Z)
    (receiverWalletDetails : WalletAddress)
    (customerWalletDetails : option WalletAddress)
  : Task (Response ProcessPaymentResult) :=
  try_catch
    (grant ← request
       (GrantContinue continueAccessToken continueUri interactRef)
       (grant_continue continueAccessToken continueUri interactRef);
     token ← access_token_value grant;
     set_token token;;
     process_payment_pay spendAmount receiverWalletDetails
       customerWalletDetails)
    (λ _, ret (Fail 500 "Failed to process payment")).

(** [POST /api/process-payment] with other requests in flight: the
    handler cut at the await of line 599, which it reaches when it
    finds the slot empty, before it assigns the slot. *)
Definition process_payment_in_flight (body : ProcessPaymentBody)
  : InFlight W PaymentStore (Response ProcessPaymentResult) :=
  match present (pp_receiverWalletAddress body),
        present (pp_continueAccessToken body),
        present (pp_continueUri body),
        nonzero (pp_spendAmount body) with
  | Some receiverWalletAddress, Some continueAccessToken,
    Some continueUri, Some spendAmount =>
      try_catch
        (getAuthenticatedClient;;
         '(_, receiverWalletDetails) ←
           getWalletAddressInfo receiverWalletAddress;
         customerWalletDetails ←
           match present (pp_customerWalletAddress body) with
           | Some customerWalletAddress =>
               result ← getWalletAddressInfo customerWalletAddress;
               ret (Some result.2)
           | None => ret None
           end;
         st ← get_store;
         match present (outgoingpaymentgrantaccessToken st) with
         | Some _ =>
             answer ← process_payment_pay spendAmount receiverWalletDetails
                        customerWalletDetails;
             ret (inl answer)
         | None =>
             ret (inr
               (process_payment_continue continueAccessToken continueUri
                  (pp_interactRef body) spendAmount receiverWalletDetails
                  customerWalletDetails))
         end)
        (λ _, ret (inl (Fail 500 "Failed to process payment")))
  | _, _, _, _ => ret (inl (Fail 400 "Validation failed"))
  end.

(** [POST /api/create-incoming-payment] *)
Definition create_incoming_payment (body : IncomingPaymentBody)
  : Task (Response IncomingPayment) :=
  match present (cip_senderWalletAddress body),
        present (cip_receiverWalletAddress body),
        present (cip_amount body) with
  | Some senderWalletAddress, Some receiverWalletAddress, Some amount =>
      try_catch
        (getAuthenticatedClient;;
         '(_, walletAddressDetails) ←
           getWalletAddressInfo receiverWalletAddress;
         incomingPayment ← createIncomingPayment amount walletAddressDetails;
         ret (Reply 200 incomingPayment))
        (λ _, ret (Fail 500 "Failed to create incoming payment"))
  | _, _, _ => ret (Fail 400 "Validation failed")
  end.

(** [POST /api/create-quote] *)
Definition create_quote (body : QuoteBody) : Task (Response Quote) :=
  match present (cq_senderWalletAddress body),
        present (cq_incomingPaymentUrl body) with
  | Some senderWalletAddress, Some incomingPaymentUrl =>
      try_catch
        (getAuthenticatedClient;;
         '(_, walletAddressDetails) ←
           getWalletAddressInfo senderWalletAddress;
         quote ← createQuote incomingPaymentUrl walletAddressDetails;
         ret (Reply 200 quote))
        (λ _, ret (Fail 500 "Failed to create quote"))
  | _, _ => ret (Fail 400 "Validation failed")
  end.

(** [POST /api/outgoing-payment-auth].  The helper reads [dateNow]
    first, then builds the limits from [input.type], [input.payments]
    and [input.duration]. *)
Definition outgoing_payment_auth (body : PaymentAuthBody)
  : Task (Response Pending) :=
  match present (pa_senderWalletAddress body),
        present (pa_quoteId body) with
  | Some senderWalletAddress, Some quoteId =>
      try_catch
        (getAuthenticatedClient;;
         '(_, walletAddressDetails) ←
           getWalletAddressInfo senderWalletAddress;
         dateNow ← read_world clock;
         outgoingPaymentAuthResponse ←
           createOutgoingPaymentPendingGrant
             {| pg_debitAmount := pa_debitAmount body;
                pg_interval :=
                  subscription_interval (pa_type body) (pa_payments body)
                    (pa_duration body) (toISOString dateNow);
                pg_redirectUrl := pa_redirectUrl body |}
             walletAddressDetails;
         ret (Reply 200 outgoingPaymentAuthResponse))
        (λ _, ret (Fail 500 "Failed to create outgoing payment auth"))
  | _, _ => ret (Fail 400 "Validation failed")
  end.

(** [GET /api/grants] *)
Definition list_grants : Task (Response (list CustomerGrant)) :=
  st ← get_store;
  let grantList := map_values (grants st) in
  ret (Reply 200 grantList).

(** The routes that read or write the stores.  The remaining routes
    keep no state and only talk to the payment network; [Elsewhere]
    stands for them and for anything else that happens between two
    requests: the world moves on and calls are made. *)
Inductive Request :=
| StartPaymentSession (body : StartSessionBody)
| ApprovePayment (body : ApproveBody)
| AuthorizeVendor (cid : string) (body : AuthorizeVendorBody)
| CreateVendorGrant (body : VendorGrantBody)
| ProcessPayment (body : ProcessPaymentBody)
| Elsewhere (f : W → W) (made : list Call).

Definition elsewhere (f : W → W) (made : list Call)
  : Sys W PaymentStore → Sys W PaymentStore :=
  λ s, {| world := f (world s); calls := calls s ++ made; store := store s |}.

Definition handle (r : Request) (s : Sys W PaymentStore)
  : Sys W PaymentStore :=
  match r with
  | StartPaymentSession body => (start_payment_session body s).2
  | ApprovePayment body => (approve_payment body s).2
  | AuthorizeVendor cid body => (authorize_vendor cid body s).2
  | CreateVendorGrant body => (create_vendor_grant body s).2
  | ProcessPayment body => (process_payment body s).2
  | Elsewhere f made => elsewhere f made s
  end.

Definition run (rs : list Request) (s : Sys W PaymentStore)
  : Sys W PaymentStore :=
  foldl (λ s r, handle r s) s rs.

(** The stores when the server starts, at the instant [clock w]. *)
Definition initial (w : W) : Sys W PaymentStore :=
  {| world := w;
     calls := [];
     store :=
       {| quoteCache := ∅;
          customers :=
            {[ "customer1" :=
                 {| c_id := "customer1";
                    c_name := "John Doe";
                    c_walletAddress := "https://ilp.interledger-test.dev/alice";
                    c_phone := None;
                    c_email := None;
                    c_createdAt := toISOString (clock w) |} ]};
          vendors :=
            {[ "vendor1" :=
                 {| v_id := "vendor1";
                    v_name := "Coffee Shop";
                    v_walletAddress := "https://ilp.interledger-test.dev/bob";
                    v_createdAt := Some (toISOString (clock w)) |} ]};
          grants := [];
          outgoingpaymentgrantaccessToken := None |} |}.
End Handlers.

End PaymentServer.

(** ** JSON values and [JSON.stringify]

    An object is the list of its members in enumeration order.  Code
    units are the characters of [string]; numbers are integers. *)

Local Unset Elimination Schemes.
Inductive json :=
| JNull
| JBool (b : bool)
| JNum (n : Z)
| JStr (s : string)
| JArr (items : list json)
| JObj (members : list (string * json)).
Local Set Elimination Schemes.

Definition DQUOTE : ascii := "034"%char.
Definition BACKSLASH : ascii := "092"%char.

Definition hex_digit (n : N) : ascii :=
  match n with
  | 0 => "0" | 1 => "1" | 2 => "2" | 3 => "3" | 4 => "4" | 5 => "5"
  | 6 => "6" | 7 => "7" | 8 => "8" | 9 => "9" | 10 => "a" | 11 => "b"
  | 12 => "c" | 13 => "d" | 14 => "e" | _ => "f"
  end%char%N.

(** [QuoteJSONString] on one code unit. *)
Definition escape_char (c : ascii) : string :=
  if decide (c = DQUOTE) then String BACKSLASH (String DQUOTE "")
  else if decide (c = BACKSLASH) then String BACKSLASH (String BACKSLASH "")
  else if decide (c = "008"%char) then String BACKSLASH "b"
  else if decide (c = "009"%char) then String BACKSLASH "t"
  else if decide (c = "010"%char) then String BACKSLASH "n"
  else if decide (c = "012"%char) then String BACKSLASH "f"
  else if decide (c = "013"%char) then String BACKSLASH "r"
  else if decide (N_of_ascii c < 32)%N then
    String BACKSLASH
      ("u00" +:+ String (hex_digit (N_of_ascii c / 16))
                   (String (hex_digit (N_of_ascii c mod 16)) ""))
  else String c "".

Fixpoint escape (s : string) : string :=
  match s with
  | EmptyString => ""
  | String c s' => escape_char c +:+ escape s'
  end.

Definition quote_string (s : string) : string :=
  String DQUOTE (escape s +:+ String DQUOTE "").

Fixpoint join_comma (l : list string) : string :=
  match l with
  | [] => ""
  | [x] => x
  | x :: l' => x +:+ "," +:+ join_comma l'
  end.

Fixpoint stringify (j : json) : string :=
  match j with
  | JNull => "null"
  | JBool true => "true"
  | JBool false => "false"
  | JNum n => number_to_string n
  | JStr s => quote_string s
  | JArr items => "[" +:+ join_comma (map stringify items) +:+ "]"
  | JObj members =>
      "{" +:+ join_comma
                (map (λ kv, let '(k, v) := kv in
                            quote_string k +:+ ":" +:+ stringify v) members)
          +:+ "}"
  end.

(** [obj[key]] on an object: [None] is [undefined]. *)
Fixpoint member (key : string) (members : list (string * json))
  : option json :=
  match members with
  | [] => None
  | (k, v) :: rest => if decide (k = key) then Some v else member key rest
  end.

(** [const { [key]: _, ...rest } = obj]: the members but [key], in order. *)
Definition without (key : string) (members : list (string * json))
  : list (string * json) :=
  filter (λ kv, kv.1 ≠ key) members.

(** ** [server.ts], second program: the customer API *)

Module CustomerApi.

Record Store := {
  customers : gmap string Customer;
  grants : list (string * CustomerGrant);
  vendors : gmap string Vendor
}.

Record CustomerBody := {
  cb_name : option string;
  cb_walletAddress : option string;
  cb_phone : option string;
  cb_email : option string
}.

Record GrantBody := {
  gb_vendorId : option string;
  gb_dailyLimit : option Z;
  gb_expirationDays : option Z
}.

Record GrantResult := {
  gres_id : string;
  gres_vendorName : string;
  gres_dailyLimit : Z;
  gres_expiresAt : string;
  gres_authorizationUrl : string
}.

Record CallbackQuery := {
  interact_ref : option string;
  result : option string
}.

Record QrResult := {
  qrCode : string;
  qr_grants : option json;
  qr_generatedAt : option json
}.

(** [{ ...customer, walletAddress: undefined }] *)
Record PublicCustomer := {
  pc_id : string;
  pc_name : string;
  pc_phone : option string;
  pc_email : option string;
  pc_createdAt : string
}.

Record VerifyResult := {
  vr_customer : PublicCustomer;
  vr_grants : option json
}.

Record GrantInfo := {
  gi_id : string;
  gi_vendorName : string;
  gi_dailyLimit : Z;
  gi_spentToday : Z;
  gi_expiresAt : string
}.

Record CustomerInfo := {
  ci_customer : PublicCustomer;
  ci_grants : list GrantInfo
}.

Record GrantDetails := {
  gd_id : string;
  gd_vendorId : string;
  gd_vendorName : string;
  gd_dailyLimit : Z;
  gd_spentToday : Z;
  gd_remainingToday : Z;
  gd_expiresAt : string;
  gd_status : string
}.

Section Handlers.
Context {W : Type} `{Env W} `{Dates} `{Crypto}.
(** [process.env.QR_SIGNING_SECRET] and [process.env.BASE_URL] *)
Variable QR_SIGNING_SECRET : option string.
Variable BASE_URL : string.
(** [QRCode.toDataURL]: the picture of a text, or a rejection. *)
Variable toDataURL : string → option string.

Local Abbreviation Task := (Task W Store).

(** [process.env.QR_SIGNING_SECRET || 'default-secret-change-in-prod'] *)
Definition signing_secret : string :=
  default "default-secret-change-in-prod" (present QR_SIGNING_SECRET).

Definition generateQRSignature (data : list (string * json)) : string :=
  let secret := signing_secret in
  hmac_sha256_hex secret (stringify (JObj data)).

Definition verifyQRSignature (qrData : list (string * json)) : bool :=
  let signature := member "signature" qrData in
  let dataWithoutSignature := without "signature" qrData in
  let expectedSignature := generateQRSignature dataWithoutSignature in
  match signature with
  | Some (JStr signature) => bool_decide (signature = expectedSignature)
  | _ => false
  end.

Definition set_customers (f : gmap string Customer → gmap string Customer)
  : Task unit :=
  modify_store (λ st,
    {| customers := f (customers st);
       grants := grants st;
       vendors := vendors st |}).

Definition set_grants
    (f : list (string * CustomerGrant) → list (string * CustomerGrant))
  : Task unit :=
  modify_store (λ st,
    {| customers := customers st;
       grants := f (grants st);
       vendors := vendors st |}).

Definition without_walletAddress (customer : Customer) : PublicCustomer :=
  {| pc_id := c_id customer;
     pc_name := c_name customer;
     pc_phone := c_phone customer;
     pc_email := c_email customer;
     pc_createdAt := c_createdAt customer |}.

(** [POST /api/customers] *)
Definition create_customer (body : CustomerBody)
  : Task (Response PublicCustomer) :=
  try_catch
    (match present (cb_name body), present (cb_walletAddress body) with
     | Some name, Some walletAddress =>
         customerId ← step_world uuid;
         now ← read_world clock;
         let customer := {| c_id := customerId;
                            c_name := name;
                            c_walletAddress := walletAddress;
                            c_phone := cb_phone body;
                            c_email := cb_email body;
                            c_createdAt := toISOString now |} in
         set_customers (insert customerId customer);;
         ret (Reply 201 (without_walletAddress customer))
     | _, _ => ret (Fail 400 "Name and wallet address are required")
     end)
    (λ _, ret (Fail 500 "Failed to create customer")).

(** The test of the [find] in the grants route. *)
Definition is_active_for (cid vid : string) (g : CustomerGrant) : Prop :=
  customerId g = cid ∧ vendorId g = vid ∧ status g = "active".

Global Instance is_active_for_dec cid vid g : Decision (is_active_for cid vid g).
Proof. unfold is_active_for. apply _. Defined.

(** [POST /api/customers/:customerId/grants], served alone: no other
    request runs while it waits. *)
Definition create_grant (cid : string) (body : GrantBody)
  : Task (Response GrantResult) :=
  try_catch
    (let expirationDays := default 30 (gb_expirationDays body) in
     st ← get_store;
     match customers st !! cid with
     | None => ret (Fail 404 "Customer not found")
     | Some customer =>
         match gb_vendorId body ≫= (λ vid, (vid,.) <$> vendors st !! vid) with
         | None => ret (Fail 404 "Vendor not found")
         | Some (vid, vendor) =>
             match nonzero (gb_dailyLimit body) with
             | None => ret (Fail 400 "Valid daily limit is required")
             | Some limit =>
                 if decide (limit ≤ 0) then
                   ret (Fail 400 "Valid daily limit is required")
                 else
                   match list_find (is_active_for cid vid)
                           (map_values (grants st)) with
                   | Some _ =>
                       ret (Fail 400
                              "Active grant already exists for this vendor")
                   | None =>
                       getAuthenticatedClient;;
                       '(_, walletAddressDetails) ←
                         getWalletAddressInfo (c_walletAddress customer);
                       pendingGrant ←
                         createOutgoingPaymentPendingGrant
                           {| pg_debitAmount :=
                                Some {| value := number_to_string (limit * 100);
                                        assetCode := "ZAR";
                                        assetScale := 2 |};
                              pg_interval := None;
                              pg_redirectUrl :=
                                Some (BASE_URL +:+ "/api/grants/callback") |}
                           walletAddressDetails;
                       id ← step_world uuid;
                       now ← read_world clock;
                       let expires := addDays now expirationDays in
                       expiresAt ← date_toISOString expires;
                       let grant :=
                         {| grantId := id;
                            customerId := cid;
                            vendorId := vid;
                            vendorName := v_name vendor;
                            dailyLimit := limit;
                            spentToday := 0;
                            expiresAt := expiresAt;
                            createdAt := toISOString now;
                            grantData :=
                              {| continueAccessToken :=
                                   continue_access_token pendingGrant;
                                 continueUri := continue_uri pendingGrant;
                                 interactRef := None;
                                 senderWalletAddress :=
                                   c_walletAddress customer |};
                            status := "active" |} in
                       set_grants (map_set id grant);;
                       ret (Reply 201
                              {| gres_id := id;
                                 gres_vendorName := v_name vendor;
                                 gres_dailyLimit := limit;
                                 gres_expiresAt := expiresAt;
                                 gres_authorizationUrl :=
                                   interact_redirect pendingGrant |})
                   end
             end
         end
     end)
    (λ _, ret (Fail 500 "Failed to create grant")).

(** The grants route from line 903 on: the grant is asked for, stored
    and answered. *)
Definition create_grant_store (cid vid : string) (customer : Customer)
    (vendor : Vendor) (limit expirationDays : Z)
  : Task (Response GrantResult) :=
  getAuthenticatedClient;;
  '(_, walletAddressDetails) ←
    getWalletAddressInfo (c_walletAddress customer);
  pendingGrant ←
    createOutgoingPaymentPendingGrant
      {| pg_debitAmount :=
           Some {| value := number_to_string (limit * 100);
                   assetCode := "ZAR";
                   assetScale := 2 |};
         pg_interval := None;
         pg_redirectUrl := Some (BASE_URL +:+ "/api/grants/callback") |}
      walletAddressDetails;
  id ← step_world uuid;
  now ← read_world clock;
  let expires := addDays now expirationDays in
  expiresAt ← date_toISOString expires;
  let grant :=
    {| grantId := id;
       customerId := cid;
       vendorId := vid;
       vendorName := v_name vendor;
       dailyLimit := limit;
       spentToday := 0;
       expiresAt := expiresAt;
       createdAt := toISOString now;
       grantData :=
         {| continueAccessToken := continue_access_token pendingGrant;
            continueUri := continue_uri pendingGrant;
            interactRef := None;
            senderWalletAddress := c_walletAddress customer |};
       status := "active" |} in
  set_grants (map_set id grant);;
  ret (Reply 201
         {| gres_id := id;
            gres_vendorName := v_name vendor;
            gres_dailyLimit := limit;
            gres_expiresAt := expiresAt;
            gres_authorizationUrl := interact_redirect pendingGrant |}).

(** [POST /api/customers/:customerId/grants] with other requests in
    flight: the handler cut at the await of line 903, after the ledger
    was searched for an active grant and before the grant is stored. *)
Definition create_grant_in_flight (cid : string) (body : GrantBody)
  : InFlight W Store (Response GrantResult) :=
  try_catch
    (let expirationDays := default 30 (gb_expirationDays body) in
     st ← get_store;
     match customers st !! cid with
     | None => ret (inl (Fail 404 "Customer not found"))
     | Some customer =>
         match gb_vendorId body ≫= (λ vid, (vid,.) <$> vendors st !! vid) with
         | None => ret (inl (Fail 404 "Vendor not found"))
         | Some (vid, vendor) =>
             match nonzero (gb_dailyLimit body) with
             | None => ret (inl (Fail 400 "Valid daily limit is required"))
             | Some limit =>
                 if decide (limit ≤ 0) then
                   ret (inl (Fail 400 "Valid daily limit is required"))
                 else
                   match list_find (is_active_for cid vid)
                           (map_values (grants st)) with
                   | Some _ =>
                       ret (inl (Fail 400
                              "Active grant already exists for this vendor"))
                   | None =>
                       ret (inr
                         (try_catch
                            (create_grant_store cid vid customer vendor
                               limit expirationDays)
                            (λ _, ret (Fail 500 "Failed to create grant"))))
                   end
             end
         end
     end)
    (λ _, ret (inl (Fail 500 "Failed to create grant"))).

(** A [grant.grantData.interactRef = ref] on a grant object. *)
Definition with_interactRef (ref : string) (g : CustomerGrant)
  : CustomerGrant :=
  {| grantId := grantId g;
     customerId := customerId g;
     vendorId := vendorId g;
     vendorName := vendorName g;
     dailyLimit := dailyLimit g;
     spentToday := spentToday g;
     expiresAt := expiresAt g;
     createdAt := createdAt g;
     grantData :=
       {| continueAccessToken := continueAccessToken (grantData g);
          continueUri := continueUri (grantData g);
          interactRef := Some ref;
          senderWalletAddress := senderWalletAddress (grantData g) |};
     status := status g |}.

(** [GET /api/grants/callback].  The grant found is an object of the
    map: the assignment changes it in its place, and the [set] that
    follows stores it under its own id. *)
Definition grants_callback (query : CallbackQuery) : Task (Response unit) :=
  try_catch
    (if decide (result query = Some "grant_approved") then
       st ← get_store;
       match list_find (λ kv, present (interactRef (grantData kv.2)) = None)
               (grants st),
             present (interact_ref query) with
       | Some (i, (k, grant)), Some ref =>
           let grant := with_interactRef ref grant in
           set_grants (λ m, map_set (grantId grant) grant (<[i := (k, grant)]> m))
       | _, _ => ret ()
       end;;
       ret (Reply 200 ())
     else ret (Fail 400 "Grant authorization failed"))
    (λ _, ret (Fail 500 "Error processing grant authorization")).

(** The test of the [filter] in the QR route, at the instant [now]. *)
Definition qr_eligible (cid : string) (now : Z) (g : CustomerGrant) : bool :=
  bool_decide (customerId g = cid)
  && bool_decide (status g = "active")
  && match parseDate (expiresAt g) with
     | Some t => bool_decide (now < t)
     | None => false
     end
  && bool_decide (is_Some (present (interactRef (grantData g)))).

Definition grant_summary (g : CustomerGrant) : json :=
  JObj [("grantId", JStr (grantId g));
        ("vendorId", JStr (vendorId g));
        ("vendorName", JStr (vendorName g));
        ("dailyLimit", JNum (dailyLimit g));
        ("expiresAt", JStr (expiresAt g))].

(** [qrDataWithoutSignature] of the QR route. *)
Definition qr_data (cid : string) (activeGrants : list CustomerGrant)
    (generatedAt : string) : list (string * json) :=
  [("customerId", JStr cid);
   ("grants", JArr (grant_summary <$> activeGrants));
   ("generatedAt", JStr generatedAt)].

(** [{ ...qrDataWithoutSignature, signature }] *)
Definition qr_bundle (cid : string) (activeGrants : list CustomerGrant)
    (generatedAt : string) : list (string * json) :=
  let qrDataWithoutSignature := qr_data cid activeGrants generatedAt in
  let signature := generateQRSignature qrDataWithoutSignature in
  qrDataWithoutSignature ++ [("signature", JStr signature)].

(** [POST /api/customers/:customerId/qr-code] *)
Definition qr_code (cid : string) : Task (Response QrResult) :=
  try_catch
    (st ← get_store;
     match customers st !! cid with
     | None => ret (Fail 404 "Customer not found")
     | Some customer =>
         now ← read_world clock;
         let activeGrants :=
           filter (qr_eligible cid now) (map_values (grants st)) in
         if decide (length activeGrants = 0%nat) then
           ret (Fail 400 "No active authorized grants found")
         else
           let qrData := qr_bundle cid activeGrants (toISOString now) in
           match toDataURL (stringify (JObj qrData)) with
           | None => throw Rejected
           | Some qrCodeDataUrl =>
               ret (Reply 200
                      {| qrCode := qrCodeDataUrl;
                         qr_grants := member "grants" qrData;
                         qr_generatedAt := member "generatedAt" qrData |})
           end
     end)
    (λ _, ret (Fail 500 "Failed to generate QR code")).

(** [POST /api/qr-code/verify], on the object that [qrData] is or
    parses to. *)
Definition qr_verify (qrData : list (string * json))
  : Task (Response VerifyResult) :=
  try_catch
    (if verifyQRSignature qrData then
       st ← get_store;
       match member "customerId" qrData with
       | Some (JStr cid) =>
           match customers st !! cid with
           | Some customer =>
               ret (Reply 200
                      {| vr_customer := without_walletAddress customer;
                         vr_grants := member "grants" qrData |})
           | None => ret (Fail 404 "Customer not found")
           end
       | _ => ret (Fail 404 "Customer not found")
       end
     else ret (Fail 400 "Invalid QR code signature"))
    (λ _, ret (Fail 500 "Failed to verify QR code")).

Definition grant_info (grant : CustomerGrant) : GrantInfo :=
  {| gi_id := grantId grant;
     gi_vendorName := vendorName grant;
     gi_dailyLimit := dailyLimit grant;
     gi_spentToday := spentToday grant;
     gi_expiresAt := expiresAt grant |}.

(** [GET /api/customers/:customerId] *)
Definition get_customer (cid : string) : Task (Response CustomerInfo) :=
  st ← get_store;
  match customers st !! cid with
  | None => ret (Fail 404 "Customer not found")
  | Some customer =>
      let customerGrants :=
        grant_info <$>
          filter (λ grant, customerId grant = cid ∧ status grant = "active")
            (map_values (grants st)) in
      ret (Reply 200 {| ci_customer := without_walletAddress customer;
                        ci_grants := customerGrants |})
  end.

(** [GET /api/grants/:grantId].  The callback route is declared before
    this one, so the id [callback] never comes here. *)
Definition get_grant (id : string) : Task (Response GrantDetails) :=
  st ← get_store;
  match map_get id (grants st) with
  | None => ret (Fail 404 "Grant not found")
  | Some grant =>
      ret (Reply 200
             {| gd_id := grantId grant;
                gd_vendorId := vendorId grant;
                gd_vendorName := vendorName grant;
                gd_dailyLimit := dailyLimit grant;
                gd_spentToday := spentToday grant;
                gd_remainingToday := dailyLimit grant - spentToday grant;
                gd_expiresAt := expiresAt grant;
                gd_status := status grant |})
  end.

Inductive Request :=
| CreateCustomer (body : CustomerBody)
| CreateGrant (cid : string) (body : GrantBody)
| GrantsCallback (query : CallbackQuery)
| QrCode (cid : string)
| QrVerify (qrData : list (string * json))
| Elsewhere (f : W → W) (made : list Call).

Definition elsewhere (f : W → W) (made : list Call)
  : Sys W Store → Sys W Store :=
  λ s, {| world := f (world s); calls := calls s ++ made; store := store s |}.

Definition handle (r : Request) (s : Sys W Store) : Sys W Store :=
  match r with
  | CreateCustomer body => (create_customer body s).2
  | CreateGrant cid body => (create_grant cid body s).2
  | GrantsCallback query => (grants_callback query s).2
  | QrCode cid => (qr_code cid s).2
  | QrVerify qrData => (qr_verify qrData s).2
  | Elsewhere f made => elsewhere f made s
  end.

Definition run (rs : list Request) (s : Sys W Store) : Sys W Store :=
  foldl (λ s r, handle r s) s rs.

(** The stores when the server starts. *)
Definition initial (w : W) : Sys W Store :=
  {| world := w;
     calls := [];
     store :=
       {| customers := ∅;
          grants := [];
          vendors :=
            {[ "vendor1" :=
                 {| v_id := "vendor1";
                    v_name := "ShopA Market";
                    v_walletAddress := "https://ilp.interledger-test.dev/shop-a";
                    v_createdAt := None |};
               "vendor2" :=
                 {| v_id := "vendor2";
                    v_name := "MarketB Fresh";
                    v_walletAddress :=
                      "https://ilp.interledger-test.dev/market-b";
                    v_createdAt := None |};
               "vendor3" :=
                 {| v_id := "vendor3";
                    v_name := "FoodStall C";
                    v_walletAddress := "https://ilp.interledger-test.dev/food-c";
                    v_createdAt := None |} ]} |} |}.
End Handlers.

End CustomerApi.

(** ** Node's [crypto] digests

    SHA-256 (FIPS 180-4) on 32-bit words kept in [Z], HMAC (RFC 2104)
    and the two encodings, for running the programs on examples. *)

Module NodeCrypto.

Definition K : list Z :=
  [1116352408; 1899447441; 3049323471; 3921009573; 961987163; 1508970993;
   2453635748; 2870763221; 3624381080; 310598401; 607225278; 1426881987;
   1925078388; 2162078206; 2614888103; 3248222580; 3835390401; 4022224774;
   264347078; 604807628; 770255983; 1249150122; 1555081692; 1996064986;
   2554220882; 2821834349; 2952996808; 3210313671; 3336571891; 3584528711;
   113926993; 338241895; 666307205; 773529912; 1294757372; 1396182291;
   1695183700; 1986661051; 2177026350; 2456956037; 2730485921; 2820302411;
   3259730800; 3345764771; 3516065817; 3600352804; 4094571909; 275423344;
   430227734; 506948616; 659060556; 883997877; 958139571; 1322822218;
   1537002063; 1747873779; 1955562222; 2024104815; 2227730452; 2361852424;
   2428436474; 2756734187; 3204031479; 3329325298].

Definition H0 : list Z :=
  [1779033703; 3144134277; 1013904242; 2773480762; 1359893119; 2600822924;
   528734635; 1541459225].

Definition w32 (x : Z) : Z := Z.land x 4294967295.
Definition add32 (x y : Z) : Z := w32 (x + y).
Definition rotr (n x : Z) : Z :=
  Z.lor (Z.shiftr x n) (w32 (Z.shiftl x (32 - n))).
Definition not32 (x : Z) : Z := Z.lxor x 4294967295.

Definition Ch (x y z : Z) : Z := Z.lxor (Z.land x y) (Z.land (not32 x) z).
Definition Maj (x y z : Z) : Z :=
  Z.lxor (Z.lxor (Z.land x y) (Z.land x z)) (Z.land y z).
Definition Sigma0 (x : Z) : Z :=
  Z.lxor (Z.lxor (rotr 2 x) (rotr 13 x)) (rotr 22 x).
Definition Sigma1 (x : Z) : Z :=
  Z.lxor (Z.lxor (rotr 6 x) (rotr 11 x)) (rotr 25 x).
Definition sigma0 (x : Z) : Z :=
  Z.lxor (Z.lxor (rotr 7 x) (rotr 18 x)) (Z.shiftr x 3).
Definition sigma1 (x : Z) : Z :=
  Z.lxor (Z.lxor (rotr 17 x) (rotr 19 x)) (Z.shiftr x 10).

(** Big-endian words of a block of bytes. *)
Fixpoint words (bytes : list Z) : list Z :=
  match bytes with
  | a :: b :: c :: d :: rest =>
      (Z.shiftl a 24 + Z.shiftl b 16 + Z.shiftl c 8 + d) :: words rest
  | _ => []
  end.

(** The message schedule, newest word first. *)
Fixpoint schedule (n : nat) (rev_w : list Z) : list Z :=
  match n with
  | O => rev_w
  | S n' =>
      let w := add32 (add32 (sigma1 (rev_w !!! 1%nat)) (rev_w !!! 6%nat))
                 (add32 (sigma0 (rev_w !!! 14%nat)) (rev_w !!! 15%nat)) in
      schedule n' (w :: rev_w)
  end.

Definition round (st : list Z) (kw : Z * Z) : list Z :=
  match st with
  | [a; b; c; d; e; f; g; h] =>
      let t1 := add32 (add32 (add32 h (Sigma1 e)) (add32 (Ch e f g) kw.1)) kw.2 in
      let t2 := add32 (Sigma0 a) (Maj a b c) in
      [add32 t1 t2; a; b; c; add32 d t1; e; f; g]
  | _ => st
  end.

Definition compress (h : list Z) (block : list Z) : list Z :=
  let w := rev (schedule 48 (rev (words block))) in
  zip_with add32 h (foldl round h (zip K w)).

Fixpoint blocks (n : nat) (bytes : list Z) : list (list Z) :=
  match n with
  | O => []
  | S n' => take 64 bytes :: blocks n' (drop 64 bytes)
  end.

Definition be_bytes (n : nat) (x : Z) : list Z :=
  (λ i, Z.land (Z.shiftr x (8 * Z.of_nat i)) 255) <$> rev (seq 0 n).

Definition pad (msg : list Z) : list Z :=
  let len := Z.of_nat (length msg) in
  let zeros := Z.to_nat ((55 - len) mod 64) in
  msg ++ [128] ++ replicate zeros 0 ++ be_bytes 8 (8 * len).

Definition sha256 (msg : list Z) : list Z :=
  let padded := pad msg in
  let h := foldl compress H0 (blocks (length padded / 64) padded) in
  h ≫= be_bytes 4.

Definition hmac_sha256 (key msg : list Z) : list Z :=
  let key := if decide (64 < length key)%nat then sha256 key else key in
  let key := key ++ replicate (64 - length key) 0 in
  sha256 ((Z.lxor 92 <$> key) ++ sha256 ((Z.lxor 54 <$> key) ++ msg)).

(** [update(string)]: the UTF-8 bytes of the code units. *)
Fixpoint utf8 (s : string) : list Z :=
  match s with
  | EmptyString => []
  | String c s' =>
      let n := Z.of_N (N_of_ascii c) in
      (if decide (n < 128) then [n]
       else [Z.lor 192 (Z.shiftr n 6); Z.lor 128 (Z.land n 63)]) ++ utf8 s'
  end.

Definition char_of (n : Z) : ascii := ascii_of_N (Z.to_N n).

Definition hex_char (n : Z) : ascii :=
  if decide (n < 10) then char_of (48 + n) else char_of (87 + n).

Fixpoint hex (bytes : list Z) : string :=
  match bytes with
  | [] => ""
  | b :: rest =>
      String (hex_char (Z.shiftr b 4)) (String (hex_char (Z.land b 15)) (hex rest))
  end.

Definition base64_char (n : Z) : ascii :=
  if decide (n < 26) then char_of (65 + n)
  else if decide (n < 52) then char_of (71 + n)
  else if decide (n < 62) then char_of (n - 4)
  else if decide (n = 62) then "+"%char else "/"%char.

Fixpoint base64 (bytes : list Z) : string :=
  match bytes with
  | a :: b :: c :: rest =>
      String (base64_char (Z.shiftr a 2))
        (String (base64_char (Z.lor (Z.shiftl (Z.land a 3) 4) (Z.shiftr b 4)))
           (String (base64_char (Z.lor (Z.shiftl (Z.land b 15) 2) (Z.shiftr c 6)))
              (String (base64_char (Z.land c 63)) (base64 rest))))
  | [a; b] =>
      String (base64_char (Z.shiftr a 2))
        (String (base64_char (Z.lor (Z.shiftl (Z.land a 3) 4) (Z.shiftr b 4)))
           (String (base64_char (Z.shiftl (Z.land b 15) 2)) "="))
  | [a] =>
      String (base64_char (Z.shiftr a 2))
        (String (base64_char (Z.shiftl (Z.land a 3) 4)) "==")
  | [] => ""
  end.

Global Instance crypto : Crypto := {|
  sha256_base64 data := base64 (sha256 (utf8 data));
  hmac_sha256_hex secret data := hex (hmac_sha256 (utf8 secret) (utf8 data))
|}.

End NodeCrypto.

(** ** A payment network to run examples on

    Every call is answered.  A wallet address whose URL ends in [usd3]
    has asset scale 3, any other has scale 2; continuing a grant yields
    an access token that names the continuation token it was given.
    Instants are written as their count of milliseconds. *)

Module Sandbox.

Record World := {
  now : Z;
  counter : Z;
  cache : gmap string InstantPayData
}.

Definition wallet (url : string) : WalletAddress :=
  if decide (url = "https://ilp.interledger-test.dev/usd3") then
    {| wa_id := url;
       wa_assetCode := "USD";
       wa_assetScale := 3;
       wa_authServer := "https://auth.interledger-test.dev";
       wa_resourceServer := "https://ilp.interledger-test.dev" |}
  else
    {| wa_id := url;
       wa_assetCode := "ZAR";
       wa_assetScale := 2;
       wa_authServer := "https://auth.interledger-test.dev";
       wa_resourceServer := "https://ilp.interledger-test.dev" |}.

Global Instance env : Env World := {|
  clock w := now w;
  uuid w :=
    ("id-" +:+ number_to_string (counter w),
     {| now := now w; counter := counter w + 1; cache := cache w |});
  createAuthenticatedClient w := (Some (), w);
  walletAddress_get url w := (Some (wallet url), w);
  grant_request url req w :=
    (Some match gr_interact req with
          | Some _ =>
              PendingGrant (url +:+ "/interact") "interact-nonce"
                (url +:+ "/continue") "continue-token"
          | None => Grant "resource-token" (url +:+ "/token")
          end, w);
  grant_continue accessToken url interact_ref w :=
    (Some (ContinuedGrant ("access:" +:+ accessToken) (url +:+ "/token")), w);
  token_rotate accessToken url w := (Some ("fresh:" +:+ accessToken), w);
  incomingPayment_create url accessToken walletAddress amount w :=
    (Some {| ip_id := walletAddress +:+ "/incoming-payments/1" |}, w);
  quote_create url accessToken walletAddress receiver w :=
    (Some {| quote_id := walletAddress +:+ "/quotes/1" |}, w);
  outgoingPayment_create url accessToken args w :=
    (Some {| op_id := opa_walletAddress args +:+ "/outgoing-payments/1" |}, w);
  cache_get identifier w := cache w !! identifier;
  cache_set identifier data ttl w :=
    {| now := now w; counter := counter w;
       cache := <[identifier := data]> (cache w) |}
|}.

Global Instance dates : Dates := {|
  toISOString t := number_to_string t;
  parseDate s := Z.of_int <$> NilEmpty.int_of_string s;
  addDays t n := t + n * 86400000
|}.

Definition world0 : World := {| now := 1700000000000; counter := 0; cache := ∅ |}.


(** The sandbox with an outage: no client is obtained unless [client],
    and no outgoing payment is created unless [payments]. *)
Definition outage (client payments : bool) : Env World := {|
  clock := clock (W:=World);
  uuid := uuid (W:=World);
  createAuthenticatedClient w := (if client then Some () else None, w);
  walletAddress_get := walletAddress_get (W:=World);
  grant_request := grant_request (W:=World);
  grant_continue := grant_continue (W:=World);
  token_rotate := token_rotate (W:=World);
  incomingPayment_create := incomingPayment_create (W:=World);
  quote_create := quote_create (W:=World);
  outgoingPayment_create url accessToken args w :=
    if payments then outgoingPayment_create url accessToken args w
    else (None, w);
  cache_get := cache_get (W:=World);
  cache_set := cache_set (W:=World)
|}.

End Sandbox.

(** ** Scenarios

    Requests and states of the examples below, all on the sandbox. *)

Module Scenario.
Import Sandbox.

Definition alice : string := "https://ilp.interledger-test.dev/alice".
Definition bob : string := "https://ilp.interledger-test.dev/bob".
Definition usd3 : string := "https://ilp.interledger-test.dev/usd3".

(** *** The payment server *)

Definition server0 : Sys World PaymentServer.PaymentStore :=
  PaymentServer.initial world0.

Definition authorize50 : PaymentServer.AuthorizeVendorBody :=
  {| PaymentServer.av_vendorId := Some "vendor1";
     PaymentServer.av_spendingLimit := Some 50;
     PaymentServer.av_redirectUrl := Some "https://shop.example/done" |}.

(** A payment of [amount] from Alice to [receiver], with the
    continuation credentials [token] and [uri] of a grant. *)
Definition pay (receiver token uri : string) (amount : Z)
  : PaymentServer.ProcessPaymentBody :=
  {| PaymentServer.pp_customerWalletAddress := Some alice;
     PaymentServer.pp_receiverWalletAddress := Some receiver;
     PaymentServer.pp_continueAccessToken := Some token;
     PaymentServer.pp_continueUri := Some uri;
     PaymentServer.pp_interactRef := Some "ref";
     PaymentServer.pp_spendAmount := Some amount |}.

Definition uri_A : string := "https://auth.interledger-test.dev/continue/A".
Definition uri_B : string := "https://auth.interledger-test.dev/continue/B".

(** The server after Alice authorized vendor1 with a limit of 50, and
    the continuation credentials of that grant. *)
Definition server_authorized : Sys World PaymentServer.PaymentStore :=
  (PaymentServer.authorize_vendor "customer1" authorize50 server0).2.

Definition pay_vendor1 (amount : Z) : PaymentServer.ProcessPaymentBody :=
  pay bob "continue-token" "https://auth.interledger-test.dev/continue" amount.

(** The same request without the customer's wallet address. *)
Definition pay_anonymous : PaymentServer.ProcessPaymentBody :=
  {| PaymentServer.pp_customerWalletAddress := None;
     PaymentServer.pp_receiverWalletAddress := Some bob;
     PaymentServer.pp_continueAccessToken := Some "grant-A";
     PaymentServer.pp_continueUri :=
       Some "https://auth.interledger-test.dev/continue/A";
     PaymentServer.pp_interactRef := Some "ref";
     PaymentServer.pp_spendAmount := Some 5 |}.

Definition start_session : PaymentServer.StartSessionBody :=
  {| PaymentServer.ss_clientSessionId := Some "session-1";
     PaymentServer.ss_senderWalletAddress := Some alice;
     PaymentServer.ss_receiverWalletAddress := Some bob;
     PaymentServer.ss_amount := Some "1000" |}.

Definition approve : PaymentServer.ApproveBody :=
  {| PaymentServer.ap_clientSessionId := Some "session-1";
     PaymentServer.ap_senderWalletAddress := Some alice;
     PaymentServer.ap_continueAccessToken := Some "grant-A";
     PaymentServer.ap_interactRef := Some "ref";
     PaymentServer.ap_continueUri :=
       Some "https://auth.interledger-test.dev/continue/A" |}.

(** The server after a session was started, and the same state four
    minutes later. *)
Definition server_session : Sys World PaymentServer.PaymentStore :=
  (PaymentServer.start_payment_session start_session server0).2.

Definition later (s : Sys World PaymentServer.PaymentStore)
  : Sys World PaymentServer.PaymentStore :=
  PaymentServer.elsewhere
    (λ w, {| now := now w + 4 * 60 * 1000; counter := counter w;
             cache := cache w |}) [] s.

(** *** The customer API *)

Definition toDataURL (text : string) : option string := Some ("data:" +:+ text).

Definition base_url : string := "https://paperpay.example".

Definition api_run := CustomerApi.run (W:=World) None base_url toDataURL.

Definition api0 : Sys World CustomerApi.Store :=
  CustomerApi.initial
    {| now := 1700000000000; counter := 6; cache := ∅ |}.

(** A customer (who gets the id [id-6]) authorizes two vendors and
    approves both grants. *)
Definition two_grants : list (CustomerApi.Request (W:=World)) :=
  [CustomerApi.CreateCustomer
     {| CustomerApi.cb_name := Some "Thandi";
        CustomerApi.cb_walletAddress :=
          Some "https://ilp.interledger-test.dev/thandi";
        CustomerApi.cb_phone := None;
        CustomerApi.cb_email := None |};
   CustomerApi.CreateGrant "id-6"
     {| CustomerApi.gb_vendorId := Some "vendor1";
        CustomerApi.gb_dailyLimit := Some 50;
        CustomerApi.gb_expirationDays := None |};
   CustomerApi.CreateGrant "id-6"
     {| CustomerApi.gb_vendorId := Some "vendor2";
        CustomerApi.gb_dailyLimit := Some 20;
        CustomerApi.gb_expirationDays := Some 7 |};
   CustomerApi.GrantsCallback
     {| CustomerApi.interact_ref := Some "ref-1";
        CustomerApi.result := Some "grant_approved" |};
   CustomerApi.GrantsCallback
     {| CustomerApi.interact_ref := Some "ref-2";
        CustomerApi.result := Some "grant_approved" |}].

Definition api_two_grants : Sys World CustomerApi.Store :=
  api_run two_grants api0.

Definition grant_8 : CustomerGrant :=
  {| grantId := "id-8";
     customerId := "id-6";
     vendorId := "vendor1";
     vendorName := "ShopA Market";
     dailyLimit := 50;
     spentToday := 0;
     expiresAt := "1702592000000";
     createdAt := "1700000000000";
     grantData :=
       {| continueAccessToken := "continue-token";
          continueUri := "https://auth.interledger-test.dev/continue";
          interactRef := Some "ref-1";
          senderWalletAddress := "https://ilp.interledger-test.dev/thandi" |};
     status := "active" |}.

Definition grant_10 : CustomerGrant :=
  {| grantId := "id-10";
     customerId := "id-6";
     vendorId := "vendor2";
     vendorName := "MarketB Fresh";
     dailyLimit := 20;
     spentToday := 0;
     expiresAt := "1700604800000";
     createdAt := "1700000000000";
     grantData :=
       {| continueAccessToken := "continue-token";
          continueUri := "https://auth.interledger-test.dev/continue";
          interactRef := Some "ref-2";
          senderWalletAddress := "https://ilp.interledger-test.dev/thandi" |};
     status := "active" |}.

(** The bundle of grant [id-8] alone, and the same bundle with the
    daily limit raised from 50 to 5000. *)
Definition bundle_8 : list (string * json) :=
  CustomerApi.qr_bundle None "id-6" [grant_8] "1700000000000".

Definition raise_limit (g : CustomerGrant) : CustomerGrant :=
  {| grantId := grantId g;
     customerId := customerId g;
     vendorId := vendorId g;
     vendorName := vendorName g;
     dailyLimit := 5000;
     spentToday := spentToday g;
     expiresAt := expiresAt g;
     createdAt := createdAt g;
     grantData := grantData g;
     status := status g |}.

Definition bundle_8_tampered : list (string * json) :=
  CustomerApi.qr_data "id-6" [raise_limit grant_8] "1700000000000"
  ++ [("signature", JStr (CustomerApi.generateQRSignature None
                            (CustomerApi.qr_data "id-6" [grant_8]
                               "1700000000000")))].

(** The answer of the QR route for that customer. *)
Definition qr_out := CustomerApi.qr_code None toDataURL "id-6" api_two_grants.

Definition qr_res : CustomerApi.QrResult :=
  match qr_out.1 with
  | inr (Reply _ res) => res
  | _ => {| CustomerApi.qrCode := "";
            CustomerApi.qr_grants := None;
            CustomerApi.qr_generatedAt := None |}
  end.

(** *** Instant pay *)

Definition pending : InstantPayData :=
  {| ipd_walletAddressUrl := alice;
     ipd_clientNonce := "client-nonce";
     ipd_interactNonce := "interact-nonce";
     ipd_continueUri := "https://auth.interledger-test.dev/continue/1";
     ipd_continueToken := "continue-token" |}.

Definition instant0 : Sys World unit :=
  {| world := {| now := 1700000000000; counter := 0;
                 cache := {[ "client-1" := pending ]} |};
     calls := [];
     store := () |}.


(** *** More of the payment server *)

(** The server after a first payment, made with the credentials of the
    grant [grant-A]. *)
Definition server_paid_A : Sys World PaymentServer.PaymentStore :=
  (PaymentServer.process_payment (pay bob "grant-A" uri_A 5) server0).2.

(** The answer to [start_session]. *)
Definition session_result : PaymentServer.StartSessionResult :=
  {| PaymentServer.ssr_quote := {| quote_id := alice +:+ "/quotes/1" |};
     PaymentServer.ssr_incomingPaymentUrl := bob +:+ "/incoming-payments/1";
     PaymentServer.ssr_grantExpiry := "1700000180000" |}.

(** *** More of the customer API *)

Definition thandi : CustomerApi.CustomerBody :=
  {| CustomerApi.cb_name := Some "Thandi";
     CustomerApi.cb_walletAddress :=
       Some "https://ilp.interledger-test.dev/thandi";
     CustomerApi.cb_phone := None;
     CustomerApi.cb_email := None |}.

Definition limit50 : CustomerApi.GrantBody :=
  {| CustomerApi.gb_vendorId := Some "vendor1";
     CustomerApi.gb_dailyLimit := Some 50;
     CustomerApi.gb_expirationDays := None |}.

(** The API after the customer was created, and after the two grants
    were asked for, before any callback. *)
Definition api_customer : Sys World CustomerApi.Store :=
  api_run (take 1 two_grants) api0.

Definition api_pending : Sys World CustomerApi.Store :=
  api_run (take 3 two_grants) api0.

(** A grant as it was before its callback. *)
Definition unapproved (g : CustomerGrant) : CustomerGrant :=
  {| grantId := grantId g;
     customerId := customerId g;
     vendorId := vendorId g;
     vendorName := vendorName g;
     dailyLimit := dailyLimit g;
     spentToday := spentToday g;
     expiresAt := expiresAt g;
     createdAt := createdAt g;
     grantData :=
       {| continueAccessToken := continueAccessToken (grantData g);
          continueUri := continueUri (grantData g);
          interactRef := None;
          senderWalletAddress := senderWalletAddress (grantData g) |};
     status := status g |}.

(** The callback of the approval of the second grant. *)
Definition approved_2 : CustomerApi.CallbackQuery :=
  {| CustomerApi.interact_ref := Some "ref-2";
     CustomerApi.result := Some "grant_approved" |}.

(** *** More of instant pay *)

Definition instant_token_url : string :=
  "https://auth.interledger-test.dev/token".

End Scenario.

(** * Vocabulary of the properties *)

(** The outgoing payments created so far, the grant continuations made
    so far, the access tokens the outgoing payments were created with,
    the quotes they were created for and the amounts of the incoming
    payments, all in order. *)
Definition outgoing_payments {W St} (s : Sys W St) : list Call :=
  filter (λ c, isOutgoingPaymentCreate c) (calls s).

Definition continuations {W St} (s : Sys W St) : list Call :=
  filter (λ c, isGrantContinue c) (calls s).

Definition payment_tokens {W St} (s : Sys W St) : list string :=
  omap (λ c, match c with
             | OutgoingPaymentCreate _ token _ => Some token
             | _ => None
             end) (calls s).

Definition paid_quotes {W St} (s : Sys W St) : list string :=
  omap (λ c, match c with
             | OutgoingPaymentCreate _ _ args => opa_quoteId args
             | _ => None
             end) (calls s).

Definition incoming_amounts {W St} (s : Sys W St) : list Amount :=
  omap (λ c, match c with
             | IncomingPaymentCreate _ _ _ amount => Some amount
             | _ => None
             end) (calls s).

(** The status code a run answers with. *)
Definition status_code {A} (r : Exn + Response A) : option Z :=
  match r with
  | inr (Reply status _) | inr (Fail status _) => Some status
  | inl _ => None
  end.

(** Two different texts with one digest. *)
Definition collision (h : string → string) (x y : string) : Prop :=
  x ≠ y ∧ h x = h y.

(** The four hashed values, and a change of exactly one of them. *)
Inductive single_change : string * string * string * string →
                          string * string * string * string → Prop :=
| change_clientNonce n n' i r u :
    n ≠ n' → single_change (n, i, r, u) (n', i, r, u)
| change_interactNonce n i i' r u :
    i ≠ i' → single_change (n, i, r, u) (n, i', r, u)
| change_interactRef n i r r' u :
    r ≠ r' → single_change (n, i, r, u) (n, i, r', u)
| change_authServer n i r u u' :
    u ≠ u' → single_change (n, i, r, u) (n, i, r, u').

(** Reading JSON text. *)
Definition is_digit (c : ascii) : bool :=
  match c with
  | "0" | "1" | "2" | "3" | "4" | "5" | "6" | "7" | "8" | "9" => true
  | _ => false
  end%char.

(** What may follow a value inside a text: nothing, or a character that
    is no digit. *)
Definition stop (r : string) : Prop :=
  match r with
  | EmptyString => True
  | String c _ => is_digit c = false
  end.

(** An element's text followed by a stop can be read in one way only. *)
Definition self_delimiting {A} (f : A → string) (x : A) : Prop :=
  ∀ x' r r', stop r → stop r' → f x +:+ r = f x' +:+ r' → x = x' ∧ r = r'.

Definition unhex (c : ascii) : N :=
  match c with
  | "0" => 0 | "1" => 1 | "2" => 2 | "3" => 3 | "4" => 4 | "5" => 5
  | "6" => 6 | "7" => 7 | "8" => 8 | "9" => 9 | "a" => 10 | "b" => 11
  | "c" => 12 | "d" => 13 | "e" => 14 | _ => 15
  end%char%N.

(** The first character of a value's text tells its kind. *)
Definition starts (j : json) (c : ascii) : bool :=
  match j with
  | JNull => Ascii.eqb c "n"
  | JBool true => Ascii.eqb c "t"
  | JBool false => Ascii.eqb c "f"
  | JNum _ => is_digit c || Ascii.eqb c "-"
  | JStr _ => Ascii.eqb c DQUOTE
  | JArr _ => Ascii.eqb c "["
  | JObj _ => Ascii.eqb c "{"
  end.

Definition same_kind (j j' : json) : Prop :=
  match j, j' with
  | JNull, JNull | JNum _, JNum _ | JStr _, JStr _
  | JArr _, JArr _ | JObj _, JObj _ => True
  | JBool b, JBool b' => b = b'
  | _, _ => False
  end.

(** What follows the first element of a comma-separated list. *)
Definition more (l : list string) : string :=
  match l with
  | [] => ""
  | _ :: _ => "," +:+ join_comma l
  end.

(** What a computation leaves as it was.  [stays R t]: every run of [t]
    ends in a state related by [R] to the one it started in; [dies R t]
    adds that the run throws. *)
Definition stays {W St A} (R : relation (Sys W St)) (t : Task W St A) : Prop :=
  ∀ s, R s (t s).2.

Definition dies {W St A} (R : relation (Sys W St)) (t : Task W St A) : Prop :=
  ∀ s, (∃ e, (t s).1 = inl e) ∧ R s (t s).2.

(** The state differs by calls that satisfy [P]. *)
Definition only_calls {W St} (P : Call → Prop) (s s' : Sys W St) : Prop :=
  ∃ made, calls s' = calls s ++ made ∧ Forall P made.

(** The state differs in nothing that the reading [f] of the stores
    shows. *)
Definition keeps {W St A} (f : St → A) (s s' : Sys W St) : Prop :=
  f (store s') = f (store s).

(** The stores satisfy [I] afterwards if they did before. *)
Definition preserves {W St} (I : St → Prop) (s s' : Sys W St) : Prop :=
  I (store s) → I (store s').

(** No grant of the ledger was ever debited; and, for the customer
    API, every grant has a positive daily limit as well. *)
Definition never_debited (m : list (string * CustomerGrant)) : Prop :=
  Forall (λ kv, spentToday kv.2 = 0) m.

Definition ledger_ok (m : list (string * CustomerGrant)) : Prop :=
  Forall (λ kv, spentToday kv.2 = 0 ∧ 0 < dailyLimit kv.2) m.


(** An answer that reports success. *)
Definition answered_ok {A} (r : Exn + Response A) : Prop :=
  match r with inr (Reply _ _) => True | _ => False end.

(** A run from [s] that ends in a failure answer, with no call made and
    the stores as they were. *)
Definition refused {W St A} (s : Sys W St)
    (out : (Exn + Response A) * Sys W St) : Prop :=
  (∃ status error, out.1 = inr (Fail status error))
  ∧ calls out.2 = calls s ∧ store out.2 = store s.

(** A grant between the sample customer and the sample vendor of the
    payment server, stored under its id, active and without an
    interaction reference. *)
Definition sample_grant (kv : string * CustomerGrant) : Prop :=
  kv.1 = grantId kv.2
  ∧ customerId kv.2 = "customer1"
  ∧ vendorId kv.2 = "vendor1"
  ∧ vendorName kv.2 = "Coffee Shop"
  ∧ senderWalletAddress (grantData kv.2)
    = "https://ilp.interledger-test.dev/alice"
  ∧ interactRef (grantData kv.2) = None
  ∧ status kv.2 = "active"
  ∧ dailyLimit kv.2 ≠ 0.

(** The directory the payment server started with at [w], and a ledger
    of sample grants. *)
Definition sample_stores {W} `{Env W} `{Dates} (w : W)
    (st : PaymentServer.PaymentStore) : Prop :=
  PaymentServer.customers st
  = PaymentServer.customers (store (PaymentServer.initial w))
  ∧ PaymentServer.vendors st
    = PaymentServer.vendors (store (PaymentServer.initial w))
  ∧ Forall sample_grant (PaymentServer.grants st).

(** A call that creates no outgoing payment and continues no grant. *)
Definition moves_no_money (c : Call) : Prop :=
  isOutgoingPaymentCreate c = false ∧ isGrantContinue c = false.

(** [R] on the runs that start with stores where [I] holds, which they
    keep. *)
Definition guarded {W St} (I : St → Prop) (R : relation (Sys W St))
  : relation (Sys W St) :=
  λ s s', I (store s) → I (store s') ∧ R s s'.

(** A call that continues no grant and that, where it creates an
    outgoing payment, does so with [token]. *)
Definition paid_with (token : string) (c : Call) : Prop :=
  isGrantContinue c = false
  ∧ ∀ url t args, c = OutgoingPaymentCreate url t args → t = token.

(** The customer and the vendor of a grant.  A ledger is well formed
    when every grant is active and stored under its own id, no id
    occurs twice, and no two grants are for the same customer and
    vendor. *)
Definition vendor_pair (g : CustomerGrant) : string * string :=
  (customerId g, vendorId g).

Definition ledger_wf (m : list (string * CustomerGrant)) : Prop :=
  NoDup m.*1
  ∧ Forall (λ kv, kv.1 = grantId kv.2 ∧ status kv.2 = "active") m
  ∧ NoDup (vendor_pair <$> map_values m).

(** A ledger none of whose grants has an interaction reference. *)
Definition unauthorized (m : list (string * CustomerGrant)) : Prop :=
  Forall (λ kv, interactRef (grantData kv.2) = None) m.

(** A product that the sources compute exactly: the factors and the
    product are safe integers.  Its digits are what [toString] and
    [toFixed()] write. *)
Definition exact_product (a b : Z) : Prop :=
  is_safe_integer a ∧ is_safe_integer b ∧ is_safe_integer (a * b).

(** A lookup of a wallet address, or a request for a grant that debits
    [limit] rand, written in cents where the cents are computed
    exactly. *)
Definition asks_for_rand (limit : option Z) (c : Call) : Prop :=
  match c with
  | WalletAddressGet _ => True
  | GrantRequestCall _ req =>
      ∃ n a, limit = Some n
             ∧ ac_debitAmount (gr_access req) = Some a
             ∧ assetCode a = "ZAR"
             ∧ assetScale a = 2%N
             ∧ (exact_product n 100 → value a = number_to_string (n * 100))
  | _ => False
  end.

(** A callback that reports an approval and carries a reference. *)
Definition approves {W} (r : CustomerApi.Request (W:=W)) : Prop :=
  match r with
  | CustomerApi.GrantsCallback query =>
      CustomerApi.result query = Some "grant_approved"
      ∧ is_Some (present (CustomerApi.interact_ref query))
  | _ => False
  end.

(** [units] of the currency, written at the scale the amount declares:
    the value is the decimal numeral of [units] times ten to that
    scale. *)
Definition at_declared_scale (units : Z) (a : Amount) : Prop :=
  value a = number_to_string (units * 10 ^ Z.of_N (assetScale a)).

(** An amount that is at the scale it declares if the scaling of
    [units] to that scale is computed exactly; and a call all of whose
    amounts are. *)
Definition scaled_where_exact (units : Z) (a : Amount) : Prop :=
  exact_product units (10 ^ Z.of_N (assetScale a)) →
  at_declared_scale units a.

Definition sends_at_scale (units : Z) (c : Call) : Prop :=
  match c with
  | IncomingPaymentCreate _ _ _ a => scaled_where_exact units a
  | OutgoingPaymentCreate _ _ args =>
      ∃ a, opa_debitAmount args = Some a ∧ scaled_where_exact units a
  | GrantRequestCall _ req =>
      ∀ a, ac_debitAmount (gr_access req) = Some a →
           scaled_where_exact units a
  | _ => True
  end.

(** A call whose amounts are [units] times 100, whatever their scale,
    where that product is computed exactly. *)
Definition sends_hundredths (units : option Z) (c : Call) : Prop :=
  match c with
  | IncomingPaymentCreate _ _ _ a =>
      ∃ n, units = Some n ∧ n ≠ 0
           ∧ (exact_product n 100 → value a = number_to_string (n * 100))
  | OutgoingPaymentCreate _ _ args =>
      ∃ n a, units = Some n ∧ n ≠ 0 ∧ opa_debitAmount args = Some a
             ∧ (exact_product n 100 →
                value a = number_to_string (n * 100))
  | _ => True
  end.

(** The state of the payment server with the ledger [ledger] in place
    of its own. *)
Definition with_ledger {W} (ledger : list (string * CustomerGrant))
    (s : Sys W PaymentServer.PaymentStore)
  : Sys W PaymentServer.PaymentStore :=
  {| world := world s;
     calls := calls s;
     store :=
       {| PaymentServer.quoteCache := PaymentServer.quoteCache (store s);
          PaymentServer.customers := PaymentServer.customers (store s);
          PaymentServer.vendors := PaymentServer.vendors (store s);
          PaymentServer.grants := ledger;
          PaymentServer.outgoingpaymentgrantaccessToken :=
            PaymentServer.outgoingpaymentgrantaccessToken (store s) |} |}.

(** A computation that neither reads nor writes the ledger: on a state
    with another ledger it runs the same, and carries that ledger
    along. *)
Definition ledger_blind {W A} (t : Task W PaymentServer.PaymentStore A)
  : Prop :=
  ∀ ledger s,
    t (with_ledger ledger s) = ((t s).1, with_ledger ledger (t s).2).

(** A request that starts a payment session under the id [id]. *)
Definition starts_session {W} (id : string)
    (r : PaymentServer.Request (W:=W)) : Prop :=
  match r with
  | PaymentServer.StartPaymentSession body =>
      present (PaymentServer.ss_clientSessionId body) = Some id
  | _ => False
  end.

(** * Properties *)

(** ** Strings *)

Lemma string_app_cons a s t : String a s +:+ t = String a (s +:+ t).
Proof. reflexivity. Qed.

(** Bring [String c s +:+ t] and [EmptyString +:+ t] to head form. *)
Ltac string_norm :=
  repeat (rewrite string_app_cons
          || match goal with
             | |- context [String.append EmptyString ?x] =>
                 change (String.append EmptyString x) with x
             end).

Ltac string_norm_in H :=
  repeat (rewrite string_app_cons in H
          || match type of H with
             | context [String.append EmptyString ?x] =>
                 change (String.append EmptyString x) with x in H
             end).

Lemma string_app_nil_r s : s +:+ "" = s.
Proof.
  induction s as [|a s IH]; [done|]. rewrite string_app_cons. by f_equal.
Qed.

Lemma string_app_assoc s t u : (s +:+ t) +:+ u = s +:+ (t +:+ u).
Proof.
  induction s as [|a s IH]; [done|]. rewrite !string_app_cons. by f_equal.
Qed.

Lemma string_app_length s t :
  String.length (s +:+ t) = (String.length s + String.length t)%nat.
Proof.
  induction s as [|a s IH]; [done|]. rewrite string_app_cons. simpl.
  by f_equal.
Qed.

Lemma string_app_inv_tail s1 s2 t : s1 +:+ t = s2 +:+ t → s1 = s2.
Proof.
  revert s2. induction s1 as [|a s1 IH]; intros [|b s2] Heq; [done| | |].
  - apply (f_equal String.length) in Heq. string_norm_in Heq.
    simpl in Heq. rewrite string_app_length in Heq. lia.
  - apply (f_equal String.length) in Heq. string_norm_in Heq.
    simpl in Heq. rewrite string_app_length in Heq. lia.
  - rewrite !string_app_cons in Heq. injection Heq as -> Heq.
    f_equal. by apply IH.
Qed.

(** ** Runs *)

Ltac task_unfold :=
  unfold mbind, task_bind, bind, ret, throw, try_catch, request, await,
    read_world, step_world, get_store, modify_store in *.

(** ** [cache.ts]: the interaction hash *)

Lemma interaction_data_single_change n i r u n' i' r' u' :
  single_change (n, i, r, u) (n', i', r', u') →
  interaction_data n i r u ≠ interaction_data n' i' r' u'.
Proof.
  unfold interaction_data.
  inversion 1; subst; intros Heq.
  - by apply string_app_inv_tail in Heq.
  - apply (inj _), (inj _) in Heq. by apply string_app_inv_tail in Heq.
  - do 4 apply (inj _) in Heq. by apply string_app_inv_tail in Heq.
  - do 6 apply (inj _) in Heq. by apply string_app_inv_tail in Heq.
Qed.

Section InstantPayFacts.
Context {W : Type} `{Env W} `{Crypto}.

Lemma verifyInteractionHash_run ref received n i url (s : Sys W unit) :
  verifyInteractionHash ref received n i url s =
  (match (walletAddress_get url (world s)).1 with
   | Some w =>
       if decide (sha256_base64 (interaction_data n i ref (wa_authServer w))
                  = received)
       then inr () else inl (Error "Hash verification failed")
   | None => inl Rejected
   end,
   {| world := (walletAddress_get url (world s)).2;
      calls := calls s ++ [WalletAddressGet url];
      store := store s |}).
Proof.
  unfold verifyInteractionHash. task_unfold.
  destruct (walletAddress_get url (world s)) as [[w|] w']; simpl; [|done].
  by destruct (decide _).
Qed.

(** C3.  Once the wallet address is fetched, the interaction hash
    verifies exactly when the received hash is the SHA-256 digest, in
    base64, of the client nonce, the interaction nonce and the
    interaction reference, each on its own line, followed by the
    authorization server's URL and a slash.  A hash that was computed
    for values of which exactly one differs from the values at hand is
    refused, short of a collision of the digest. *)
Theorem interaction_hash_verification
    ref received n i url (s : Sys W unit) w :
  (walletAddress_get url (world s)).1 = Some w →
  ((verifyInteractionHash ref received n i url s).1 = inr ()
   ↔ received = sha256_base64 (interaction_data n i ref (wa_authServer w)))
  ∧ (∀ n0 i0 ref0 u0,
       received = sha256_base64 (interaction_data n0 i0 ref0 u0) →
       single_change (n0, i0, ref0, u0) (n, i, ref, wa_authServer w) →
       ¬ collision sha256_base64 (interaction_data n0 i0 ref0 u0)
           (interaction_data n i ref (wa_authServer w)) →
       (verifyInteractionHash ref received n i url s).1
       = inl (Error "Hash verification failed")).
Proof.
  intros Hw. rewrite verifyInteractionHash_run, Hw. simpl. split.
  - destruct (decide _) as [Heq|Hne]; split; try done; intros; by subst.
  - intros n0 i0 ref0 u0 -> Hch Hcol.
    destruct (decide _) as [Heq|Hne]; [|done].
    exfalso. apply Hcol. split; [|done].
    by apply interaction_data_single_change.
Qed.

(** C2.  In every run of [completeInstantPaySetup], a grant
    continuation is made, and a token is returned, only if the received
    hash is the digest computed from the cached nonces, the interaction
    reference and the authorization server on record; on any other
    hash the run throws "Hash verification failed" and no continuation
    has been made. *)
Theorem continuation_only_after_verified_hash
    identifier ref hash (s s' : Sys W unit) r :
  completeInstantPaySetup identifier ref hash s = (r, s') →
  (continuations s' ≠ continuations s ∨ (∃ t, r = inr t) →
   ∃ d w,
     cache_get identifier (world s) = Some d
     ∧ (walletAddress_get (ipd_walletAddressUrl d) (world s)).1 = Some w
     ∧ hash = sha256_base64
                (interaction_data (ipd_clientNonce d) (ipd_interactNonce d)
                   ref (wa_authServer w)))
  ∧ (∀ d w,
       cache_get identifier (world s) = Some d →
       (walletAddress_get (ipd_walletAddressUrl d) (world s)).1 = Some w →
       hash ≠ sha256_base64
                (interaction_data (ipd_clientNonce d) (ipd_interactNonce d)
                   ref (wa_authServer w)) →
       r = inl (Error "Hash verification failed")
       ∧ continuations s' = continuations s).
Proof.
  unfold completeInstantPaySetup.
  unfold mbind at 1, task_bind, bind at 1, read_world.
  destruct (cache_get identifier (world s)) as [d|] eqn:Hd.
  - unfold mbind, task_bind, bind at 1.
    rewrite verifyInteractionHash_run.
    destruct (walletAddress_get _ _) as [[w|] w'] eqn:Hw; simpl.
    + destruct (decide _) as [Heq|Hne].
      * intros Hrun. split.
        -- intros _. exists d, w. by rewrite Hw.
        -- intros d0 w0 [= ->] Hw0 Hneq. rewrite Hw in Hw0. by simplify_eq/=.
      * intros [= <- <-]. unfold continuations. simpl.
        rewrite filter_app. simpl. rewrite app_nil_r. split.
        -- intros [?|[? ?]]; done.
        -- done.
    + intros [= <- <-]. unfold continuations. simpl.
      rewrite filter_app. simpl. rewrite app_nil_r. split.
      * intros [?|[? ?]]; done.
      * intros d0 w0 [= ->] Hw0. rewrite Hw in Hw0. by simplify_eq/=.
  - unfold throw. intros [= <- <-]. split.
    + intros [?|[? ?]]; done.
    + intros ?? [=].
Qed.
End InstantPayFacts.

(** ** [JSON.stringify] is one-to-one

    Decimal numerals. *)

Lemma string_of_uint_prefix d d' r r' :
  stop r → stop r' →
  NilEmpty.string_of_uint d +:+ r = NilEmpty.string_of_uint d' +:+ r' →
  d = d' ∧ r = r'.
Proof.
  revert d'. induction d as [|d IH|d IH|d IH|d IH|d IH|d IH|d IH|d IH|d IH|d IH];
    intros [|d'|d'|d'|d'|d'|d'|d'|d'|d'|d'] Hr Hr'; simpl;
    string_norm; intros Heq;
    try (subst; simpl in *; discriminate);
    try (injection Heq as Heq; destruct (IH _ Hr Hr' Heq) as [-> ->]; done);
    try discriminate.
  done.
Qed.

Lemma number_to_string_prefix n n' r r' :
  stop r → stop r' →
  number_to_string n +:+ r = number_to_string n' +:+ r' →
  n = n' ∧ r = r'.
Proof.
  unfold number_to_string. intros Hr Hr' Heq.
  assert (Hnn : ∀ p, Pos.to_uint p ≠ Decimal.Nil)
    by apply Unsigned.to_uint_nonnil.
  assert (Z.to_int n = Z.to_int n' ∧ r = r') as [Hn ->].
  { destruct n as [|p|p], n' as [|p'|p']; simpl in Heq |- *;
      string_norm_in Heq.
    - by injection Heq as ->.
    - apply (string_of_uint_prefix (Decimal.D0 Decimal.Nil)) in Heq as [-> ->]; done.
    - discriminate.
    - apply (string_of_uint_prefix _ (Decimal.D0 Decimal.Nil)) in Heq as [-> ->]; done.
    - apply string_of_uint_prefix in Heq as [-> ->]; done.
    - pose proof (Hnn p). destruct (Pos.to_uint p); try done; discriminate.
    - discriminate.
    - pose proof (Hnn p'). destruct (Pos.to_uint p'); try done; discriminate.
    - injection Heq as Heq.
      apply string_of_uint_prefix in Heq as [-> ->]; done. }
  split; [|done]. by apply to_int_inj.
Qed.

(** Quoted strings. *)

Lemma unhex_hex_digit x : (x < 16)%N → unhex (hex_digit x) = x.
Proof.
  intros Hx.
  assert (x = 0 ∨ x = 1 ∨ x = 2 ∨ x = 3 ∨ x = 4 ∨ x = 5 ∨ x = 6 ∨ x = 7
          ∨ x = 8 ∨ x = 9 ∨ x = 10 ∨ x = 11 ∨ x = 12 ∨ x = 13 ∨ x = 14
          ∨ x = 15)%N as Hcases by lia.
  destruct_or!; subst; reflexivity.
Qed.

Lemma hex_pair_inj c c' :
  (N_of_ascii c < 32)%N → (N_of_ascii c' < 32)%N →
  hex_digit (N_of_ascii c / 16) = hex_digit (N_of_ascii c' / 16) →
  hex_digit (N_of_ascii c mod 16) = hex_digit (N_of_ascii c' mod 16) →
  c = c'.
Proof.
  intros Hc Hc' Hhi Hlo.
  apply (f_equal unhex) in Hhi, Hlo.
  rewrite !unhex_hex_digit in Hhi, Hlo
    by (try apply N.mod_lt; try apply N.Div0.div_lt_upper_bound; lia).
  rewrite <- (ascii_N_embedding c), <- (ascii_N_embedding c'). f_equal.
  rewrite (N.div_mod (N_of_ascii c) 16), (N.div_mod (N_of_ascii c') 16) by lia.
  congruence.
Qed.

Lemma escape_char_prefix c c' r r' :
  escape_char c +:+ r = escape_char c' +:+ r' → c = c' ∧ r = r'.
Proof.
  unfold escape_char. intros Heq.
  repeat case_decide; subst;
    string_norm_in Heq;
    try (injection Heq; intros; subst; done);
    try (exfalso; congruence).
  injection Heq. intros -> Hlo Hhi. split; [|done].
  apply hex_pair_inj; [done..| |]; congruence.
Qed.

Lemma escape_char_no_quote c r r' :
  escape_char c +:+ r ≠ String DQUOTE r'.
Proof.
  unfold escape_char. intros Heq.
  repeat case_decide; subst;
    string_norm_in Heq;
    try discriminate.
  congruence.
Qed.

Lemma escape_prefix s s' r r' :
  escape s +:+ String DQUOTE r = escape s' +:+ String DQUOTE r' →
  s = s' ∧ r = r'.
Proof.
  revert s'. induction s as [|c s IH]; intros [|c' s']; simpl;
    rewrite ?string_app_assoc; string_norm; intros Heq.
  - by injection Heq as ->.
  - symmetry in Heq. by apply escape_char_no_quote in Heq.
  - by apply escape_char_no_quote in Heq.
  - apply escape_char_prefix in Heq as [-> Heq].
    by apply IH in Heq as [-> ->].
Qed.

Lemma quote_string_prefix s s' r r' :
  quote_string s +:+ r = quote_string s' +:+ r' → s = s' ∧ r = r'.
Proof.
  unfold quote_string. rewrite !string_app_cons, !string_app_assoc.
  intros [= Heq]. string_norm_in Heq.
  by apply escape_prefix.
Qed.

(** Values. *)

Section json_ind.
Variable P : json → Prop.
Hypothesis Hnull : P JNull.
Hypothesis Hbool : ∀ b, P (JBool b).
Hypothesis Hnum : ∀ n, P (JNum n).
Hypothesis Hstr : ∀ s, P (JStr s).
Hypothesis Harr : ∀ items, Forall P items → P (JArr items).
Hypothesis Hobj : ∀ members, Forall (λ kv, P kv.2) members → P (JObj members).

Fixpoint json_ind (j : json) : P j :=
  match j with
  | JNull => Hnull
  | JBool b => Hbool b
  | JNum n => Hnum n
  | JStr s => Hstr s
  | JArr items =>
      Harr items
        ((fix go (l : list json) : Forall P l :=
            match l with
            | [] => List.Forall_nil P
            | x :: l' => List.Forall_cons P x l' (json_ind x) (go l')
            end) items)
  | JObj members =>
      Hobj members
        ((fix go (l : list (string * json)) : Forall (λ kv, P kv.2) l :=
            match l with
            | [] => List.Forall_nil _
            | kv :: l' =>
                List.Forall_cons (λ kv, P kv.2) kv l' (json_ind kv.2) (go l')
            end) members)
  end.
End json_ind.

Lemma number_to_string_starts n :
  ∃ c s, number_to_string n = String c s ∧ is_digit c || Ascii.eqb c "-" = true.
Proof.
  unfold number_to_string.
  destruct n as [|p|p]; simpl; [by eexists _, _|..].
  - pose proof (Unsigned.to_uint_nonnil p).
    destruct (Pos.to_uint p); try done; by eexists _, _.
  - by eexists _, _.
Qed.

Lemma stringify_starts j : ∃ c s, stringify j = String c s ∧ starts j c = true.
Proof.
  destruct j as [|[]|n|s|items|members]; simpl; try by eexists _, _.
  apply number_to_string_starts.
Qed.

Lemma starts_same_kind j j' c :
  starts j c = true → starts j' c = true → same_kind j j'.
Proof.
  destruct j as [|[]|?|?|?|?], j' as [|[]|?|?|?|?]; simpl; try done;
    rewrite ?orb_true_iff, ?Ascii.eqb_eq;
    intros; destruct_or?; subst; simpl in *; done.
Qed.

Lemma stringify_same_kind j j' r r' :
  stringify j +:+ r = stringify j' +:+ r' → same_kind j j'.
Proof.
  destruct (stringify_starts j) as (c & s & -> & Hc).
  destruct (stringify_starts j') as (c' & s' & -> & Hc').
  intros [= -> _]. by eapply starts_same_kind.
Qed.

Lemma starts_not_stop j c : starts j c = true → c ≠ "]"%char ∧ c ≠ "}"%char.
Proof.
  destruct j as [|[]|?|?|?|?]; simpl;
    rewrite ?orb_true_iff, ?Ascii.eqb_eq; intros; split; intros ->;
    destruct_or?; simpl in *; done.
Qed.

Lemma join_comma_cons x l : join_comma (x :: l) = x +:+ more l.
Proof. destruct l; simpl; by rewrite ?string_app_nil_r. Qed.

Lemma join_comma_prefix {A} (f : A → string) (close : ascii) (l : list A) :
  is_digit close = false → close ≠ ","%char →
  (∀ x, ∃ c s, f x = String c s ∧ c ≠ close) →
  Forall (self_delimiting f) l →
  ∀ l' r r',
    join_comma (f <$> l) +:+ String close r
    = join_comma (f <$> l') +:+ String close r' →
    l = l' ∧ r = r'.
Proof.
  intros Hclose Hcomma Hfirst Hall.
  induction Hall as [|x l Hx _ IH]; intros [|x' l'] r r' Heq.
  - simpl in Heq. string_norm_in Heq. by injection Heq as ->.
  - exfalso. rewrite fmap_cons, join_comma_cons in Heq.
    destruct (Hfirst x') as (c & s & Hc & Hne). rewrite Hc in Heq.
    simpl in Heq. string_norm_in Heq. congruence.
  - exfalso. rewrite fmap_cons, join_comma_cons in Heq.
    destruct (Hfirst x) as (c & s & Hc & Hne). rewrite Hc in Heq.
    simpl in Heq. string_norm_in Heq. congruence.
  - rewrite !fmap_cons, !join_comma_cons, !string_app_assoc in Heq.
    apply Hx in Heq as [<- Heq].
    + destruct l as [|y l], l' as [|y' l'];
        rewrite ?fmap_nil, ?fmap_cons in Heq;
        cbv beta iota delta [more] in Heq; string_norm_in Heq.
      * by injection Heq as ->.
      * exfalso. congruence.
      * exfalso. congruence.
      * injection Heq as Heq.
        change (join_comma (f <$> y :: l) +:+ String close r
                = join_comma (f <$> y' :: l') +:+ String close r') in Heq.
        by apply IH in Heq as [-> ->].
    + destruct l; [exact Hclose | reflexivity].
    + destruct l'; [exact Hclose | reflexivity].
Qed.

Lemma stringify_self_delimiting j : self_delimiting stringify j.
Proof.
  induction j as [|b|n|s|items IH|members IH] using json_ind;
    intros j' r r' Hr Hr' Heq;
    pose proof (stringify_same_kind _ _ _ _ Heq) as Hkind;
    destruct j' as [|b'|n'|s'|items'|members']; try done; simpl in Hkind.
  - by apply (inj _) in Heq as ->.
  - subst b'. by apply (inj _) in Heq as ->.
  - simpl in Heq. by apply number_to_string_prefix in Heq as [-> ->].
  - simpl in Heq. by apply quote_string_prefix in Heq as [-> ->].
  - simpl in Heq. rewrite !string_app_assoc in Heq. string_norm_in Heq.
    injection Heq as Heq.
    apply (join_comma_prefix stringify) in Heq as [-> ->]; try done.
    intros x. destruct (stringify_starts x) as (c & s & -> & Hc).
    exists c, s. split; [done|]. by apply starts_not_stop in Hc as [? ?].
  - simpl in Heq. rewrite !string_app_assoc in Heq. string_norm_in Heq.
    injection Heq as Heq.
    apply (join_comma_prefix
             (λ kv : string * json,
                let '(k, v) := kv in quote_string k +:+ ":" +:+ stringify v))
      in Heq as [-> ->]; try done.
    + intros [k v]. by eexists _, _.
    + eapply Forall_impl; [exact IH|].
      intros [k v] Hv [k' v'] t t' Ht Ht' Hkv. simpl in Hv.
      rewrite !string_app_assoc in Hkv.
      apply quote_string_prefix in Hkv as [-> Hkv]. string_norm_in Hkv.
      injection Hkv as Hkv. by apply Hv in Hkv as [-> ->].
Qed.

Theorem stringify_inj j j' : stringify j = stringify j' → j = j'.
Proof.
  intros Heq.
  apply (stringify_self_delimiting j j' "" ""); [done..|].
  by rewrite !string_app_nil_r.
Qed.

(** ** The customer API: QR bundles *)

Section QrFacts.
Context `{Crypto}.
Variable QR_SIGNING_SECRET : option string.

Local Abbreviation sign := (CustomerApi.generateQRSignature QR_SIGNING_SECRET).
Local Abbreviation verify := (CustomerApi.verifyQRSignature QR_SIGNING_SECRET).

Lemma qr_bundle_signature cid activeGrants generatedAt :
  member "signature"
    (CustomerApi.qr_bundle QR_SIGNING_SECRET cid activeGrants generatedAt)
  = Some (JStr (sign (CustomerApi.qr_data cid activeGrants generatedAt))).
Proof. reflexivity. Qed.

Lemma qr_bundle_content cid activeGrants generatedAt :
  without "signature"
    (CustomerApi.qr_bundle QR_SIGNING_SECRET cid activeGrants generatedAt)
  = CustomerApi.qr_data cid activeGrants generatedAt.
Proof. reflexivity. Qed.

(** C5.  A bundle as the QR route builds it verifies.  A bundle that
    carries the issued signature verifies exactly when its content, the
    members other than the signature, is the signed content, short of a
    collision of the HMAC on the two texts; and a bundle with the
    signed content verifies exactly when it carries the issued
    signature. *)
Theorem qr_signature_verifies_iff_unmodified cid activeGrants generatedAt :
  let bundle :=
    CustomerApi.qr_bundle QR_SIGNING_SECRET cid activeGrants generatedAt in
  verify bundle = true
  ∧ (∀ tampered,
       member "signature" tampered = member "signature" bundle →
       ¬ collision
           (hmac_sha256_hex (CustomerApi.signing_secret QR_SIGNING_SECRET))
           (stringify (JObj (without "signature" bundle)))
           (stringify (JObj (without "signature" tampered))) →
       (verify tampered = true
        ↔ without "signature" tampered = without "signature" bundle))
  ∧ (∀ tampered,
       without "signature" tampered = without "signature" bundle →
       (verify tampered = true
        ↔ member "signature" tampered = member "signature" bundle)).
Proof.
  intros bundle. subst bundle.
  rewrite qr_bundle_signature, qr_bundle_content.
  split; [|split].
  - unfold CustomerApi.verifyQRSignature.
    rewrite qr_bundle_signature, qr_bundle_content.
    by apply bool_decide_eq_true.
  - intros tampered Hsig Hcol. unfold CustomerApi.verifyQRSignature.
    rewrite Hsig, bool_decide_eq_true. split.
    + intros Heq.
      destruct (decide (stringify (JObj (without "signature" tampered))
        = stringify (JObj (CustomerApi.qr_data cid activeGrants generatedAt))))
        as [Htext|Hne].
      * apply stringify_inj in Htext. by injection Htext.
      * exfalso. apply Hcol. split; [congruence|done].
    + by intros ->.
  - intros tampered Hcontent. unfold CustomerApi.verifyQRSignature.
    rewrite Hcontent.
    destruct (member "signature" tampered) as [[| | |sig| |]|];
      split; try done.
    + intros ->%bool_decide_eq_true. done.
    + intros [= ->]. by apply bool_decide_eq_true.
Qed.
End QrFacts.

(** ** What a run leaves as it was *)

Section Stays.
Context {W St : Type} (R : relation (Sys W St)) `{!PreOrder R}.

Lemma stays_ret {A} (a : A) : stays R (ret a).
Proof. intros s. reflexivity. Qed.

Lemma stays_throw {A} e : stays R (@throw W St A e).
Proof. intros s. reflexivity. Qed.

Lemma stays_get_store : stays R get_store.
Proof. intros s. reflexivity. Qed.

Lemma stays_read_world {A} (f : W → A) : stays R (read_world f).
Proof. intros s. reflexivity. Qed.

Lemma stays_bind {A B} (m : Task W St A) (k : A → Task W St B) :
  stays R m → (∀ a, stays R (k a)) → stays R (m ≫= k).
Proof.
  intros Hm Hk s. unfold mbind, task_bind, bind.
  specialize (Hm s). destruct (m s) as [[e|a] s']; simpl in *; [done|].
  etrans; [exact Hm|]. apply Hk.
Qed.

Lemma stays_try_catch {A} (body : Task W St A) handler :
  stays R body → (∀ e, stays R (handler e)) →
  stays R (try_catch body handler).
Proof.
  intros Hm Hk s. unfold try_catch.
  specialize (Hm s). destruct (body s) as [[e|a] s']; simpl in *; [|done].
  etrans; [exact Hm|]. apply Hk.
Qed.

Lemma stays_step_world {A} (f : W → A * W) :
  (∀ s w, R s {| world := w; calls := calls s; store := store s |}) →
  stays R (step_world f).
Proof. intros HR s. unfold step_world. destruct (f (world s)). apply HR. Qed.

Lemma stays_await {A} (f : W → option A * W) :
  (∀ s w, R s {| world := w; calls := calls s; store := store s |}) →
  stays R (await f).
Proof. intros HR s. unfold await. destruct (f (world s)). apply HR. Qed.

Lemma stays_request {A} c (f : W → option A * W) :
  (∀ s w, R s {| world := w; calls := calls s ++ [c]; store := store s |}) →
  stays R (request c f).
Proof. intros HR s. unfold request. destruct (f (world s)). apply HR. Qed.

Lemma stays_modify_store f :
  (∀ s, R s {| world := world s; calls := calls s; store := f (store s) |}) →
  stays R (modify_store f).
Proof. intros HR s. apply HR. Qed.

Lemma dies_throw {A} e : dies R (@throw W St A e).
Proof. intros s. split; [by eexists|reflexivity]. Qed.

Lemma dies_bind_l {A B} (m : Task W St A) (k : A → Task W St B) :
  dies R m → dies R (m ≫= k).
Proof.
  intros Hm s. unfold mbind, task_bind, bind.
  destruct (Hm s) as [[e He] HR].
  destruct (m s) as [[e'|a] s']; simpl in *; [|done].
  split; [by eexists|done].
Qed.

Lemma dies_bind_r {A B} (m : Task W St A) (k : A → Task W St B) :
  stays R m → (∀ a, dies R (k a)) → dies R (m ≫= k).
Proof.
  intros Hm Hk s. unfold mbind, task_bind, bind.
  specialize (Hm s). destruct (m s) as [[e|a] s']; simpl in *.
  - split; [by eexists|done].
  - destruct (Hk a s') as [He HR]. split; [done|]. by etrans.
Qed.

(** A body that dies under [try ... catch] hands over to the handler. *)
Lemma dies_try_catch {A} (body : Task W St A) (a : A) s :
  dies R body →
  ∃ s', try_catch body (λ _, ret a) s = (inr a, s') ∧ R s s'.
Proof.
  intros Hm. unfold try_catch, ret.
  destruct (Hm s) as [[e He] HR].
  destruct (body s) as [[e'|a'] s']; simpl in *; [|done].
  by eexists.
Qed.
End Stays.

(** A step of a proof that a computation stays, by its shape. *)
Ltac stays_step :=
  lazy beta zeta;
  first
    [ apply stays_ret | apply stays_throw | apply stays_get_store
    | apply stays_read_world
    | apply stays_bind; [| |intros ?]
    | apply stays_try_catch; [| |intros ?]
    | apply stays_step_world; intros; simpl
    | apply stays_await; intros; simpl
    | apply stays_request; intros; simpl
    | apply stays_modify_store; intros; simpl
    | match goal with
      | |- stays _ (match ?x with _ => _ end) => destruct x
      end ];
  try apply _.

Ltac open_helpers :=
  unfold getAuthenticatedClient, getWalletAddressInfo, createIncomingPayment,
    createQuote, createOutgoingPayment, createOutgoingPaymentPendingGrant,
    access_token_value, PaymentServer.non_null, PaymentServer.set_token,
    PaymentServer.set_grants, PaymentServer.set_quoteCache,
    CustomerApi.set_grants, CustomerApi.set_customers, date_toISOString.

Global Instance only_calls_preorder {W St} P : PreOrder (@only_calls W St P).
Proof.
  split.
  - intros s. exists []. by rewrite app_nil_r.
  - intros s1 s2 s3 (m1 & H1 & HP1) (m2 & H2 & HP2). exists (m1 ++ m2).
    rewrite H2, H1, app_assoc. split; [done|]. by apply Forall_app.
Qed.

Lemma only_calls_here {W St} P (s : Sys W St) w st :
  only_calls P s {| world := w; calls := calls s; store := st |}.
Proof. exists []. by rewrite app_nil_r. Qed.

Lemma only_calls_one {W St} (P : Call → Prop) (s : Sys W St) w st c :
  P c → only_calls P s {| world := w; calls := calls s ++ [c]; store := st |}.
Proof. intros Hc. exists [c]. split; [done|]. by constructor. Qed.

Lemma only_calls_filter {W St} (f : Call → bool) (s s' : Sys W St) :
  only_calls (λ c, f c = false) s s' →
  filter (λ c, f c) (calls s') = filter (λ c, f c) (calls s).
Proof.
  intros (made & -> & Hmade). rewrite filter_app.
  assert (filter (λ c, f c) made = []) as ->; [|by rewrite app_nil_r].
  induction Hmade as [|c made Hc _ IH]; [done|].
  rewrite filter_cons_False; [done|]. rewrite Hc. intros [].
Qed.

Global Instance keeps_preorder {W St A} (f : St → A) :
  PreOrder (@keeps W St A f).
Proof.
  split; [intros s; reflexivity|].
  intros s1 s2 s3 H1 H2. unfold keeps in *. congruence.
Qed.

Global Instance preserves_preorder {W St} (I : St → Prop) :
  PreOrder (@preserves W St I).
Proof.
  split; [intros s Hs; exact Hs|].
  intros s1 s2 s3 H1 H2. unfold preserves in *. auto.
Qed.

(** Every step of the computation makes calls of the allowed kind only. *)
Ltac quiet :=
  repeat (open_helpers; stays_step);
  try (apply only_calls_here); try (apply only_calls_one; done).

(** Every step of the computation leaves the stores' reading as it is. *)
Ltac unchanged :=
  repeat (open_helpers; stays_step); try done;
  try (unfold preserves; simpl; intros ?; assumption).

(** All the runs of a handler, one by one. *)
Ltac run_handler :=
  open_helpers; task_unfold; unfold outgoing_payments;
  repeat (case_match; simplify_eq/=).

Lemma Forall_map_set {V} (P : string * V → Prop) k v m :
  Forall P m → P (k, v) → Forall P (map_set k v m).
Proof.
  intros Hm Hkv. induction Hm as [|[k' v'] m Hx Hm IH]; simpl.
  - by constructor.
  - case_decide; constructor; auto.
Qed.

(** ** The payment server *)

Section PaymentServerFacts.
Context {W : Type} `{Env W} `{Dates}.
Import PaymentServer.

Local Abbreviation client_obtained s :=
  ((createAuthenticatedClient (world s)).1 = Some ()).

Lemma approve_payment_consumes body (s s' : Sys W PaymentStore) out :
  approve_payment body s = (inr (Reply 200 out), s') →
  ∃ id, present (ap_clientSessionId body) = Some id
        ∧ quoteCache (store s') !! id = None.
Proof.
  unfold approve_payment.
  destruct (present (ap_clientSessionId body)) as [id|]; [|by run_handler].
  intros Hrun. exists id. split; [done|]. revert Hrun.
  run_handler; try done. intros [= <- <-]. simpl. apply lookup_delete_eq.
Qed.

Lemma approve_payment_no_session body (s : Sys W PaymentStore) id :
  present (ap_clientSessionId body) = Some id →
  quoteCache (store s) !! id = None →
  ∃ status error s',
    approve_payment body s = (inr (Fail status error), s')
    ∧ outgoing_payments s' = outgoing_payments s
    ∧ (is_Some (present (ap_senderWalletAddress body)) →
       is_Some (present (ap_continueAccessToken body)) →
       is_Some (present (ap_interactRef body)) →
       is_Some (present (ap_continueUri body)) →
       client_obtained s →
       status = 400 ∧ error = "No payment session found").
Proof.
  intros Hid Hnone. unfold approve_payment. rewrite Hid.
  run_handler; do 3 eexists; (split; [reflexivity|]); simpl;
    (split; [done|]); intros [? ?] [? ?] [? ?] [? ?] ?; simplify_eq/=; done.
Qed.

Lemma approve_payment_expired body (s : Sys W PaymentStore) id cached :
  present (ap_clientSessionId body) = Some id →
  quoteCache (store s) !! id = Some cached →
  grantExpiry cached < clock (createAuthenticatedClient (world s)).2 →
  ∃ status error s',
    approve_payment body s = (inr (Fail status error), s')
    ∧ outgoing_payments s' = outgoing_payments s
    ∧ (is_Some (present (ap_senderWalletAddress body)) →
       is_Some (present (ap_continueAccessToken body)) →
       is_Some (present (ap_interactRef body)) →
       is_Some (present (ap_continueUri body)) →
       client_obtained s →
       status = 400
       ∧ error = "Quote grant expired, please restart payment").
Proof.
  intros Hid Hsome Hexp. unfold approve_payment. rewrite Hid.
  run_handler; try done; do 3 eexists; (split; [reflexivity|]); simpl;
    (split; [done|]); intros [? ?] [? ?] [? ?] [? ?] ?; simplify_eq/=; done.
Qed.

(** A session that is not in the cache stays out of it until a request
    starts it. *)
Lemma handle_keeps_no_session id r (s : Sys W PaymentStore) :
  ¬ starts_session id r →
  quoteCache (store s) !! id = None →
  quoteCache (store (handle r s)) !! id = None.
Proof.
  intros Hr.
  assert (∀ A (t : Task W PaymentStore A),
            stays (preserves (λ st, quoteCache st !! id = None)) t →
            quoteCache (store s) !! id = None →
            quoteCache (store (t s).2) !! id = None) as Hdrop
    by (intros A t Ht; apply Ht).
  destruct r as [body|body|cid body|body|body|f made]; simpl;
    try apply Hdrop.
  - unfold start_payment_session.
    destruct (present (ss_clientSessionId body)) as [id'|] eqn:Hid;
      [|unchanged].
    assert (id' ≠ id) by (intros ->; by apply Hr).
    unchanged. unfold preserves. simpl. intros ?.
    by rewrite lookup_insert_ne.
  - unfold approve_payment. unchanged. unfold preserves. simpl. intros ?.
    match goal with
    | |- delete ?k _ !! _ = None =>
        destruct (decide (k = id)) as [->|?];
          [apply lookup_delete_eq|by rewrite lookup_delete_ne]
    end.
  - unfold authorize_vendor. unchanged.
  - unfold create_vendor_grant. unchanged.
  - unfold process_payment. unchanged.
  - done.
Qed.

Lemma run_keeps_no_session id rs (s : Sys W PaymentStore) :
  Forall (λ r, ¬ starts_session id r) rs →
  quoteCache (store s) !! id = None →
  quoteCache (store (run rs s)) !! id = None.
Proof.
  intros Hrs. revert s.
  induction Hrs as [|r rs Hr _ IH]; intros s Hs; [done|].
  simpl. apply IH. by apply handle_keeps_no_session.
Qed.

(** C4, for approvals that are handled one after the other.  After an
    approval that succeeded, and after any further requests none of
    which starts a session under the same id, an approval for that
    client session id fails and creates no outgoing payment; when its
    fields are all there and the client is obtained, the failure is
    400 "No payment session found".  An approval of a session whose
    expiry instant lies before the instant of the check fails and
    creates no outgoing payment; when its fields are all there and the
    client is obtained, the failure is 400 "Quote grant expired, please
    restart payment". *)
Theorem payment_session_single_use :
  (∀ body1 (s0 s1 : Sys W PaymentStore) out,
     approve_payment body1 s0 = (inr (Reply 200 out), s1) →
     ∀ id rs body2 (s2 : Sys W PaymentStore),
       present (ap_clientSessionId body1) = Some id →
       present (ap_clientSessionId body2) = Some id →
       Forall (λ r, ¬ starts_session id r) rs →
       quoteCache (store s2) = quoteCache (store (run rs s1)) →
       ∃ status error s3,
         approve_payment body2 s2 = (inr (Fail status error), s3)
         ∧ outgoing_payments s3 = outgoing_payments s2
         ∧ (is_Some (present (ap_senderWalletAddress body2)) →
            is_Some (present (ap_continueAccessToken body2)) →
            is_Some (present (ap_interactRef body2)) →
            is_Some (present (ap_continueUri body2)) →
            client_obtained s2 →
            status = 400 ∧ error = "No payment session found"))
  ∧ (∀ body (s : Sys W PaymentStore) id cached,
       present (ap_clientSessionId body) = Some id →
       quoteCache (store s) !! id = Some cached →
       grantExpiry cached < clock (createAuthenticatedClient (world s)).2 →
       ∃ status error s',
         approve_payment body s = (inr (Fail status error), s')
         ∧ outgoing_payments s' = outgoing_payments s
         ∧ (is_Some (present (ap_senderWalletAddress body)) →
            is_Some (present (ap_continueAccessToken body)) →
            is_Some (present (ap_interactRef body)) →
            is_Some (present (ap_continueUri body)) →
            client_obtained s →
            status = 400
            ∧ error = "Quote grant expired, please restart payment")).
Proof.
  split.
  - intros body1 s0 s1 out Hfirst id rs body2 s2 Hid1 Hid2 Hrs Hcache.
    apply approve_payment_consumes in Hfirst as (id' & Hpresent & Hgone).
    assert (id' = id) as -> by congruence.
    apply (approve_payment_no_session body2 s2 id); [done|].
    rewrite Hcache. by apply run_keeps_no_session.
  - apply approve_payment_expired.
Qed.

(** C10.  A process-payment request that carries the receiver's
    wallet address, the continuation token and URI and a spend amount,
    but no customer wallet address, passes the validation and ends in
    the catch branch: the answer is 500 "Failed to process payment",
    and no outgoing payment has been created. *)
Theorem process_payment_without_customer_wallet
    (body : ProcessPaymentBody) (s : Sys W PaymentStore) :
  pp_customerWalletAddress body = None →
  is_Some (present (pp_receiverWalletAddress body)) →
  is_Some (present (pp_continueAccessToken body)) →
  is_Some (present (pp_continueUri body)) →
  is_Some (nonzero (pp_spendAmount body)) →
  ∃ s', process_payment body s
        = (inr (Fail 500 "Failed to process payment"), s')
        ∧ outgoing_payments s' = outgoing_payments s.
Proof.
  intros Hc [receiver Hr] [token Ht] [uri Hu] [amount Ha].
  unfold process_payment. rewrite Hr, Ht, Hu, Ha, Hc. simpl.
  match goal with
  | |- context [try_catch ?b _] =>
      assert (dies (@only_calls W PaymentStore
                      (λ c, isOutgoingPaymentCreate c = false)) b) as Hdies
  end.
  { do 7 (first
             [ match goal with
               | |- dies ?R (ret ?a ≫= ?k) => change (dies R (k a))
               end
             | apply dies_bind_r; try apply _; [by quiet|intros ?] ];
           lazy beta zeta;
           try match goal with
               | |- dies _ (let '(_, _) := ?x in _) => destruct x
               end).
    apply dies_bind_l; try apply _. apply dies_throw. apply _. }
  eapply dies_try_catch in Hdies as (s' & Hrun & Hcalls); try apply _.
  exists s'. split; [exact Hrun|]. by apply only_calls_filter.
Qed.

Lemma process_payment_keeps_grants body :
  stays (keeps grants) (process_payment body : Task W PaymentStore _).
Proof. unfold process_payment. unchanged. Qed.

Lemma handle_never_debited r :
  stays (preserves (λ st, never_debited (grants st)))
    (λ s : Sys W PaymentStore, (inr (), handle r s)).
Proof.
  assert (∀ A (t : Task W PaymentStore A),
            stays (preserves (λ st, never_debited (grants st))) t →
            stays (preserves (λ st, never_debited (grants st)))
              (λ s, (inr (), (t s).2))) as Hdrop by done.
  destruct r as [body|body|cid body|body|body|f made]; simpl; try apply Hdrop.
  - unfold start_payment_session. unchanged.
  - unfold approve_payment. unchanged.
  - unfold authorize_vendor. unchanged.
    intros ?. by apply Forall_map_set.
  - unfold create_vendor_grant. unchanged.
  - unfold process_payment. unchanged.
  - intros s Hs. exact Hs.
Qed.

Lemma run_never_debited rs (s : Sys W PaymentStore) :
  never_debited (grants (store s)) →
  never_debited (grants (store (run rs s))).
Proof.
  revert s. induction rs as [|r rs IH]; intros s Hinv; [done|].
  simpl. apply IH. by apply (handle_never_debited r s).
Qed.
End PaymentServerFacts.

(** ** The customer API: the ledger and the QR route *)

Section CustomerApiFacts.
Context {W : Type} `{Env W} `{Dates} `{Crypto}.
Variable QR_SIGNING_SECRET : option string.
Variable BASE_URL : string.
Variable toDataURL : string → option string.
Import CustomerApi.

Lemma grants_callback_ledger_ok query :
  stays (preserves (λ st, ledger_ok (grants st)))
    (grants_callback query : Task W Store _).
Proof.
  intros s Hok. unfold grants_callback, set_grants. task_unfold.
  repeat (case_match; simplify_eq/=); try done.
  match goal with
  | Hfind : list_find _ _ = Some _ |- _ =>
      apply list_find_Some in Hfind as (Hi & _ & _)
  end.
  apply Forall_map_set; [apply Forall_insert; [done|]|];
    by eapply (Forall_lookup_1 _ _ _ _ Hok) in Hi.
Qed.

Lemma handle_ledger_ok r :
  stays (preserves (λ st, ledger_ok (grants st)))
    (λ s : Sys W Store,
       (inr (), handle QR_SIGNING_SECRET BASE_URL toDataURL r s)).
Proof.
  assert (∀ A (t : Task W Store A),
            stays (preserves (λ st, ledger_ok (grants st))) t →
            stays (preserves (λ st, ledger_ok (grants st)))
              (λ s, (inr (), (t s).2))) as Hdrop by done.
  destruct r as [body|cid body|query|cid|qrData|f made]; simpl;
    try apply Hdrop.
  - unfold create_customer. unchanged.
  - unfold create_grant. unchanged.
    intros ?. apply Forall_map_set; [done|]. simpl. split; [done|lia].
  - apply grants_callback_ledger_ok.
  - unfold qr_code. unchanged.
  - unfold qr_verify. unchanged.
  - intros s Hs. exact Hs.
Qed.

Lemma run_ledger_ok rs (s : Sys W Store) :
  ledger_ok (grants (store s)) →
  ledger_ok (grants (store (run QR_SIGNING_SECRET BASE_URL toDataURL rs s))).
Proof.
  revert s. induction rs as [|r rs IH]; intros s Hinv; [done|].
  simpl. apply IH. by apply (handle_ledger_ok r s).
Qed.

(** The grants route refuses a vendor for whom the customer holds an
    active grant, and leaves the ledger as it is. *)
Lemma create_grant_rejects_duplicate cid body vid g (s : Sys W Store) :
  gb_vendorId body = Some vid →
  g ∈ map_values (grants (store s)) →
  is_active_for cid vid g →
  ∃ status error s',
    create_grant BASE_URL cid body s = (inr (Fail status error), s')
    ∧ grants (store s') = grants (store s).
Proof.
  intros Hvid Hg Hactive. unfold create_grant. rewrite Hvid.
  task_unfold. simpl.
  destruct (customers (store s) !! cid) as [customer|]; [|by do 3 eexists].
  destruct (vendors (store s) !! vid) as [vendor|]; simpl;
    [|by do 3 eexists].
  destruct (nonzero (gb_dailyLimit body)) as [limit|]; [|by do 3 eexists].
  destruct (decide (limit ≤ 0)); [by do 3 eexists|].
  destruct (list_find _ _) as [[i g']|] eqn:Hfind; [by do 3 eexists|].
  exfalso. eapply list_find_None, Forall_forall in Hfind; [|exact Hg].
  done.
Qed.

(** C8, as the code has it.  When the QR route answers with a bundle,
    the bundle lists the summaries of exactly those grants of the
    ledger that belong to the customer, are active, expire after the
    instant of the request and have an interaction reference; they
    stand in the order of the ledger, which is the order in which the
    grants were created, and the picture encodes the text of the signed
    bundle. *)
Theorem qr_bundle_lists_eligible_grants_in_ledger_order
    cid (s s' : Sys W Store) res :
  qr_code QR_SIGNING_SECRET toDataURL cid s = (inr (Reply 200 res), s') →
  let now := clock (world s) in
  let listed :=
    filter (λ g, qr_eligible cid now g) (map_values (grants (store s))) in
  qr_grants res = Some (JArr (grant_summary <$> listed))
  ∧ toDataURL
      (stringify
         (JObj (qr_bundle QR_SIGNING_SECRET cid listed (toISOString now))))
    = Some (qrCode res)
  ∧ listed `sublist_of` map_values (grants (store s))
  ∧ ∀ g, g ∈ listed
         ↔ g ∈ map_values (grants (store s))
           ∧ customerId g = cid
           ∧ status g = "active"
           ∧ (∃ t, parseDate (expiresAt g) = Some t ∧ now < t)
           ∧ is_Some (present (interactRef (grantData g))).
Proof.
  intros Hrun now listed. revert Hrun. unfold qr_code. task_unfold.
  repeat (case_match; simplify_eq/=); try done. intros [= <- <-]. simpl.
  split; [done|]. split; [done|]. split; [apply sublist_filter|].
  intros g. subst listed. rewrite list_elem_of_filter. unfold qr_eligible.
  rewrite !andb_True, !bool_decide_spec.
  destruct (parseDate (expiresAt g)) as [t|].
  - rewrite bool_decide_spec. split.
    + intros [[[[? ?] ?] ?] ?]. eauto 10.
    + intros (? & ? & ? & (t' & [= <-] & ?) & ?). done.
  - split.
    + intros [[[_ []] _] _].
    + intros (_ & _ & _ & (t' & [=] & _) & _).
Qed.
End CustomerApiFacts.

(** ** Requests in flight

    Served alone, a handler that was cut at an await is the handler. *)

Section InFlightFacts.
Context {W St : Type}.

Lemma alone_try_bind {X A} (m : Task W St X)
    (k1 : X → Task W St (A + Task W St A)) (k2 : X → Task W St A)
    (F : A) s :
  (∀ x s', alone (try_catch (k1 x) (λ _, ret (inl F))) s'
           = try_catch (k2 x) (λ _, ret F) s') →
  alone (try_catch (m ≫= k1) (λ _, ret (inl F))) s
  = try_catch (m ≫= k2) (λ _, ret F) s.
Proof.
  intros Hk. unfold alone, try_catch, mbind, task_bind, bind in *.
  destruct (m s) as [[e|x] s']; [done|]. apply Hk.
Qed.

Lemma alone_try_answer {A} (m : Task W St A) (F : A) s :
  alone (try_catch (a ← m; ret (inl a)) (λ _, ret (inl F))) s
  = try_catch m (λ _, ret F) s.
Proof.
  unfold alone, try_catch, mbind, task_bind, bind.
  by destruct (m s) as [[e|x] s'].
Qed.
End InFlightFacts.

Section PaymentServerInFlight.
Context {W : Type} `{Env W} `{Dates}.
Import PaymentServer.

Lemma approve_payment_alone body (s : Sys W PaymentStore) :
  alone (approve_payment_in_flight body) s = approve_payment body s.
Proof.
  unfold alone, resume, approve_payment_in_flight, approve_payment.
  run_handler; done.
Qed.

(** With a token in the slot, the payment part pays with it. *)
Lemma process_payment_pay_slot amount receiver customer token
    (s : Sys W PaymentStore) :
  outgoingpaymentgrantaccessToken (store s) = Some token →
  process_payment_pay amount receiver customer s
  = (incomingPayment ←
       createIncomingPayment (number_to_string (amount * 100)) receiver;
     let walletForQuote := default receiver customer in
     quote ← createQuote (ip_id incomingPayment) walletForQuote;
     customer ← non_null customer;
     let args :=
       {| opa_walletAddress := wa_id customer;
          opa_quoteId := None;
          opa_incomingPayment := Some (ip_id incomingPayment);
          opa_debitAmount :=
            Some {| assetCode := wa_assetCode customer;
                    assetScale := wa_assetScale customer;
                    value := number_to_string (amount * 100) |};
          opa_description := None |} in
     outgoingPayment ←
       request
         (OutgoingPaymentCreate (wa_resourceServer customer) token args)
         (outgoingPayment_create (wa_resourceServer customer) token args);
     ret (Reply 201
            {| ppr_incomingPayment := incomingPayment;
               ppr_quote := quote;
               ppr_outgoingPayment := outgoingPayment;
               ppr_newAccessToken := token |})) s.
Proof.
  intros Hslot. destruct s as [w c [q cu v g slot]]. simpl in Hslot.
  subst slot. unfold process_payment_pay, slot_value.
  open_helpers. task_unfold.
  repeat (case_match; simplify_eq/=); done.
Qed.

Lemma process_payment_alone body (s : Sys W PaymentStore) :
  alone (process_payment_in_flight body) s = process_payment body s.
Proof.
  unfold process_payment_in_flight, process_payment.
  destruct (present (pp_receiverWalletAddress body)); [|done].
  destruct (present (pp_continueAccessToken body)); [|done].
  destruct (present (pp_continueUri body)); [|done].
  destruct (nonzero (pp_spendAmount body)); [|done].
  apply alone_try_bind; intros [] sa.
  apply alone_try_bind; intros [? receiver] sb.
  apply alone_try_bind; intros customer sc.
  change (alone (try_catch (get_store ≫= ?k) ?h) sc)
    with (alone (try_catch (k (store sc)) h) sc).
  change (try_catch (get_store ≫= ?k) ?h sc)
    with (try_catch (k (store sc)) h sc).
  lazy beta.
  destruct (outgoingpaymentgrantaccessToken (store sc)) as [t|] eqn:Hslot;
    [destruct (decide (t = "")) as [->|Ht]|]; unfold present;
    rewrite ?decide_True, ?decide_False by done.
  - unfold alone, resume, process_payment_continue, try_catch, set_token.
    task_unfold. simpl.
    destruct (grant_continue _ _ _ _) as [[[token manage|]|] w4]; try done.
    simpl. by erewrite process_payment_pay_slot by done.
  - rewrite alone_try_answer. unfold try_catch.
    by erewrite process_payment_pay_slot by done.
  - unfold alone, resume, process_payment_continue, try_catch, set_token.
    task_unfold. simpl.
    destruct (grant_continue _ _ _ _) as [[[token manage|]|] w4]; try done.
    simpl. by erewrite process_payment_pay_slot by done.
Qed.
End PaymentServerInFlight.

Section CustomerApiInFlight.
Context {W : Type} `{Env W} `{Dates} `{Crypto}.
Variable BASE_URL : string.
Import CustomerApi.

Lemma create_grant_alone cid body (s : Sys W Store) :
  alone (create_grant_in_flight BASE_URL cid body) s
  = create_grant BASE_URL cid body s.
Proof.
  unfold create_grant_in_flight, create_grant.
  lazy zeta.
  change (alone (try_catch (get_store ≫= ?k) ?h) s)
    with (alone (try_catch (k (store s)) h) s).
  change (try_catch (get_store ≫= ?k) ?h s)
    with (try_catch (k (store s)) h s).
  lazy beta.
  destruct (customers (store s) !! cid) as [customer|]; [|done].
  destruct (gb_vendorId body ≫= _) as [[vid vendor]|]; [|done].
  destruct (nonzero (gb_dailyLimit body)) as [limit|]; [|done].
  destruct (decide (limit ≤ 0)); [done|].
  destruct (list_find _ _) as [?|]; [done|].
  reflexivity.
Qed.
End CustomerApiInFlight.

(** ** The daily-limit ledger *)

Section LedgerBlind.
Context {W : Type} `{Env W} `{Dates}.
Import PaymentServer.

Local Abbreviation Task := (Task W PaymentStore).

Lemma blind_ret {A} (a : A) : ledger_blind (ret a : Task A).
Proof. done. Qed.

Lemma blind_throw {A} e : ledger_blind (throw e : Task A).
Proof. done. Qed.

Lemma blind_bind {A B} (m : Task A) (k : A → Task B) :
  ledger_blind m → (∀ a, ledger_blind (k a)) → ledger_blind (m ≫= k).
Proof.
  intros Hm Hk ledger s. unfold mbind, task_bind, bind. rewrite Hm.
  destruct (m s) as [[e|a] s']; simpl; [done|]. apply Hk.
Qed.

Lemma blind_try_catch {A} (body : Task A) (handler : Exn → Task A) :
  ledger_blind body → (∀ e, ledger_blind (handler e)) →
  ledger_blind (try_catch body handler).
Proof.
  intros Hm Hk ledger s. unfold try_catch. rewrite Hm.
  destruct (body s) as [[e|a] s']; simpl; [apply Hk|done].
Qed.

Lemma blind_read_world {A} (f : W → A) :
  ledger_blind (read_world f : Task A).
Proof. done. Qed.

Lemma blind_step_world {A} (f : W → A * W) :
  ledger_blind (step_world f : Task A).
Proof.
  intros ledger s. unfold step_world. simpl. by destruct (f (world s)).
Qed.

Lemma blind_await {A} (f : W → option A * W) :
  ledger_blind (await f : Task A).
Proof. intros ledger s. unfold await. simpl. by destruct (f (world s)). Qed.

Lemma blind_request {A} c (f : W → option A * W) :
  ledger_blind (request c f : Task A).
Proof.
  intros ledger s. unfold request. simpl. by destruct (f (world s)).
Qed.

Lemma blind_set_token t : ledger_blind (set_token t : Task unit).
Proof. done. Qed.

(** A reading of the stores that looks at the token slot alone. *)
Lemma blind_get_token {B} (k : PaymentStore → Task B) :
  (∀ st st', outgoingpaymentgrantaccessToken st
             = outgoingpaymentgrantaccessToken st' → k st = k st') →
  (∀ st, ledger_blind (k st)) →
  ledger_blind (get_store ≫= k).
Proof.
  intros Hslot Hk ledger s.
  change ((get_store ≫= k) (with_ledger ledger s))
    with (k (store (with_ledger ledger s)) (with_ledger ledger s)).
  change ((get_store ≫= k) s) with (k (store s) s).
  rewrite (Hslot _ (store s)) by done. apply Hk.
Qed.

Lemma process_payment_ledger_blind body :
  ledger_blind (process_payment body : Task _).
Proof.
  unfold process_payment.
  repeat (unfold getAuthenticatedClient, getWalletAddressInfo,
            createIncomingPayment, createQuote, access_token_value, non_null;
          lazy beta zeta;
          first
            [ apply blind_ret | apply blind_throw | apply blind_read_world
            | apply blind_step_world | apply blind_await
            | apply blind_request | apply blind_set_token
            | apply blind_get_token;
                [intros ? ? Heq; by rewrite Heq|intros ?]
            | apply blind_bind; [|intros ?]
            | apply blind_try_catch; [|intros ?]
            | match goal with
              | |- ledger_blind (match ?x with _ => _ end) => destruct x
              end ]).
Qed.
End LedgerBlind.

(** C1, as the code has it.  No request ever debits a grant: in every
    state either server reaches, [spentToday] of every grant is the 0
    it was created with.  Process-payment neither writes the ledger nor
    reads it: it leaves the ledger as it is, and with any other ledger
    in place it runs the same, to the same answer, the same calls and
    the same other stores; so no payment is refused for a daily limit
    and none is booked.  The customer API creates grants with a
    positive daily limit only, so there [spentToday] never exceeds
    [dailyLimit]. *)
Theorem spentToday_never_debited {W : Type} `{Env W} `{Dates} `{Crypto}
    (QR_SIGNING_SECRET : option string) (BASE_URL : string)
    (toDataURL : string → option string) :
  (∀ rs w g,
     g ∈ map_values
           (PaymentServer.grants
              (store (PaymentServer.run rs (PaymentServer.initial w)))) →
     spentToday g = 0)
  ∧ (∀ body (s : Sys W PaymentServer.PaymentStore),
       PaymentServer.grants (store (PaymentServer.process_payment body s).2)
       = PaymentServer.grants (store s))
  ∧ (∀ body (s : Sys W PaymentServer.PaymentStore) ledger,
       PaymentServer.process_payment body (with_ledger ledger s)
       = ((PaymentServer.process_payment body s).1,
          with_ledger ledger (PaymentServer.process_payment body s).2))
  ∧ (∀ rs w g,
       g ∈ map_values
             (CustomerApi.grants
                (store (CustomerApi.run QR_SIGNING_SECRET BASE_URL toDataURL
                          rs (CustomerApi.initial w)))) →
       spentToday g = 0 ∧ spentToday g ≤ dailyLimit g).
Proof.
  split; [|split; [|split]].
  - intros rs w g Hg.
    pose proof (run_never_debited rs (PaymentServer.initial w)
                  (Forall_nil_2 _)) as Hinv.
    apply list_elem_of_fmap in Hg as (kv & -> & Hkv).
    eapply Forall_forall in Hinv; [|exact Hkv]. done.
  - intros body s. apply (process_payment_keeps_grants body s).
  - intros body s ledger. apply process_payment_ledger_blind.
  - intros rs w g Hg.
    pose proof (run_ledger_ok QR_SIGNING_SECRET BASE_URL toDataURL rs
                  (CustomerApi.initial w) (Forall_nil_2 _)) as Hinv.
    apply list_elem_of_fmap in Hg as (kv & -> & Hkv).
    eapply Forall_forall in Hinv; [|exact Hkv].
    destruct Hinv as [Hzero Hlimit]. split; [done|]. rewrite Hzero. lia.
Qed.

(** * Further properties

    The other routes and helpers of the sources: what they leave
    behind, how they compose and what they never do.

    ** [Map] as a list of entries *)

Lemma map_get_Some {V} k (v : V) m :
  map_get k m = Some v → (k, v) ∈ m.
Proof.
  induction m as [|[k' v'] m IH]; simpl; [done|].
  case_decide as Hk.
  - intros [= ->]. subst. apply list_elem_of_here.
  - intros Hget. apply list_elem_of_further. by apply IH.
Qed.

Lemma map_get_set {V} k (v : V) m : map_get k (map_set k v m) = Some v.
Proof.
  induction m as [|[k' v'] m IH]; simpl.
  - by rewrite decide_True.
  - case_decide as Hk; simpl.
    + by rewrite decide_True.
    + by rewrite decide_False.
Qed.

Lemma map_get_set_ne {V} k k' (v : V) m :
  k' ≠ k → map_get k' (map_set k v m) = map_get k' m.
Proof.
  intros Hne. induction m as [|[k0 v0] m IH]; simpl.
  - by rewrite decide_False.
  - case_decide as Hk; simpl.
    + subst. by rewrite !decide_False.
    + case_decide; [done|]. exact IH.
Qed.

(** [set] writes over the entry of the key, or adds one at the end. *)
Lemma map_set_spec {V} k (v : V) m :
  (∃ i v0, m !! i = Some (k, v0) ∧ map_set k v m = <[i := (k, v)]> m)
  ∨ ((k ∉ m.*1) ∧ map_set k v m = m ++ [(k, v)]).
Proof.
  induction m as [|[k' v'] m IH]; simpl.
  - right. split; [apply not_elem_of_nil|done].
  - case_decide as Hk.
    + subst. left. exists 0%nat, v'. done.
    + destruct IH as [(i & v0 & Hi & ->)|[Hnotin ->]].
      * left. exists (S i), v0. done.
      * right. split; [|done]. rewrite not_elem_of_cons. by split.
Qed.

Lemma map_set_others {V} k (v : V) m k' v' :
  (k', v') ∈ m → k' ≠ k → (k', v') ∈ map_set k v m.
Proof.
  intros Hin Hne. induction m as [|[k0 v0] m IH]; simpl.
  - by apply elem_of_nil in Hin.
  - apply elem_of_cons in Hin as [[= <- <-]|Hin].
    + rewrite decide_False by done. apply list_elem_of_here.
    + case_decide; apply list_elem_of_further; [done|by apply IH].
Qed.

Lemma NoDup_insert {A} (l : list A) i x :
  NoDup l → x ∉ l → NoDup (<[i := x]> l).
Proof.
  intros Hl. revert i. induction Hl as [|y l Hy Hl IH]; intros i Hx; simpl.
  - constructor.
  - apply not_elem_of_cons in Hx as [Hxy Hx]. destruct i as [|i]; simpl.
    + by constructor.
    + constructor; [|by apply IH].
      intros Hin. apply list_elem_of_lookup in Hin as [j Hj].
      destruct (decide (i = j)) as [->|Hij].
      * apply list_lookup_insert_Some in Hj as [(_ & ? & _)|[? _]]; done.
      * rewrite list_lookup_insert_ne in Hj by done.
        apply Hy. by eapply list_elem_of_lookup_2.
Qed.

Lemma NoDup_snoc {A} (l : list A) x : NoDup l → x ∉ l → NoDup (l ++ [x]).
Proof.
  intros Hl Hx. apply NoDup_app. split; [done|]. split.
  - intros y Hy ->%list_elem_of_singleton. done.
  - apply NoDup_singleton.
Qed.

(** ** Runs under a guard *)

Global Instance guarded_preorder {W St} (I : St → Prop)
    (R : relation (Sys W St)) `{!PreOrder R} : PreOrder (guarded I R).
Proof.
  split.
  - intros s Hs. split; [done|reflexivity].
  - intros s1 s2 s3 H12 H23 H1. destruct (H12 H1) as [H2 HR12].
    destruct (H23 H2) as [H3 HR23]. split; [done|]. by etrans.
Qed.

Lemma stays_bind_get_store {W St A} (R : relation (Sys W St))
    (k : St → Task W St A) :
  (∀ s, R s (k (store s) s).2) → stays R (get_store ≫= k).
Proof. intros Hk s. apply Hk. Qed.

Lemma stays_bind_ret {W St A B} (R : relation (Sys W St)) (a : A)
    (k : A → Task W St B) :
  stays R (k a) → stays R (ret a ≫= k).
Proof. intros Hk s. apply Hk. Qed.

(** A step that leaves the stores alone, under a guard. *)
Ltac guarded_leaf :=
  let Hguard := fresh in
  intros Hguard; simpl; (split; [exact Hguard|]);
  first [ apply only_calls_here | apply only_calls_one; by split ].

(** A run that keeps the stores and makes calls of one kind is what
    [Elsewhere] stands for. *)
Lemma elsewhere_intro {W St} (s s' : Sys W St) (P : Call → Prop) :
  keeps id s s' → only_calls P s s' →
  ∃ made, Forall P made
          ∧ s' = {| world := world s'; calls := calls s ++ made;
                    store := store s |}.
Proof.
  unfold keeps. simpl. intros Hstore (made & Hcalls & Hmade).
  exists made. split; [done|]. destruct s'; simpl in *. by subst.
Qed.

(** ** [open-payments.ts]: payment pointers *)

Lemma payment_pointer_url_other c rest :
  c ≠ "$"%char → payment_pointer_url (String c rest) = String c rest.
Proof.
  intros Hc. destruct c as [[] [] [] [] [] [] [] []]; try done.
Qed.

Lemma payment_pointer_url_idemp w :
  payment_pointer_url (payment_pointer_url w) = payment_pointer_url w.
Proof.
  destruct w as [|c rest]; [done|].
  destruct (decide (c = "$"%char)) as [->|Hc]; [done|].
  by rewrite !payment_pointer_url_other.
Qed.

Section OpenPaymentsMore.
Context {W St : Type} `{Env W}.

(** X1.  [getWalletAddressInfo] reads a payment pointer as its URL: a
    leading [$] is replaced by [https://] and any other address is
    kept, so the address looked up never starts with [$], looking up
    the URL form gives the same run, and the address that is returned
    is the one that was looked up. *)
Theorem payment_pointer_is_read_as_its_url walletAddress (s : Sys W St) :
  let url := payment_pointer_url walletAddress in
  (∀ rest, walletAddress = String "$"%char rest → url = "https://" +:+ rest)
  ∧ ((∀ rest, walletAddress ≠ String "$"%char rest) → url = walletAddress)
  ∧ (∀ rest, url ≠ String "$"%char rest)
  ∧ getWalletAddressInfo url s = getWalletAddressInfo walletAddress s
  ∧ calls (getWalletAddressInfo walletAddress s).2
    = calls s ++ [WalletAddressGet url]
  ∧ ∀ walletAddress' details,
      (getWalletAddressInfo walletAddress s).1
      = inr (walletAddress', details) →
      walletAddress' = url.
Proof.
  intros url. subst url. split; [|split; [|split; [|split; [|split]]]].
  - by intros rest ->.
  - intros Hother. destruct walletAddress as [|c rest]; [done|].
    apply payment_pointer_url_other. intros ->. by eapply Hother.
  - intros rest. destruct walletAddress as [|c rest']; [done|].
    destruct (decide (c = "$"%char)) as [->|Hc]; [done|].
    rewrite payment_pointer_url_other by done. by intros [= -> _].
  - unfold getWalletAddressInfo. by rewrite payment_pointer_url_idemp.
  - unfold getWalletAddressInfo. task_unfold.
    by destruct (walletAddress_get _ _) as [[?|] ?].
  - intros walletAddress' details. unfold getWalletAddressInfo. task_unfold.
    destruct (walletAddress_get _ _) as [[?|] ?]; simpl; [|done].
    by intros [= <- _].
Qed.
End OpenPaymentsMore.

(** ** The payment server: what a request leaves behind *)

Section PaymentServerMore.
Context {W : Type} `{Env W} `{Dates}.
Import PaymentServer.

Lemma without_client {A} (k : unit → Task W PaymentStore (Response A))
    status error (s : Sys W PaymentStore) :
  (createAuthenticatedClient (world s)).1 = None →
  ∃ w, try_catch (getAuthenticatedClient ≫= k) (λ _, ret (Fail status error)) s
       = (inr (Fail status error),
          {| world := w; calls := calls s; store := store s |}).
Proof.
  intros Hnone. unfold getAuthenticatedClient. task_unfold.
  destruct (createAuthenticatedClient (world s)) as [[[]|] w]; [done|].
  by eexists.
Qed.

(** The run fails before any call when no client is obtained. *)
Ltac refuse :=
  match goal with
  | Hnone : (createAuthenticatedClient (world ?s)).1 = None
    |- refused ?s (try_catch (getAuthenticatedClient ≫= ?k)
                     (λ _, ret (Fail ?status ?error)) ?s) =>
      destruct (without_client k status error s Hnone) as [? ->];
      split; [by do 2 eexists|done]
  | |- refused ?s (ret (Fail ?status ?error) ?s) =>
      split; [by do 2 eexists|done]
  end.

(** X2.  When the authenticated client cannot be obtained, every route
    that needs it answers with a failure, makes no call to the payment
    network and leaves the stores as they were. *)
Theorem no_call_without_client (s : Sys W PaymentStore) :
  (createAuthenticatedClient (world s)).1 = None →
  (∀ body, refused s (start_payment_session body s))
  ∧ (∀ body, refused s (approve_payment body s))
  ∧ (∀ cid body, refused s (authorize_vendor cid body s))
  ∧ (∀ body, refused s (create_vendor_grant body s))
  ∧ (∀ body, refused s (process_payment body s))
  ∧ (∀ body, refused s (create_incoming_payment body s))
  ∧ (∀ body, refused s (create_quote body s))
  ∧ (∀ body, refused s (outgoing_payment_auth body s)).
Proof.
  intros Hnone.
  repeat match goal with |- _ ∧ _ => split end; intros;
    unfold start_payment_session, approve_payment, authorize_vendor,
      create_vendor_grant, process_payment, create_incoming_payment,
      create_quote, outgoing_payment_auth;
    repeat first
      [ refuse
      | match goal with
        | |- refused ?s ((get_store ≫= ?k) ?s) =>
            change (refused s (k (store s) s)); lazy beta
        end
      | case_match ].
Qed.

Lemma create_vendor_grant_keeps_store body :
  stays (keeps id) (create_vendor_grant body : Task W PaymentStore _).
Proof. unfold create_vendor_grant. unchanged. Qed.

Lemma process_payment_keeps {A} (f : PaymentStore → A) body :
  (∀ st t, f {| quoteCache := quoteCache st; customers := customers st;
                vendors := vendors st; grants := grants st;
                outgoingpaymentgrantaccessToken := Some t |} = f st) →
  stays (keeps f) (process_payment body : Task W PaymentStore _).
Proof. intros Hf. unfold process_payment. unchanged. apply Hf. Qed.

(** X3.  The stores change only with a success: start-payment-session,
    approve-payment and authorize-vendor leave every store as it was
    unless they answer with a success, so a session outlives a failed
    or late approval; create-vendor-grant never changes a store, and
    process-payment changes none but the token slot. *)
Theorem failed_request_keeps_stores (s : Sys W PaymentStore) :
  (∀ body, answered_ok (start_payment_session body s).1
           ∨ store (start_payment_session body s).2 = store s)
  ∧ (∀ body, answered_ok (approve_payment body s).1
             ∨ store (approve_payment body s).2 = store s)
  ∧ (∀ cid body, answered_ok (authorize_vendor cid body s).1
                 ∨ store (authorize_vendor cid body s).2 = store s)
  ∧ (∀ body, store (create_vendor_grant body s).2 = store s)
  ∧ (∀ body,
       let s' := (process_payment body s).2 in
       quoteCache (store s') = quoteCache (store s)
       ∧ customers (store s') = customers (store s)
       ∧ vendors (store s') = vendors (store s)
       ∧ grants (store s') = grants (store s)).
Proof.
  split; [|split; [|split; [|split]]].
  - intros body. unfold start_payment_session. run_handler; auto.
  - intros body. unfold approve_payment. run_handler; auto.
  - intros cid body. unfold authorize_vendor. run_handler; auto.
  - intros body. apply (create_vendor_grant_keeps_store body s).
  - intros body s'. subst s'. repeat split.
    + by apply (process_payment_keeps quoteCache body).
    + by apply (process_payment_keeps customers body).
    + by apply (process_payment_keeps vendors body).
    + by apply (process_payment_keeps grants body).
Qed.

Lemma start_payment_session_stores body (s s' : Sys W PaymentStore) res :
  start_payment_session body s = (inr (Reply 200 res), s') →
  ∃ id url token walletAddress,
    present (ss_clientSessionId body) = Some id
    ∧ quoteCache (store s')
      = <[id := {| quote := ssr_quote res;
                   grantExpiry := clock (world s') + 3 * 60 * 1000;
                   incomingPaymentUrl := ssr_incomingPaymentUrl res |}]>
          (quoteCache (store s))
    ∧ ssr_grantExpiry res = toISOString (clock (world s') + 3 * 60 * 1000)
    ∧ last (calls s')
      = Some (QuoteCreate url token walletAddress (ssr_incomingPaymentUrl res)).
Proof.
  unfold start_payment_session.
  destruct (present (ss_clientSessionId body)) as [id|]; [|by run_handler].
  intros Hrun. exists id. revert Hrun.
  run_handler; try done; intros [= <- <-]; simpl; do 3 eexists;
    rewrite last_snoc; done.
Qed.

Lemma approve_payment_pays body (s s' : Sys W PaymentStore) out :
  approve_payment body s = (inr (Reply 200 out), s') →
  ∃ id cached sender token uri ref url token',
    present (ap_clientSessionId body) = Some id
    ∧ present (ap_senderWalletAddress body) = Some sender
    ∧ present (ap_continueAccessToken body) = Some token
    ∧ present (ap_continueUri body) = Some uri
    ∧ present (ap_interactRef body) = Some ref
    ∧ quoteCache (store s) !! id = Some cached
    ∧ clock (createAuthenticatedClient (world s)).2 ≤ grantExpiry cached
    ∧ calls s'
      = calls s ++
        [WalletAddressGet (payment_pointer_url sender);
         GrantContinue token uri (Some ref);
         OutgoingPaymentCreate url token'
           {| opa_walletAddress := payment_pointer_url sender;
              opa_quoteId := Some (quote_id (quote cached));
              opa_incomingPayment := None;
              opa_debitAmount := None;
              opa_description := None |}]
    ∧ quoteCache (store s') = delete id (quoteCache (store s)).
Proof.
  unfold approve_payment.
  destruct (present (ap_clientSessionId body)) as [id|]; [|by run_handler].
  destruct (present (ap_senderWalletAddress body)) as [sender|];
    [|by run_handler].
  destruct (present (ap_continueAccessToken body)) as [token|];
    [|by run_handler].
  destruct (present (ap_interactRef body)) as [ref|]; [|by run_handler].
  destruct (present (ap_continueUri body)) as [uri|]; [|by run_handler].
  intros Hrun. exists id. revert Hrun.
  run_handler; try done; intros [= <- <-]; simpl;
    do 7 eexists; repeat (split; [done|]);
    (split; [simpl in *; lia|]); rewrite <- !app_assoc; done.
Qed.

(** X4.  An approved payment pays the quote of its session.  When
    start-payment-session succeeded and approve-payment then succeeds
    for the same session id on that cache, the session's quote was
    created for the incoming payment that was reported, the reported
    expiry is three minutes after the session was stored and the
    approval was checked no later, the approval continued the grant of
    its own request and created the outgoing payment for the quote of
    the session, and the session is gone while the other sessions are
    kept. *)
Theorem approved_payment_pays_session_quote
    body1 body2 (s0 s1 s2 s3 : Sys W PaymentStore) res out :
  start_payment_session body1 s0 = (inr (Reply 200 res), s1) →
  quoteCache (store s2) = quoteCache (store s1) →
  ap_clientSessionId body2 = ss_clientSessionId body1 →
  approve_payment body2 s2 = (inr (Reply 200 out), s3) →
  ∃ id sender token uri ref,
    present (ss_clientSessionId body1) = Some id
    ∧ present (ap_senderWalletAddress body2) = Some sender
    ∧ present (ap_continueAccessToken body2) = Some token
    ∧ present (ap_continueUri body2) = Some uri
    ∧ present (ap_interactRef body2) = Some ref
    ∧ (∃ url token' walletAddress,
         last (calls s1)
         = Some (QuoteCreate url token' walletAddress
                   (ssr_incomingPaymentUrl res)))
    ∧ ssr_grantExpiry res = toISOString (clock (world s1) + 3 * 60 * 1000)
    ∧ clock (createAuthenticatedClient (world s2)).2
      ≤ clock (world s1) + 3 * 60 * 1000
    ∧ (∃ url token',
         calls s3
         = calls s2 ++
           [WalletAddressGet (payment_pointer_url sender);
            GrantContinue token uri (Some ref);
            OutgoingPaymentCreate url token'
              {| opa_walletAddress := payment_pointer_url sender;
                 opa_quoteId := Some (quote_id (ssr_quote res));
                 opa_incomingPayment := None;
                 opa_debitAmount := None;
                 opa_description := None |}])
    ∧ quoteCache (store s3) !! id = None
    ∧ ∀ other, other ≠ id →
               quoteCache (store s3) !! other = quoteCache (store s2) !! other.
Proof.
  intros Hstart Hcache Hid Happrove.
  apply start_payment_session_stores in Hstart
    as (id & qurl & qtoken & qwallet & Hpresent & Hs1 & Hexp & Hlast).
  apply approve_payment_pays in Happrove
    as (id' & cached & sender & token & uri & ref & url & token'
        & Hpresent' & Hsender & Htoken & Huri & Href & Hcached & Htime
        & Hcalls & Hs3).
  rewrite Hid, Hpresent in Hpresent'. injection Hpresent' as <-.
  rewrite Hcache, Hs1, lookup_insert_eq in Hcached. injection Hcached as <-.
  exists id, sender, token, uri, ref. simpl in *.
  repeat (split; [done|]).
  split; [by do 3 eexists|]. repeat (split; [done|]).
  split; [by do 2 eexists|]. rewrite Hs3. split.
  - apply lookup_delete_eq.
  - intros other Hother. by apply lookup_delete_ne.
Qed.

Lemma process_payment_with_stored_token body token :
  token ≠ "" →
  stays (guarded (λ st, outgoingpaymentgrantaccessToken st = Some token)
           (only_calls (paid_with token)))
    (process_payment body : Task W PaymentStore _).
Proof.
  intros Hne. unfold process_payment.
  destruct (present (pp_receiverWalletAddress body)) as [receiver|];
    [|apply stays_ret; apply _].
  destruct (present (pp_continueAccessToken body)) as [access|];
    [|apply stays_ret; apply _].
  destruct (present (pp_continueUri body)) as [uri|];
    [|apply stays_ret; apply _].
  destruct (nonzero (pp_spendAmount body)) as [amount|];
    [|apply stays_ret; apply _].
  apply stays_try_catch; try apply _; [|intros ?; apply stays_ret; apply _].
  apply stays_bind; try apply _.
  { unfold getAuthenticatedClient. stays_step. guarded_leaf. }
  intros _.
  apply stays_bind; try apply _.
  { unfold getWalletAddressInfo. repeat stays_step. guarded_leaf. }
  intros [_ receiverWalletDetails].
  apply stays_bind; try apply _.
  { destruct (present (pp_customerWalletAddress body));
      unfold getWalletAddressInfo; repeat stays_step. guarded_leaf. }
  intros customerWalletDetails.
  apply stays_bind_get_store. intros s Hslot. rewrite Hslot. simpl.
  rewrite decide_False by done.
  revert s Hslot.
  match goal with
  | |- ∀ s, _ → _ ∧ only_calls _ s (?t s).2 =>
      change (stays (guarded (λ st, outgoingpaymentgrantaccessToken st
                                    = Some token)
                       (only_calls (paid_with token))) t)
  end.
  apply stays_bind_ret.
  apply stays_bind; try apply _.
  { unfold createIncomingPayment. repeat stays_step; guarded_leaf. }
  intros incomingPayment.
  apply stays_bind; try apply _.
  { unfold createQuote. repeat stays_step; guarded_leaf. }
  intros quote.
  apply stays_bind; try apply _.
  { unfold non_null. repeat stays_step. }
  intros customer.
  apply stays_bind; try apply _; [|intros ?; apply stays_ret; apply _].
  stays_step. intros Hslot. simpl. split; [exact Hslot|].
  apply only_calls_one. split; [done|]. by intros ??? [= _ <- _].
Qed.

Lemma handle_keeps_token token r :
  token ≠ "" →
  stays (preserves (λ st, outgoingpaymentgrantaccessToken st = Some token))
    (λ s : Sys W PaymentStore, (inr (), handle r s)).
Proof.
  intros Hne.
  assert (∀ A (t : Task W PaymentStore A),
            stays (preserves (λ st, outgoingpaymentgrantaccessToken st
                                    = Some token)) t →
            stays (preserves (λ st, outgoingpaymentgrantaccessToken st
                                    = Some token))
              (λ s, (inr (), (t s).2))) as Hdrop by done.
  destruct r as [body|body|cid body|body|body|f made]; simpl; try apply Hdrop.
  - unfold start_payment_session. unchanged.
  - unfold approve_payment. unchanged.
  - unfold authorize_vendor. unchanged.
  - unfold create_vendor_grant. unchanged.
  - intros s Hslot.
    by apply (process_payment_with_stored_token body token Hne s).
  - intros s Hs. exact Hs.
Qed.

(** X5.  With requests served one at a time, an access token that is
    stored is not replaced: after any requests the slot holds the same
    token, and every later process-payment request, whatever credentials
    it carries, continues no grant and creates its outgoing payment, if
    any, with that token.  (A request that found the slot empty before
    the token was stored assigns the slot when it is resumed:
    [process_payment_in_flight].) *)
Theorem stored_token_pays_every_later_payment
    rs (s : Sys W PaymentStore) token :
  present (outgoingpaymentgrantaccessToken (store s)) = Some token →
  let s1 := run rs s in
  outgoingpaymentgrantaccessToken (store s1) = Some token
  ∧ ∀ body,
      let s2 := (process_payment body s1).2 in
      continuations s2 = continuations s1
      ∧ ∃ paid, payment_tokens s2 = payment_tokens s1 ++ paid
                ∧ Forall (λ t, t = token) paid.
Proof.
  intros Hpresent s1.
  assert (outgoingpaymentgrantaccessToken (store s) = Some token
          ∧ token ≠ "") as [Hslot Hne].
  { destruct (outgoingpaymentgrantaccessToken (store s)) as [t|];
      simpl in *; [|done].
    case_decide; by simplify_eq. }
  assert (outgoingpaymentgrantaccessToken (store s1) = Some token) as Hs1.
  { subst s1. clear Hpresent. revert s Hslot.
    induction rs as [|r rs IH]; intros s Hslot; [done|].
    simpl. apply IH. by apply (handle_keeps_token token r Hne s). }
  split; [done|]. intros body s2.
  destruct (process_payment_with_stored_token body token Hne s1 Hs1)
    as [_ (made & Hcalls & Hmade)].
  split.
  - apply only_calls_filter. exists made. split; [done|].
    eapply Forall_impl; [exact Hmade|]. by intros c [? _].
  - unfold payment_tokens. fold s2 in Hcalls. rewrite Hcalls, omap_app.
    eexists. split; [done|].
    clear Hcalls. induction Hmade as [|c made [_ Hc] _ IH]; [constructor|].
    simpl. destruct c; try done. constructor; [|done]. by eapply Hc.
Qed.

Lemma authorize_vendor_sample w cid body :
  stays (preserves (sample_stores w))
    (authorize_vendor cid body : Task W PaymentStore _).
Proof.
  intros s Hs. unfold authorize_vendor.
  destruct (present (av_vendorId body)) as [vid|]; [|done].
  destruct (nonzero (av_spendingLimit body)) as [limit|] eqn:Hlimit; [|done].
  destruct (present (av_redirectUrl body)) as [url|]; [|done].
  change ((get_store ≫= ?k) s) with (k (store s) s). lazy beta.
  destruct Hs as (Hc & Hv & Hg).
  destruct (customers (store s) !! cid) as [customer|] eqn:Hcustomer;
    [|done].
  destruct (vendors (store s) !! vid) as [vendor|] eqn:Hvendor; [|done].
  rewrite Hc in Hcustomer. rewrite Hv in Hvendor. simpl in *.
  apply lookup_singleton_Some in Hcustomer as [<- <-].
  apply lookup_singleton_Some in Hvendor as [<- <-].
  assert (limit ≠ 0) as Hnz.
  { destruct (av_spendingLimit body) as [n|]; simpl in *; [|done].
    by case_decide; simplify_eq. }
  match goal with
  | |- sample_stores w (store (?t s).2) =>
      assert (stays (preserves (sample_stores w)) t) as Hstay
  end.
  { unchanged. intros (? & ? & ?). split; [done|]. split; [done|].
    apply Forall_map_set; [done|]. by repeat split. }
  by apply Hstay.
Qed.

Lemma handle_sample w r :
  stays (preserves (sample_stores w))
    (λ s : Sys W PaymentStore, (inr (), handle r s)).
Proof.
  assert (∀ A (t : Task W PaymentStore A),
            stays (preserves (sample_stores w)) t →
            stays (preserves (sample_stores w))
              (λ s, (inr (), (t s).2))) as Hdrop by done.
  destruct r as [body|body|cid body|body|body|f made]; simpl; try apply Hdrop.
  - unfold start_payment_session. unchanged.
  - unfold approve_payment. unchanged.
  - apply authorize_vendor_sample.
  - unfold create_vendor_grant. unchanged.
  - unfold process_payment. unchanged.
  - intros s Hs. exact Hs.
Qed.

Lemma run_sample w rs (s : Sys W PaymentStore) :
  sample_stores w (store s) → sample_stores w (store (run rs s)).
Proof.
  revert s. induction rs as [|r rs IH]; intros s Hinv; [done|].
  simpl. apply IH. by apply (handle_sample w r s).
Qed.

(** X6.  The payment server never registers a customer or a vendor:
    in every state it reaches, the directory is the sample data it
    started with, every grant of the ledger is stored under its id, is
    between customer1 and vendor1, is active, has a limit other than
    zero and has no interaction reference, and authorize-vendor fails
    without a trace for any other customer or vendor. *)
Theorem payment_server_serves_the_sample_pair_only rs w :
  let s := run rs (initial w) in
  customers (store s) = customers (store (initial w))
  ∧ vendors (store s) = vendors (store (initial w))
  ∧ Forall sample_grant (grants (store s))
  ∧ (∀ cid body,
       cid ≠ "customer1" ∨ av_vendorId body ≠ Some "vendor1" →
       ∃ status error,
         authorize_vendor cid body s = (inr (Fail status error), s)).
Proof.
  intros s.
  assert (sample_stores w (store s)) as (Hc & Hv & Hg).
  { apply run_sample. split; [done|]. split; [done|]. constructor. }
  split; [done|]. split; [done|]. split; [done|].
  intros cid body Hother. unfold authorize_vendor.
  destruct (present (av_vendorId body)) as [vid|] eqn:Hvid;
    [|by do 2 eexists].
  destruct (nonzero (av_spendingLimit body)) as [limit|]; [|by do 2 eexists].
  destruct (present (av_redirectUrl body)) as [url|]; [|by do 2 eexists].
  change ((get_store ≫= ?k) s) with (k (store s) s). lazy beta.
  rewrite Hc, Hv. simpl.
  destruct (decide (cid = "customer1")) as [->|Hcid].
  - rewrite lookup_singleton_eq.
    destruct (decide (vid = "vendor1")) as [->|Hne].
    + destruct Hother as [?|Hother]; [done|]. exfalso. apply Hother.
      destruct (av_vendorId body) as [v|]; simpl in *; [|done].
      case_decide; by simplify_eq.
    + rewrite lookup_singleton_ne by done. by do 2 eexists.
  - rewrite lookup_singleton_ne by done. by do 2 eexists.
Qed.

(** X7.  An authorization that succeeds is listed: the grant is in the
    answer of [GET /api/grants] under the id that was returned, for
    the customer of the route and the vendor of the body, with the
    spending limit as its daily limit, nothing spent, the expiry that
    was returned (30 days after its creation), no interaction
    reference and the status active; the grants stored under other ids
    are kept. *)
Theorem authorized_vendor_is_listed cid body (s s' : Sys W PaymentStore) res :
  authorize_vendor cid body s = (inr (Reply 201 res), s') →
  ∃ customer vid vendor now granted listed,
    customers (store s) !! cid = Some customer
    ∧ present (av_vendorId body) = Some vid
    ∧ vendors (store s) !! vid = Some vendor
    ∧ vref_id (avr_vendor res) = v_id vendor
    ∧ vref_name (avr_vendor res) = v_name vendor
    ∧ av_spendingLimit body = Some (avr_spendingLimit res)
    ∧ avr_spendingLimit res ≠ 0
    ∧ avr_expiresAt res = toISOString (addDays now 30)
    ∧ list_grants s' = (inr (Reply 200 listed), s')
    ∧ granted ∈ listed
    ∧ grantId granted = avr_grantId res
    ∧ customerId granted = cid
    ∧ vendorId granted = vid
    ∧ vendorName granted = v_name vendor
    ∧ dailyLimit granted = avr_spendingLimit res
    ∧ spentToday granted = 0
    ∧ expiresAt granted = avr_expiresAt res
    ∧ createdAt granted = toISOString now
    ∧ senderWalletAddress (grantData granted) = c_walletAddress customer
    ∧ interactRef (grantData granted) = None
    ∧ status granted = "active"
    ∧ (∀ k g, (k, g) ∈ grants (store s) → k ≠ avr_grantId res →
              (k, g) ∈ grants (store s')).
Proof.
  unfold authorize_vendor.
  destruct (present (av_vendorId body)) as [vid|] eqn:Hvid; [|done].
  destruct (av_spendingLimit body) as [limit|]; simpl; [|done].
  destruct (decide (limit = 0)); [done|].
  destruct (present (av_redirectUrl body)) as [url|]; [|done].
  change ((get_store ≫= ?k) s) with (k (store s) s). lazy beta.
  destruct (customers (store s) !! cid) as [customer|] eqn:Hcustomer;
    [|done].
  destruct (vendors (store s) !! vid) as [vendor|] eqn:Hvendor; [|done].
  intros Hrun. exists customer, vid, vendor. revert Hrun.
  run_handler; try done. intros [= <- <-]. simpl.
  match goal with
  | |- context [addDays ?now 30] => exists now
  end.
  match goal with
  | |- context [map_set ?id ?g _] => exists g
  end.
  eexists. repeat (split; [done|]).
  split.
  { apply list_elem_of_fmap. eexists (_, _). split; [done|].
    apply map_get_Some, map_get_set. }
  repeat (split; [done|]).
  intros k g Hin Hne. by apply map_set_others.
Qed.

(** X8.  The resource routes keep no state: create-incoming-payment,
    create-quote, outgoing-payment-auth and create-vendor-grant leave
    the stores as they were, create no outgoing payment and continue
    no grant, so each of them is an [Elsewhere] request; and
    [GET /api/grants] answers with the ledger and changes nothing. *)
Theorem resource_routes_keep_no_state (s : Sys W PaymentStore) :
  (∀ body, ∃ f made,
      (create_incoming_payment body s).2 = elsewhere f made s
      ∧ Forall moves_no_money made)
  ∧ (∀ body, ∃ f made,
       (create_quote body s).2 = elsewhere f made s
       ∧ Forall moves_no_money made)
  ∧ (∀ body, ∃ f made,
       (outgoing_payment_auth body s).2 = elsewhere f made s
       ∧ Forall moves_no_money made)
  ∧ (∀ body, ∃ f made,
       (create_vendor_grant body s).2 = elsewhere f made s
       ∧ Forall moves_no_money made)
  ∧ list_grants s = (inr (Reply 200 (map_values (grants (store s)))), s).
Proof.
  assert (∀ A (t : Task W PaymentStore A),
            stays (keeps id) t → stays (only_calls moves_no_money) t →
            ∃ f made, (t s).2 = elsewhere f made s
                      ∧ Forall moves_no_money made) as Hroute.
  { intros A t Hstore Hcalls.
    destruct (elsewhere_intro s (t s).2 moves_no_money (Hstore s) (Hcalls s))
      as (made & Hmade & Heq).
    exists (λ _, world (t s).2), made. split; [|done].
    rewrite Heq at 1. done. }
  repeat match goal with |- _ ∧ _ => split end; try done; intros body;
    apply Hroute;
    unfold create_incoming_payment, create_quote, outgoing_payment_auth,
      create_vendor_grant.
  all: try (by unchanged).
  all: quiet.
Qed.

(** X9.  The grant that outgoing-payment-auth asks for is bound
    neither to the quote nor to the receive amount of the body: any
    other quote id that is not empty gives the same run.  Its limits
    are the debit amount of the body, its redirect is the redirect URL
    of the body, and it carries an interval exactly for the type
    [new_subscription]: [R], the count of payments ([undefined] when
    absent), the instant of the request and the duration, [PT10M] when
    absent. *)
Theorem outgoing_payment_auth_limits body (s : Sys W PaymentStore) :
  (∀ quoteId receiveAmount,
     is_Some (present quoteId) → is_Some (present (pa_quoteId body)) →
     outgoing_payment_auth
       {| pa_senderWalletAddress := pa_senderWalletAddress body;
          pa_quoteId := quoteId;
          pa_debitAmount := pa_debitAmount body;
          pa_receiveAmount := receiveAmount;
          pa_type := pa_type body;
          pa_payments := pa_payments body;
          pa_redirectUrl := pa_redirectUrl body;
          pa_duration := pa_duration body |} s
     = outgoing_payment_auth body s)
  ∧ ∃ made,
      calls (outgoing_payment_auth body s).2 = calls s ++ made
      ∧ ∀ url req,
          GrantRequestCall url req ∈ made →
          ac_debitAmount (gr_access req) = pa_debitAmount body
          ∧ (finish_uri <$> gr_interact req) = Some (pa_redirectUrl body)
          ∧ (pa_type body ≠ Some "new_subscription" →
             ac_interval (gr_access req) = None)
          ∧ (pa_type body = Some "new_subscription" →
             ∃ dateNow,
               ac_interval (gr_access req)
               = Some ("R" +:+ from_option number_to_string "undefined"
                                 (pa_payments body)
                       +:+ "/" +:+ toISOString dateNow +:+ "/"
                       +:+ default "PT10M" (pa_duration body))).
Proof.
  split.
  - intros quoteId receiveAmount [q Hq] [q' Hq'].
    unfold outgoing_payment_auth. simpl. by rewrite Hq, Hq'.
  - set (P := λ c, ∀ url req, c = GrantRequestCall url req →
          ac_debitAmount (gr_access req) = pa_debitAmount body
          ∧ (finish_uri <$> gr_interact req) = Some (pa_redirectUrl body)
          ∧ (pa_type body ≠ Some "new_subscription" →
             ac_interval (gr_access req) = None)
          ∧ (pa_type body = Some "new_subscription" →
             ∃ dateNow,
               ac_interval (gr_access req)
               = Some ("R" +:+ from_option number_to_string "undefined"
                                 (pa_payments body)
                       +:+ "/" +:+ toISOString dateNow +:+ "/"
                       +:+ default "PT10M" (pa_duration body)))).
    assert (stays (only_calls P)
              (outgoing_payment_auth body : Task W PaymentStore _)) as Hstay.
    { unfold outgoing_payment_auth.
      repeat (open_helpers; stays_step);
        try apply only_calls_here;
        try (apply only_calls_one; by intros ?? [=]).
      apply only_calls_one. intros ?? [= <- <-]. simpl.
      unfold subscription_interval. repeat split.
      - intros Hne. by rewrite decide_False.
      - intros Heq. rewrite decide_True by done. by eexists. }
    destruct (Hstay s) as (made & Hcalls & Hmade).
    exists made. split; [done|]. intros url req Hin.
    eapply Forall_forall in Hmade; [|exact Hin]. by apply (Hmade url req).
Qed.
End PaymentServerMore.

(** ** The customer API: the ledger, the callback and the read routes *)

(** A grant for a pair that the ledger does not hold may be set. *)
Lemma ledger_wf_set m g :
  ledger_wf m → status g = "active" → vendor_pair g ∉ vendor_pair <$> map_values m →
  ledger_wf (map_set (grantId g) g m).
Proof.
  intros (Hkeys & Hall & Hpairs) Hactive Hnew. unfold map_values in *.
  destruct (map_set_spec (grantId g) g m)
    as [(i & g0 & Hi & ->)|[Hnotin ->]].
  - split; [|split].
    + rewrite list_fmap_insert. simpl. rewrite list_insert_id; [done|].
      by rewrite list_lookup_fmap, Hi.
    + apply Forall_insert; [done|]. by split.
    + unfold map_values. rewrite !list_fmap_insert. simpl.
      by apply NoDup_insert.
  - split; [|split].
    + rewrite fmap_app. simpl. by apply NoDup_snoc.
    + apply Forall_app. split; [done|]. by repeat constructor.
    + unfold map_values. rewrite !fmap_app. simpl. by apply NoDup_snoc.
Qed.

(** Writing a grant back under its id, at the place it was found. *)
Lemma ledger_wf_update m i k g g' :
  ledger_wf m → m !! i = Some (k, g) →
  grantId g' = grantId g → status g' = status g →
  vendor_pair g' = vendor_pair g →
  map_set (grantId g') g' (<[i := (k, g')]> m) = <[i := (k, g')]> m
  ∧ ledger_wf (<[i := (k, g')]> m).
Proof.
  intros (Hkeys & Hall & Hpairs) Hi Hid Hstatus Hpair.
  unfold map_values in *.
  pose proof (Forall_lookup_1 _ _ _ _ Hall Hi) as [Hk Hact]. simpl in *.
  assert ((<[i := (k, g')]> m).*1 = m.*1) as Hsame.
  { rewrite list_fmap_insert. simpl. apply list_insert_id.
    by rewrite list_lookup_fmap, Hi. }
  split.
  - destruct (map_set_spec (grantId g') g' (<[i := (k, g')]> m))
      as [(j & g0 & Hj & ->)|[Hnotin _]].
    + assert (j = i) as ->.
      { eapply NoDup_lookup; [exact Hkeys| |].
        - rewrite <- Hsame, list_lookup_fmap, Hj. done.
        - rewrite list_lookup_fmap, Hi. simpl. congruence. }
      rewrite list_insert_insert_eq. congruence.
    + exfalso. apply Hnotin. rewrite Hsame.
      apply list_elem_of_lookup. exists i.
      rewrite list_lookup_fmap, Hi. simpl. congruence.
  - split; [|split].
    + by rewrite Hsame.
    + apply Forall_insert; [done|]. simpl. split; congruence.
    + unfold map_values. rewrite !list_fmap_insert. simpl. rewrite Hpair.
      rewrite list_insert_id; [done|].
      by rewrite !list_lookup_fmap, Hi.
Qed.

Section CustomerApiMore.
Context {W : Type} `{Env W} `{Dates} `{Crypto}.
Variable QR_SIGNING_SECRET : option string.
Variable BASE_URL : string.
Variable toDataURL : string → option string.
Import CustomerApi.

Lemma create_grant_ledger_wf cid body :
  stays (preserves (λ st, ledger_wf (grants st)))
    (create_grant BASE_URL cid body : Task W Store _).
Proof.
  intros s Hwf. unfold create_grant, set_grants. open_helpers. task_unfold.
  repeat (case_match; simplify_eq/=); try done.
  match goal with
  | |- ledger_wf (map_set ?id ?g _) =>
      apply (ledger_wf_set (grants (store s)) g); [done|done|]
  end.
  match goal with
  | Hfind : list_find _ _ = None |- _ =>
      apply list_find_None in Hfind; rename Hfind into Hnone
  end.
  intros (g & Hpair & Hg)%list_elem_of_fmap.
  eapply Forall_forall in Hnone; [|exact Hg]. apply Hnone.
  destruct Hwf as (_ & Hall & _).
  apply list_elem_of_fmap in Hg as ([k g'] & -> & Hkv).
  eapply Forall_forall in Hall; [|exact Hkv]. destruct Hall as [_ Hactive].
  injection Hpair as Hc Hv. by repeat split.
Qed.

(** On a ledger that is well formed, the callback writes the
    reference into the first grant that has none, in its place. *)
Lemma grants_callback_run query (s : Sys W Store) :
  ledger_wf (grants (store s)) →
  grants_callback query s
  = (inr (if decide (result query = Some "grant_approved")
          then Reply 200 () else Fail 400 "Grant authorization failed"),
     {| world := world s;
        calls := calls s;
        store :=
          {| customers := customers (store s);
             grants :=
               if decide (result query = Some "grant_approved") then
                 match list_find
                         (λ kv, present (interactRef (grantData kv.2)) = None)
                         (grants (store s)),
                       present (interact_ref query) with
                 | Some (i, (k, grant)), Some ref =>
                     <[i := (k, with_interactRef ref grant)]>
                       (grants (store s))
                 | _, _ => grants (store s)
                 end
               else grants (store s);
             vendors := vendors (store s) |} |}).
Proof.
  intros Hwf. unfold grants_callback, set_grants. task_unfold.
  destruct s as [w cs [c g v]]. simpl in *.
  destruct (decide (result query = Some "grant_approved")); [|done].
  cbn.
  destruct (list_find _ g) as [[i [k grant]]|] eqn:Hfind; [|done].
  destruct (present (interact_ref query)) as [ref|]; [|done].
  cbn. apply list_find_Some in Hfind as (Hi & _ & _).
  destruct (ledger_wf_update g i k grant (with_interactRef ref grant) Hwf Hi)
    as [Heq _]; try done.
  cbn in Heq. by rewrite Heq.
Qed.

Lemma grants_callback_ledger_wf query :
  stays (preserves (λ st, ledger_wf (grants st)))
    (grants_callback query : Task W Store _).
Proof.
  intros s Hwf. rewrite (grants_callback_run query s Hwf). simpl.
  destruct (decide _); [|done].
  destruct (list_find _ _) as [[i [k grant]]|] eqn:Hfind; [|done].
  destruct (present (interact_ref query)) as [ref|]; [|done].
  apply list_find_Some in Hfind as (Hi & _ & _).
  by destruct (ledger_wf_update (grants (store s)) i k grant
                 (with_interactRef ref grant) Hwf Hi).
Qed.

Lemma handle_ledger_wf r :
  stays (preserves (λ st, ledger_wf (grants st)))
    (λ s : Sys W Store,
       (inr (), handle QR_SIGNING_SECRET BASE_URL toDataURL r s)).
Proof.
  assert (∀ A (t : Task W Store A),
            stays (preserves (λ st, ledger_wf (grants st))) t →
            stays (preserves (λ st, ledger_wf (grants st)))
              (λ s, (inr (), (t s).2))) as Hdrop by done.
  destruct r as [body|cid body|query|cid|qrData|f made]; simpl;
    try apply Hdrop.
  - unfold create_customer. unchanged.
  - apply create_grant_ledger_wf.
  - apply grants_callback_ledger_wf.
  - unfold qr_code. unchanged.
  - unfold qr_verify. unchanged.
  - intros s Hs. exact Hs.
Qed.

Lemma run_ledger_wf rs (s : Sys W Store) :
  ledger_wf (grants (store s)) →
  ledger_wf (grants (store (run QR_SIGNING_SECRET BASE_URL toDataURL rs s))).
Proof.
  revert s. induction rs as [|r rs IH]; intros s Hinv; [done|].
  simpl. apply IH. by apply (handle_ledger_wf r s).
Qed.

Lemma initial_ledger_wf (w : W) : ledger_wf (grants (store (initial w))).
Proof. split; [|split]; simpl; constructor. Qed.

(** X10.  In every state the customer API reaches by serving its
    requests one at a time, the ledger holds at most one grant for a
    customer and a vendor, every grant is active and stored under its
    own id, and no id occurs twice.  (Two grant requests for one vendor
    that are in flight together both pass the search of the ledger:
    [create_grant_in_flight].) *)
Theorem one_active_grant_per_customer_and_vendor rs w :
  let ledger :=
    grants (store (run QR_SIGNING_SECRET BASE_URL toDataURL rs (initial w))) in
  NoDup (vendor_pair <$> map_values ledger)
  ∧ Forall (λ kv, kv.1 = grantId kv.2 ∧ status kv.2 = "active") ledger
  ∧ NoDup ledger.*1.
Proof.
  intros ledger.
  destruct (run_ledger_wf rs (initial w) (initial_ledger_wf w))
    as (Hkeys & Hall & Hpairs).
  done.
Qed.

(** X11.  The callback does not tell which grant was approved: in
    every state the customer API reaches, an approval that carries a
    reference writes it into the first grant of the ledger that has
    none, leaves every other grant, the customers, the world and the
    call log as they were, and answers with a success. *)
Theorem grants_callback_marks_the_oldest_pending_grant
    rs w query ref i k grant :
  let s := run QR_SIGNING_SECRET BASE_URL toDataURL rs (initial w) in
  result query = Some "grant_approved" →
  present (interact_ref query) = Some ref →
  list_find (λ kv, present (interactRef (grantData kv.2)) = None)
    (grants (store s)) = Some (i, (k, grant)) →
  ∃ s', grants_callback query s = (inr (Reply 200 ()), s')
        ∧ grants (store s')
          = <[i := (k, with_interactRef ref grant)]> (grants (store s))
        ∧ customers (store s') = customers (store s)
        ∧ world s' = world s ∧ calls s' = calls s.
Proof.
  intros s Hresult Href Hfind.
  rewrite (grants_callback_run query s
             (run_ledger_wf rs (initial w) (initial_ledger_wf w))).
  rewrite decide_True by done. rewrite Hfind, Href.
  eexists. split; [done|]. simpl. rewrite decide_True by done. done.
Qed.

Lemma handle_unauthorized r :
  ¬ approves r →
  stays (preserves (λ st, unauthorized (grants st)))
    (λ s : Sys W Store,
       (inr (), handle QR_SIGNING_SECRET BASE_URL toDataURL r s)).
Proof.
  intros Hr.
  assert (∀ A (t : Task W Store A),
            stays (preserves (λ st, unauthorized (grants st))) t →
            stays (preserves (λ st, unauthorized (grants st)))
              (λ s, (inr (), (t s).2))) as Hdrop by done.
  destruct r as [body|cid' body|query|cid'|qrData|f made]; simpl;
    try apply Hdrop.
  - unfold create_customer. unchanged.
  - unfold create_grant. unchanged.
    intros ?. by apply Forall_map_set.
  - intros s Hs. unfold grants_callback, set_grants. task_unfold.
    simpl in Hr.
    destruct (decide (result query = Some "grant_approved")); [|done].
    destruct (present (interact_ref query)) as [ref|] eqn:Href.
    { exfalso. apply Hr. split; [done|]. by eexists. }
    cbn. by destruct (list_find _ _) as [[i [k grant]]|].
  - unfold qr_code. unchanged.
  - unfold qr_verify. unchanged.
  - intros s Hs. exact Hs.
Qed.

(** X12.  No QR code without an approval: after requests none of
    which is a callback that reports an approval with a reference, the
    QR route answers 404 for an unknown customer and 400 "No active
    authorized grants found" for a known one, and changes nothing. *)
Theorem no_qr_code_without_an_approved_callback rs w cid :
  Forall (λ r, ¬ approves r) rs →
  let s := run QR_SIGNING_SECRET BASE_URL toDataURL rs (initial w) in
  qr_code QR_SIGNING_SECRET toDataURL cid s
  = (inr (Fail 404 "Customer not found"), s)
  ∨ qr_code QR_SIGNING_SECRET toDataURL cid s
    = (inr (Fail 400 "No active authorized grants found"), s).
Proof.
  intros Hrs s.
  assert (unauthorized (grants (store s))) as Hnone.
  { subst s. assert (unauthorized (grants (store (initial w)))) as Hinit
      by constructor.
    revert Hinit. generalize (initial w).
    induction Hrs as [|r rs Hr _ IH]; intros s Hs; [done|].
    simpl. apply IH. by apply (handle_unauthorized r Hr s). }
  unfold qr_code. task_unfold.
  destruct (customers (store s) !! cid) as [customer|]; [|by left].
  right.
  assert (filter (λ g, qr_eligible cid (clock (world s)) g)
            (map_values (grants (store s))) = []) as ->; [|done].
  unfold map_values, unauthorized in *.
  induction (grants (store s)) as [|[k g] m IH]; [done|].
  apply Forall_cons in Hnone as [Hg Hm].
  simpl in *. rewrite filter_cons_False; [by apply IH|].
  unfold qr_eligible. rewrite Hg. simpl.
  rewrite andb_false_r. intros [].
Qed.

Lemma handle_keeps_customer cid r :
  stays (preserves (λ st, is_Some (customers st !! cid)))
    (λ s : Sys W Store,
       (inr (), handle QR_SIGNING_SECRET BASE_URL toDataURL r s)).
Proof.
  assert (∀ A (t : Task W Store A),
            stays (preserves (λ st, is_Some (customers st !! cid))) t →
            stays (preserves (λ st, is_Some (customers st !! cid)))
              (λ s, (inr (), (t s).2))) as Hdrop by done.
  destruct r as [body|cid' body|query|cid'|qrData|f made]; simpl;
    try apply Hdrop.
  - unfold create_customer. unchanged.
    intros Hc. apply lookup_insert_is_Some'. by right.
  - unfold create_grant. unchanged.
  - unfold grants_callback. unchanged.
  - unfold qr_code. unchanged.
  - unfold qr_verify. unchanged.
  - intros s Hs. exact Hs.
Qed.

(** X13.  A QR bundle verifies ever after: when the QR route answered
    with a picture, the picture encodes the signed bundle of the
    grants that were eligible then, and after any further requests,
    whatever the clock then reads, the verify route accepts that
    bundle and answers with the customer and the grants the QR route
    listed. *)
Theorem qr_bundle_verifies_ever_after cid (s s1 : Sys W Store) res rs :
  qr_code QR_SIGNING_SECRET toDataURL cid s = (inr (Reply 200 res), s1) →
  let now := clock (world s) in
  let bundle :=
    qr_bundle QR_SIGNING_SECRET cid
      (filter (λ g, qr_eligible cid now g) (map_values (grants (store s))))
      (toISOString now) in
  let s2 := run QR_SIGNING_SECRET BASE_URL toDataURL rs s1 in
  toDataURL (stringify (JObj bundle)) = Some (qrCode res)
  ∧ ∃ customer,
      qr_verify QR_SIGNING_SECRET bundle s2
      = (inr (Reply 200 {| vr_customer := customer;
                           vr_grants := qr_grants res |}), s2).
Proof.
  intros Hrun now bundle s2.
  assert (is_Some (customers (store s2) !! cid)) as [customer Hcustomer].
  { assert (is_Some (customers (store s1) !! cid)) as Hs1.
    { revert Hrun. unfold qr_code. task_unfold.
      repeat (case_match; simplify_eq/=); try done. by intros [= <- <-]. }
    subst s2. clear Hrun. revert s1 Hs1.
    induction rs as [|r rs IH]; intros s1 Hs1; [done|].
    simpl. apply IH. by apply (handle_keeps_customer cid r s1). }
  assert (toDataURL (stringify (JObj bundle)) = Some (qrCode res)
          ∧ qr_grants res = member "grants" bundle) as [Hpicture Hgrants].
  { revert Hrun. unfold qr_code. task_unfold.
    repeat (case_match; simplify_eq/=); try done. by intros [= <- <-]. }
  split; [done|]. exists (without_walletAddress customer).
  unfold qr_verify, verifyQRSignature. subst bundle.
  rewrite qr_bundle_signature, qr_bundle_content.
  rewrite bool_decide_eq_true_2 by done.
  task_unfold. simpl. rewrite Hcustomer. by rewrite Hgrants.
Qed.

Lemma create_grant_run cid body (s s' : Sys W Store) res :
  create_grant BASE_URL cid body s = (inr (Reply 201 res), s') →
  ∃ customer vid vendor uri token,
    customers (store s) !! cid = Some customer
    ∧ gb_vendorId body = Some vid
    ∧ vendors (store s) !! vid = Some vendor
    ∧ gb_dailyLimit body = Some (gres_dailyLimit res)
    ∧ 0 < gres_dailyLimit res
    ∧ valid_time (addDays (clock (world s'))
                    (default 30 (gb_expirationDays body)))
    ∧ gres_expiresAt res
      = toISOString (addDays (clock (world s'))
                       (default 30 (gb_expirationDays body)))
    ∧ customers (store s') = customers (store s)
    ∧ grants (store s')
      = map_set (gres_id res)
          {| grantId := gres_id res;
             customerId := cid;
             vendorId := vid;
             vendorName := gres_vendorName res;
             dailyLimit := gres_dailyLimit res;
             spentToday := 0;
             expiresAt := gres_expiresAt res;
             createdAt := toISOString (clock (world s'));
             grantData :=
               {| continueAccessToken := token;
                  continueUri := uri;
                  interactRef := None;
                  senderWalletAddress := c_walletAddress customer |};
             status := "active" |}
          (grants (store s)).
Proof.
  unfold create_grant, set_grants. open_helpers. task_unfold.
  destruct (customers (store s) !! cid) as [customer|] eqn:Hc; [|done].
  destruct (gb_vendorId body) as [vid|] eqn:Hvid; [|done]. simpl.
  destruct (vendors (store s) !! vid) as [vendor|] eqn:Hv; [|done]. simpl.
  destruct (gb_dailyLimit body) as [limit|] eqn:Hlimit; [|done]. simpl.
  destruct (decide (limit = 0)); [done|].
  destruct (decide (limit ≤ 0)); [done|].
  intros Hrun. exists customer, vid, vendor. revert Hrun.
  repeat (case_match; simplify_eq/=); try done.
  intros [= <- <-]. simpl. do 2 eexists.
  repeat split; try done; try lia;
    by match goal with v : valid_time _ |- _ => destruct v end.
Qed.

(** X14.  A grant that was created is found: after the grants route
    answered 201, [GET /api/grants/:grantId] for the returned id
    answers with the vendor and the daily limit of the request, which
    is positive, nothing spent, the whole limit remaining, the returned
    expiry (the instant of creation plus the requested days, 30 when
    none are given, which is a valid date) and the status active;
    every other id is answered as before; and
    [GET /api/customers/:customerId] lists the grant. *)
Theorem created_grant_is_found cid body (s s' : Sys W Store) res :
  create_grant BASE_URL cid body s = (inr (Reply 201 res), s') →
  gb_dailyLimit body = Some (gres_dailyLimit res)
  ∧ 0 < gres_dailyLimit res
  ∧ valid_time (addDays (clock (world s'))
                  (default 30 (gb_expirationDays body)))
  ∧ gres_expiresAt res
    = toISOString (addDays (clock (world s'))
                     (default 30 (gb_expirationDays body)))
  ∧ (∃ vid,
       gb_vendorId body = Some vid
       ∧ get_grant (gres_id res) s'
         = (inr (Reply 200
                   {| gd_id := gres_id res;
                      gd_vendorId := vid;
                      gd_vendorName := gres_vendorName res;
                      gd_dailyLimit := gres_dailyLimit res;
                      gd_spentToday := 0;
                      gd_remainingToday := gres_dailyLimit res;
                      gd_expiresAt := gres_expiresAt res;
                      gd_status := "active" |}), s'))
  ∧ (∀ id, id ≠ gres_id res → (get_grant id s').1 = (get_grant id s).1)
  ∧ (∃ info,
       get_customer cid s' = (inr (Reply 200 info), s')
       ∧ {| gi_id := gres_id res;
            gi_vendorName := gres_vendorName res;
            gi_dailyLimit := gres_dailyLimit res;
            gi_spentToday := 0;
            gi_expiresAt := gres_expiresAt res |} ∈ ci_grants info).
Proof.
  intros Hrun.
  apply create_grant_run in Hrun
    as (customer & vid & vendor & uri & token & Hc & Hvid & Hv & Hlimit
        & Hpos & Hvalid & Hexpiry & Hcs & Hgs).
  do 4 (split; [done|]). split; [|split].
  - exists vid. split; [done|]. unfold get_grant.
    change ((get_store ≫= ?k) s') with (k (store s') s'). lazy beta.
    rewrite Hgs, map_get_set. simpl. by rewrite Z.sub_0_r.
  - intros id Hne. unfold get_grant.
    change ((get_store ≫= ?k) s') with (k (store s') s').
    change ((get_store ≫= ?k) s) with (k (store s) s). lazy beta.
    rewrite Hgs, map_get_set_ne by done.
    by destruct (map_get id (grants (store s))).
  - unfold get_customer.
    change ((get_store ≫= ?k) s') with (k (store s') s'). lazy beta.
    rewrite Hcs, Hc. eexists. split; [done|]. simpl.
    match type of Hgs with
    | _ = map_set _ ?g _ =>
        apply list_elem_of_fmap; exists g; split; [done|]
    end.
    apply list_elem_of_filter. split; [done|].
    apply list_elem_of_fmap. eexists (_, _). split; [done|].
    rewrite Hgs. apply map_get_Some, map_get_set.
Qed.

(** X15.  A customer that was created is found: after the customers
    route answered 201, with the name, phone and email of the request
    and without the wallet address, no call was made and the ledger is
    as it was, [GET /api/customers/:customerId] for the returned id
    answers with the customer as the route answered it and the grants
    the ledger holds for that id, and every other id is answered as
    before. *)
Theorem created_customer_is_found body (s s' : Sys W Store) customer :
  create_customer body s = (inr (Reply 201 customer), s') →
  ∃ name,
    present (cb_name body) = Some name
    ∧ is_Some (present (cb_walletAddress body))
    ∧ pc_name customer = name
    ∧ pc_phone customer = cb_phone body
    ∧ pc_email customer = cb_email body
    ∧ calls s' = calls s
    ∧ grants (store s') = grants (store s)
    ∧ get_customer (pc_id customer) s'
      = (inr (Reply 200
                {| ci_customer :=
                     {| pc_id := pc_id customer;
                        pc_name := name;
                        pc_phone := cb_phone body;
                        pc_email := cb_email body;
                        pc_createdAt := pc_createdAt customer |};
                   ci_grants :=
                     grant_info <$>
                       filter (λ grant, customerId grant = pc_id customer
                                        ∧ status grant = "active")
                         (map_values (grants (store s))) |}), s')
    ∧ (∀ cid, cid ≠ pc_id customer →
              (get_customer cid s').1 = (get_customer cid s).1).
Proof.
  unfold create_customer, set_customers. task_unfold.
  destruct (present (cb_name body)) as [name|]; [|done].
  destruct (present (cb_walletAddress body)) as [wallet|]; [|done].
  destruct (uuid (world s)) as [id w'] eqn:Hid. simpl.
  intros [= <- <-]. simpl. exists name.
  split; [done|]. split; [by eexists|]. repeat split.
  - unfold get_customer. task_unfold. simpl. by rewrite lookup_insert_eq.
  - intros cid Hne. unfold get_customer. task_unfold. simpl.
    rewrite lookup_insert_ne by done.
    by destruct (customers (store s) !! cid).
Qed.

(** X16.  In every state the customer API reaches,
    [GET /api/grants/:grantId] answers 404 or with the grant stored
    under the id, which is active, has nothing spent and a positive
    daily limit all of which remains; the state is left as it was. *)
Theorem get_grant_reports_the_full_limit rs w id :
  let s := run QR_SIGNING_SECRET BASE_URL toDataURL rs (initial w) in
  get_grant id s = (inr (Fail 404 "Grant not found"), s)
  ∨ ∃ details,
      get_grant id s = (inr (Reply 200 details), s)
      ∧ gd_id details = id
      ∧ gd_status details = "active"
      ∧ gd_spentToday details = 0
      ∧ gd_remainingToday details = gd_dailyLimit details
      ∧ 0 < gd_dailyLimit details.
Proof.
  intros s. unfold get_grant.
  change ((get_store ≫= ?k) s) with (k (store s) s). lazy beta.
  destruct (map_get id (grants (store s))) as [grant|] eqn:Hget; [|by left].
  right. eexists. split; [done|]. simpl.
  apply map_get_Some in Hget.
  destruct (run_ledger_wf rs (initial w)
              (initial_ledger_wf w)) as (_ & Hall & _).
  pose proof (run_ledger_ok QR_SIGNING_SECRET BASE_URL toDataURL rs
                (initial w) (Forall_nil_2 _)) as Hok.
  eapply Forall_forall in Hall; [|exact Hget].
  eapply Forall_forall in Hok; [|exact Hget].
  simpl in *. destruct Hall as [-> ->]. destruct Hok as [-> ?].
  repeat split; [lia|done].
Qed.

(** X17.  The customer API moves no money.  The QR route, the verify
    route and the two [GET] routes leave the whole state as it was;
    the customers route and the callback make no call; the grants
    route only looks up wallet addresses and asks for a grant, whose
    debit limit is in ZAR at scale 2, whatever the asset of the
    customer's wallet, and is the daily limit times 100 where that
    product of whole numbers is computed exactly. *)
Theorem customer_api_asks_for_grants_only (s : Sys W Store) :
  (∀ cid, (qr_code QR_SIGNING_SECRET toDataURL cid s).2 = s)
  ∧ (∀ qrData, (qr_verify QR_SIGNING_SECRET qrData s).2 = s)
  ∧ (∀ cid, (get_customer cid s).2 = s)
  ∧ (∀ id, (get_grant id s).2 = s)
  ∧ (∀ body, calls (create_customer body s).2 = calls s)
  ∧ (∀ query, calls (grants_callback query s).2 = calls s)
  ∧ (∀ cid body,
       only_calls (asks_for_rand (gb_dailyLimit body)) s
         (create_grant BASE_URL cid body s).2).
Proof.
  split; [|split; [|split; [|split; [|split; [|split]]]]].
  - intros cid. unfold qr_code. task_unfold.
    repeat (case_match; simplify_eq/=); done.
  - intros qrData. unfold qr_verify. task_unfold.
    repeat (case_match; simplify_eq/=); done.
  - intros cid. unfold get_customer. task_unfold.
    repeat (case_match; simplify_eq/=); done.
  - intros id. unfold get_grant. task_unfold.
    repeat (case_match; simplify_eq/=); done.
  - intros body. unfold create_customer, set_customers. task_unfold.
    repeat (case_match; simplify_eq/=); done.
  - intros query. unfold grants_callback, set_grants. task_unfold.
    repeat (case_match; simplify_eq/=); done.
  - intros cid body.
    assert (stays (only_calls (asks_for_rand (gb_dailyLimit body)))
              (create_grant BASE_URL cid body : Task W Store _)) as Hstay;
      [|apply Hstay].
    unfold create_grant.
    destruct (gb_dailyLimit body) as [limit|] eqn:Hlimit; simpl;
      [destruct (decide (limit = 0))|].
    + repeat (open_helpers; stays_step);
        try apply only_calls_here; try (by apply only_calls_one).
    + repeat (open_helpers; stays_step);
        try apply only_calls_here; try (by apply only_calls_one).
      apply only_calls_one. simpl. by eexists limit, _.
    + repeat (open_helpers; stays_step);
        try apply only_calls_here; try (by apply only_calls_one).
Qed.
End CustomerApiMore.

(** ** [cache.ts]: setting up and making an instant payment *)

Section InstantPayMore.
Context {W : Type} `{Env W} `{Crypto}.
Variable FRONTEND_URL : string.

Lemma setupInstantPay_run
    walletAddressUrl maxAmount (s s' : Sys W unit) redirect :
  setupInstantPay FRONTEND_URL walletAddressUrl maxAmount s
  = (inr redirect, s') →
  ∃ walletAddress clientNonce clientIdentifier interactNonce continueUri
    continueToken request w,
    calls s'
    = calls s ++ [WalletAddressGet walletAddressUrl;
                  GrantRequestCall (wa_authServer walletAddress) request]
    ∧ (grant_request (wa_authServer walletAddress) request w).1
      = Some (PendingGrant redirect interactNonce continueUri continueToken)
    ∧ ac_identifier (gr_access request) = Some (wa_id walletAddress)
    ∧ ac_debitAmount (gr_access request)
      = Some {| value := number_to_string
                           (maxAmount
                            * 10 ^ Z.of_N (wa_assetScale walletAddress));
                assetCode := wa_assetCode walletAddress;
                assetScale := wa_assetScale walletAddress |}
    ∧ gr_interact request
      = Some {| finish_uri :=
                  Some (FRONTEND_URL +:+ "/instant-pay/finish?identifier="
                        +:+ clientIdentifier);
                finish_nonce := clientNonce |}
    ∧ world s'
      = cache_set clientIdentifier
          {| ipd_walletAddressUrl := wa_id walletAddress;
             ipd_clientNonce := clientNonce;
             ipd_interactNonce := interactNonce;
             ipd_continueUri := continueUri;
             ipd_continueToken := continueToken |} 300
          (grant_request (wa_authServer walletAddress) request w).2.
Proof.
  unfold setupInstantPay. task_unfold.
  repeat (case_match; simplify_eq/=); try done.
  intros [= <- <-]. simpl. do 7 eexists.
  match goal with
  | Hgrant : grant_request _ _ ?w = _ |- _ => exists w; rewrite Hgrant
  end.
  rewrite <- !app_assoc. simpl. repeat split; done.
Qed.

Lemma completeInstantPaySetup_cached identifier ref hash (s : Sys W unit) d :
  cache_get identifier (world s) = Some d →
  completeInstantPaySetup identifier ref hash s
  = (verifyInteractionHash ref hash (ipd_clientNonce d) (ipd_interactNonce d)
       (ipd_walletAddressUrl d)
     ≫= λ _, continueGrant (ipd_continueToken d) (ipd_continueUri d) ref) s.
Proof.
  intros Hd. unfold completeInstantPaySetup.
  unfold mbind at 1, task_bind, bind at 1, read_world. by rewrite Hd.
Qed.

(** X18.  The completion continues the grant of the setup.  With a
    cache that gives back what was set, a setup that succeeded has
    cached, under the identifier of the finish URL it sent, the nonce
    it sent and the continuation of the pending grant it was answered
    with; a completion that later finds this entry in the cache either
    continues no grant, or continues that very grant with the
    interaction reference it was given, and this only with the hash of
    the cached nonces. *)
Theorem completion_continues_the_grant_of_the_setup
    walletAddressUrl maxAmount (s s1 : Sys W unit) redirect :
  (∀ identifier data ttl w,
     cache_get identifier (cache_set identifier data ttl w) = Some data) →
  setupInstantPay FRONTEND_URL walletAddressUrl maxAmount s
  = (inr redirect, s1) →
  ∃ identifier data url request w,
    last (calls s1) = Some (GrantRequestCall url request)
    ∧ gr_interact request
      = Some {| finish_uri :=
                  Some (FRONTEND_URL +:+ "/instant-pay/finish?identifier="
                        +:+ identifier);
                finish_nonce := ipd_clientNonce data |}
    ∧ (grant_request url request w).1
      = Some (PendingGrant redirect (ipd_interactNonce data)
                (ipd_continueUri data) (ipd_continueToken data))
    ∧ cache_get identifier (world s1) = Some data
    ∧ ∀ (s2 : Sys W unit) interactRef hash,
        cache_get identifier (world s2) = Some data →
        let s3 := (completeInstantPaySetup identifier interactRef hash s2).2 in
        continuations s3 = continuations s2
        ∨ (continuations s3
           = continuations s2 ++
             [GrantContinue (ipd_continueToken data) (ipd_continueUri data)
                (Some interactRef)]
           ∧ ∃ wallet,
               (walletAddress_get (ipd_walletAddressUrl data) (world s2)).1
               = Some wallet
               ∧ hash = sha256_base64
                          (interaction_data (ipd_clientNonce data)
                             (ipd_interactNonce data) interactRef
                             (wa_authServer wallet))).
Proof.
  intros Hcache Hsetup.
  apply setupInstantPay_run in Hsetup
    as (wallet & clientNonce & clientIdentifier & interactNonce & continueUri
        & continueToken & request & w & Hcalls & Hgrant & _ & _ & Hinteract
        & Hworld).
  exists clientIdentifier.
  eexists {| ipd_walletAddressUrl := wa_id wallet;
             ipd_clientNonce := clientNonce;
             ipd_interactNonce := interactNonce;
             ipd_continueUri := continueUri;
             ipd_continueToken := continueToken |}.
  exists (wa_authServer wallet), request, w. simpl.
  split; [by rewrite Hcalls, cons_middle, app_assoc, last_snoc|].
  split; [done|]. split; [done|].
  assert (cache_get clientIdentifier (world s1) = Some _) as Hget
    by (rewrite Hworld; apply Hcache).
  split; [exact Hget|].
  clear Hget. intros s2 interactRef hash Hget.
  rewrite (completeInstantPaySetup_cached _ _ _ _ _ Hget).
  unfold mbind, task_bind, bind. rewrite verifyInteractionHash_run. simpl.
  destruct (walletAddress_get (wa_id wallet) (world s2)) as [[wallet'|] w']
    eqn:Hwallet; simpl.
  - destruct (decide _) as [Hhash|Hhash].
    + right. unfold continueGrant, continuations. task_unfold. simpl.
      match goal with
      | |- context [grant_continue ?a ?b ?c ?w] =>
          destruct (grant_continue a b c w) as [[[]|] ?]
      end; simpl; rewrite !filter_app; simpl; rewrite app_nil_r;
        (split; [done|]); by exists wallet'.
    + left. unfold continuations. simpl. rewrite filter_app. simpl.
      by rewrite app_nil_r.
  - left. unfold continuations. simpl. rewrite filter_app. simpl.
    by rewrite app_nil_r.
Qed.

(** X19.  An instant payment that succeeds has made six calls: it
    looked up the sender and the vendor, asked the vendor's wallet
    address for an incoming-payment grant, created the incoming payment
    there, rotated the stored token, and created the outgoing payment
    at the sender's wallet address with the rotated token, for that
    incoming payment.  Each amount carries the asset code and scale of
    its own wallet, and its value is the amount asked, scaled by that
    scale, where the scaling of the whole number is computed
    exactly. *)
Theorem instant_payment_trace
    accessToken manageUrl vendorPaymentPointer senderPaymentPointer amount
    description (s s' : Sys W unit) :
  makeInstantPayment accessToken manageUrl vendorPaymentPointer
    senderPaymentPointer amount description s = (inr (), s') →
  ∃ senderWallet vendorWallet grantToken incomingPayment freshToken w
    incomingAmount debitAmount,
    (token_rotate accessToken manageUrl w).1 = Some freshToken
    ∧ calls s'
      = calls s ++
        [WalletAddressGet senderPaymentPointer;
         WalletAddressGet vendorPaymentPointer;
         GrantRequestCall (wa_id vendorWallet)
           {| gr_access :=
                {| ac_type := "incoming-payment";
                   ac_actions := ["read-all"; "create"];
                   ac_identifier := None;
                   ac_debitAmount := None;
                   ac_interval := None |};
              gr_interact := None |};
         IncomingPaymentCreate (wa_id vendorWallet) grantToken
           (wa_id vendorWallet) incomingAmount;
         TokenRotate accessToken manageUrl;
         OutgoingPaymentCreate (wa_id senderWallet) freshToken
           {| opa_walletAddress := wa_id senderWallet;
              opa_quoteId := None;
              opa_incomingPayment := Some (ip_id incomingPayment);
              opa_debitAmount := Some debitAmount;
              opa_description := Some description |}]
    ∧ assetCode incomingAmount = wa_assetCode vendorWallet
    ∧ assetScale incomingAmount = wa_assetScale vendorWallet
    ∧ scaled_where_exact amount incomingAmount
    ∧ assetCode debitAmount = wa_assetCode senderWallet
    ∧ assetScale debitAmount = wa_assetScale senderWallet
    ∧ scaled_where_exact amount debitAmount.
Proof.
  unfold makeInstantPayment, createVendorIncomingPayment. task_unfold.
  repeat (case_match; simplify_eq/=); try done.
  intros [= <-]. simpl. do 5 eexists.
  match goal with
  | Hrotate : token_rotate _ _ ?w = _ |- _ => exists w; rewrite Hrotate
  end.
  do 2 eexists. split; [done|]. rewrite <- !app_assoc.
  split; [done|]. by repeat split.
Qed.

(** X20.  An instant payment that fails either attempted no outgoing
    payment, or fails with the spending-limit message: then the
    outgoing payment was refused after the incoming payment was
    created and the token rotated, and neither is undone. *)
Theorem instant_payment_failure
    accessToken manageUrl vendorPaymentPointer senderPaymentPointer amount
    description (s s' : Sys W unit) e :
  makeInstantPayment accessToken manageUrl vendorPaymentPointer
    senderPaymentPointer amount description s = (inl e, s') →
  outgoing_payments s' = outgoing_payments s
  ∨ (e = Error "One click buy spending limit exceeded. Please setup one click buy again."
     ∧ ∃ made url grantToken walletAddress incomingAmount url' token args,
         calls s'
         = calls s ++ made ++
           [IncomingPaymentCreate url grantToken walletAddress incomingAmount;
            TokenRotate accessToken manageUrl;
            OutgoingPaymentCreate url' token args]).
Proof.
  unfold makeInstantPayment, createVendorIncomingPayment, outgoing_payments.
  task_unfold.
  repeat (case_match; simplify_eq/=); try done; intros [= <- <-]; simpl;
    rewrite ?filter_app; simpl; rewrite ?app_nil_r; auto.
  right. split; [done|]. eexists [_; _; _]. do 7 eexists.
  rewrite <- !app_assoc. done.
Qed.

Lemma setupInstantPay_at_scale walletAddressUrl maxAmount :
  stays (only_calls (sends_at_scale maxAmount))
    (setupInstantPay FRONTEND_URL walletAddressUrl maxAmount : Task W unit _).
Proof.
  unfold setupInstantPay.
  repeat stays_step; try apply only_calls_here;
    try (by apply only_calls_one).
  apply only_calls_one. simpl. by intros ? [= <-] ?.
Qed.

Lemma makeInstantPayment_at_scale
    accessToken manageUrl vendor sender amount description :
  stays (only_calls (sends_at_scale amount))
    (makeInstantPayment accessToken manageUrl vendor sender amount
       description : Task W unit _).
Proof.
  unfold makeInstantPayment, createVendorIncomingPayment.
  repeat stays_step; try apply only_calls_here;
    try (by apply only_calls_one).
  apply only_calls_one. simpl. eexists. split; [done|]. by intros ?.
Qed.
End InstantPayMore.

Section LimitsAtScale.
Context {W : Type} `{Env W} `{Dates}.
Import PaymentServer.

Lemma authorize_vendor_at_scale cid body :
  stays (only_calls (sends_at_scale (default 0 (av_spendingLimit body))))
    (authorize_vendor cid body : Task W PaymentStore _).
Proof.
  unfold authorize_vendor.
  destruct (av_spendingLimit body) as [limit|]; simpl;
    [destruct (decide (limit = 0))|];
    repeat (open_helpers; stays_step);
    try apply only_calls_here; try (by apply only_calls_one).
  apply only_calls_one. simpl. by intros ? [= <-] ?.
Qed.

Lemma create_vendor_grant_at_scale body :
  stays (only_calls (sends_at_scale (default 0 (vg_spendingLimit body))))
    (create_vendor_grant body : Task W PaymentStore _).
Proof.
  unfold create_vendor_grant.
  destruct (vg_spendingLimit body) as [limit|]; simpl;
    [destruct (decide (limit = 0))|];
    repeat (open_helpers; stays_step);
    try apply only_calls_here; try (by apply only_calls_one).
  apply only_calls_one. simpl. by intros ? [= <-] ?.
Qed.
End LimitsAtScale.

(** X21.  Apart from process-payment, amounts go out at the scale
    they declare: the debit limit of the instant-pay setup, the
    incoming and the debit amount of an instant payment, and the debit
    limits that authorize-vendor and create-vendor-grant ask for are
    the whole number of the request times ten to the asset scale
    written beside the value, wherever that product is computed
    exactly (both factors and the product are safe integers). *)
Theorem amounts_are_at_their_declared_scale {W : Type} `{Env W} `{Dates}
    `{Crypto} (FRONTEND_URL : string) :
  (∀ walletAddressUrl maxAmount (s : Sys W unit),
     only_calls (sends_at_scale maxAmount) s
       (setupInstantPay FRONTEND_URL walletAddressUrl maxAmount s).2)
  ∧ (∀ accessToken manageUrl vendor sender amount description
       (s : Sys W unit),
       only_calls (sends_at_scale amount) s
         (makeInstantPayment accessToken manageUrl vendor sender amount
            description s).2)
  ∧ (∀ cid body (s : Sys W PaymentServer.PaymentStore),
       only_calls
         (sends_at_scale (default 0 (PaymentServer.av_spendingLimit body))) s
         (PaymentServer.authorize_vendor cid body s).2)
  ∧ (∀ body (s : Sys W PaymentServer.PaymentStore),
       only_calls
         (sends_at_scale (default 0 (PaymentServer.vg_spendingLimit body))) s
         (PaymentServer.create_vendor_grant body s).2).
Proof.
  split; [|split; [|split]].
  - intros url maxAmount s. apply setupInstantPay_at_scale.
  - intros accessToken manageUrl vendor sender amount description s.
    apply makeInstantPayment_at_scale.
  - intros cid body s. apply authorize_vendor_at_scale.
  - intros body s. apply create_vendor_grant_at_scale.
Qed.

Lemma number_to_string_inj n n' :
  number_to_string n = number_to_string n' → n = n'.
Proof.
  intros Heq.
  apply (number_to_string_prefix n n' "" ""); [done..|].
  by rewrite !string_app_nil_r.
Qed.

Lemma hundred_is_scale_two n (k : N) :
  n ≠ 0 → n * 100 = n * 10 ^ Z.of_N k ↔ k = 2%N.
Proof.
  intros Hn. split; [|by intros ->].
  intros Heq. apply Z.mul_reg_l in Heq; [|done].
  change 100 with (10 ^ 2) in Heq.
  apply Z.pow_inj_r in Heq; lia.
Qed.

Section ProcessPaymentAmounts.
Context {W : Type} `{Env W} `{Dates}.
Import PaymentServer.

Lemma process_payment_hundredths body :
  stays (only_calls (sends_hundredths (pp_spendAmount body)))
    (process_payment body : Task W PaymentStore _).
Proof.
  unfold process_payment.
  destruct (pp_spendAmount body) as [amount|]; simpl;
    [destruct (decide (amount = 0))|];
    repeat (open_helpers; stays_step);
    try apply only_calls_here; try (by apply only_calls_one).
  - apply only_calls_one. simpl. by exists amount.
  - apply only_calls_one. simpl. by eexists amount, _.
Qed.

(** X22.  Process-payment writes its amounts in hundredths: where the
    spend amount, a whole number, times 100 is computed exactly, the
    incoming amount and the debit amount that it sends have that
    product as value, so that each is at the scale written beside it
    exactly when that scale is 2. *)
Theorem process_payment_writes_hundredths body (s : Sys W PaymentStore) :
  ∃ made,
    calls (process_payment body s).2 = calls s ++ made
    ∧ (∀ url token walletAddress a,
         IncomingPaymentCreate url token walletAddress a ∈ made →
         ∃ n, pp_spendAmount body = Some n
              ∧ (exact_product n 100 →
                 value a = number_to_string (n * 100)
                 ∧ (at_declared_scale n a ↔ assetScale a = 2%N)))
    ∧ (∀ url token args,
         OutgoingPaymentCreate url token args ∈ made →
         ∃ n a, pp_spendAmount body = Some n
                ∧ opa_debitAmount args = Some a
                ∧ (exact_product n 100 →
                   value a = number_to_string (n * 100)
                   ∧ (at_declared_scale n a ↔ assetScale a = 2%N))).
Proof.
  destruct (process_payment_hundredths body s) as (made & Hcalls & Hmade).
  exists made. split; [done|].
  assert (∀ n a, n ≠ 0 → value a = number_to_string (n * 100) →
                 at_declared_scale n a ↔ assetScale a = 2%N) as Hscale.
  { intros n a Hn Hvalue. unfold at_declared_scale. rewrite Hvalue.
    rewrite <- (hundred_is_scale_two n (assetScale a) Hn).
    split; [apply number_to_string_inj|by intros ->]. }
  split.
  - intros url token walletAddress a Hin.
    eapply Forall_forall in Hmade; [|exact Hin].
    destruct Hmade as (n & Hn & Hnz & Hvalue).
    exists n. split; [done|]. intros Hexact. split; auto.
  - intros url token args Hin.
    eapply Forall_forall in Hmade; [|exact Hin].
    destruct Hmade as (n & a & Hn & Hnz & Ha & Hvalue).
    exists n, a. split; [done|]. split; [done|]. intros Hexact. split; auto.
Qed.
End ProcessPaymentAmounts.

(** ** Requests in flight together *)

Lemma pair_twice m k1 g1 k2 g2 :
  (k1, g1) ∈ m → (k2, g2) ∈ m → k1 ≠ k2 →
  vendor_pair g1 = vendor_pair g2 →
  ¬ NoDup (vendor_pair <$> map_values m).
Proof.
  intros [i Hi]%list_elem_of_lookup [j Hj]%list_elem_of_lookup Hk Hpair Hnd.
  assert (i = j) as ->; [|congruence].
  eapply (NoDup_lookup _ _ _ (vendor_pair g1) Hnd); unfold map_values;
    rewrite !list_lookup_fmap.
  - by rewrite Hi.
  - by rewrite Hj, Hpair.
Qed.

Section GrantsInFlight.
Context {W : Type} `{Env W} `{Dates} `{Crypto}.
Variable BASE_URL : string.
Import CustomerApi.

(** The part of the grants route that is cut off answers 201 only by
    storing an active grant under the id it returns. *)
Lemma create_grant_store_run cid vid customer vendor limit days
    (s s' : Sys W Store) res :
  try_catch (create_grant_store BASE_URL cid vid customer vendor limit days)
    (λ _, ret (Fail 500 "Failed to create grant")) s
  = (inr (Reply 201 res), s') →
  ∃ g, grants (store s') = map_set (gres_id res) g (grants (store s))
       ∧ is_active_for cid vid g.
Proof.
  unfold create_grant_store, set_grants. open_helpers. task_unfold.
  repeat (case_match; simplify_eq/=); try done.
  intros [= <- <-]. simpl. eexists. split; [done|]. done.
Qed.

(** The part before the cut only looks: it leaves the state as it is,
    answers with a failure or hands over the rest, and this only where
    the ledger holds no active grant for the pair. *)
Lemma create_grant_in_flight_run cid body (s : Sys W Store) :
  (create_grant_in_flight BASE_URL cid body s).2 = s
  ∧ match (create_grant_in_flight BASE_URL cid body s).1 with
    | inl _ => False
    | inr (inl answer) => ∃ status error, answer = Fail status error
    | inr (inr rest) =>
        ∃ vid customer vendor limit,
          gb_vendorId body = Some vid
          ∧ list_find (is_active_for cid vid)
              (map_values (grants (store s))) = None
          ∧ rest
            = try_catch
                (create_grant_store BASE_URL cid vid customer vendor limit
                   (default 30 (gb_expirationDays body)))
                (λ _, ret (Fail 500 "Failed to create grant"))
    end.
Proof.
  unfold create_grant_in_flight. task_unfold.
  destruct (customers (store s) !! cid) as [customer|];
    [|split; [done|by eexists _, _]].
  destruct (gb_vendorId body) as [vid|] eqn:Hvid; simpl;
    [|split; [done|by eexists _, _]].
  destruct (vendors (store s) !! vid) as [vendor|]; simpl;
    [|split; [done|by eexists _, _]].
  destruct (nonzero (gb_dailyLimit body)) as [limit|];
    [|split; [done|by eexists _, _]].
  destruct (decide (limit ≤ 0)); [split; [done|by eexists _, _]|].
  destruct (list_find _ _) as [?|] eqn:Hfind;
    (split; [done|]); [by eexists _, _|].
  by exists vid, customer, vendor, limit.
Qed.

(** X23.  Two grant requests of a customer for one vendor that are in
    flight together, the second searching the ledger while the first
    waits for the payment network, and that are both answered 201
    under different ids: both were let through on a ledger without an
    active grant for the pair, and both grants are in the ledger
    afterwards, active, so that the ledger holds the pair twice. *)
Theorem overlapped_grants_are_both_stored
    cid bodyA bodyB (s s' : Sys W Store) resA resB :
  gb_vendorId bodyA = gb_vendorId bodyB →
  overlapped (create_grant_in_flight BASE_URL cid bodyA)
    (create_grant_in_flight BASE_URL cid bodyB) s
  = (inr (Reply 201 resA, Reply 201 resB), s') →
  gres_id resA ≠ gres_id resB →
  ∃ vid gA gB,
    gb_vendorId bodyA = Some vid
    ∧ list_find (is_active_for cid vid) (map_values (grants (store s))) = None
    ∧ (gres_id resA, gA) ∈ grants (store s')
    ∧ (gres_id resB, gB) ∈ grants (store s')
    ∧ is_active_for cid vid gA
    ∧ is_active_for cid vid gB
    ∧ ¬ NoDup (vendor_pair <$> map_values (grants (store s'))).
Proof.
  intros Hvid Hrun Hids. revert Hrun. unfold overlapped.
  unfold mbind at 1, task_bind at 1, bind at 1.
  destruct (create_grant_in_flight_run cid bodyA s) as [HsA HA].
  destruct (create_grant_in_flight BASE_URL cid bodyA s) as [rA sA].
  simpl in HsA, HA. subst sA.
  destruct rA as [e|[a|restA]]; [done| |].
  { destruct HA as (status & error & ->).
    unfold mbind, task_bind, bind, resume, ret.
    destruct (create_grant_in_flight BASE_URL cid bodyB s) as [[?|rB] sB];
      [done|].
    by destruct (match rB with inl a => _ | inr rest => rest end sB)
      as [[?|?] ?]. }
  unfold mbind at 1, task_bind at 1, bind at 1.
  destruct (create_grant_in_flight_run cid bodyB s) as [HsB HB].
  destruct (create_grant_in_flight BASE_URL cid bodyB s) as [rB sB].
  simpl in HsB, HB. subst sB.
  destruct rB as [e|[b|restB]]; [done| |].
  { destruct HB as (status & error & ->).
    unfold mbind, task_bind, bind, resume, ret.
    by destruct (restA s) as [[?|?] ?]. }
  destruct HA as (vid & cA & vA & lA & HvidA & Hnone & ->).
  destruct HB as (vid' & cB & vB & lB & HvidB & _ & ->).
  assert (vid' = vid) as -> by congruence.
  unfold mbind at 1, task_bind at 1, bind at 1, resume at 1.
  destruct (try_catch (create_grant_store BASE_URL cid vid cA vA lA _) _ s)
    as [[e|a] s1] eqn:HrA; [done|].
  unfold mbind at 1, task_bind at 1, bind at 1, resume at 1.
  destruct (try_catch (create_grant_store BASE_URL cid vid cB vB lB _) _ s1)
    as [[e|b] s2] eqn:HrB; [done|].
  intros Heq. unfold ret in Heq. simplify_eq.
  apply create_grant_store_run in HrA as (gA & HgA & HactA).
  apply create_grant_store_run in HrB as (gB & HgB & HactB).
  assert ((gres_id resA, gA) ∈ grants (store s')) as HinA.
  { rewrite HgB. apply map_set_others; [|done].
    rewrite HgA. apply map_get_Some, map_get_set. }
  assert ((gres_id resB, gB) ∈ grants (store s')) as HinB.
  { rewrite HgB. apply map_get_Some, map_get_set. }
  exists vid, gA, gB. do 6 (split; [done|]).
  apply (pair_twice _ _ _ _ _ HinA HinB Hids).
  destruct HactA as (? & ? & _), HactB as (? & ? & _).
  unfold vendor_pair. congruence.
Qed.
End GrantsInFlight.

Section PaymentsInFlight.
Context {W : Type} `{Env W} `{Dates}.
Import PaymentServer.




End PaymentsInFlight.

(** * The programs on examples *)

Section Examples.
Import Sandbox Scenario.

(** ** Instant pay *)

(** The hash of the pending authorization for the reference [ref-1]
    verifies; the hash computed with another authorization server's URL
    is refused. *)
Lemma interaction_hash_verification_witness :
  (verifyInteractionHash "ref-1"
     "DrLfi37LGgHVZzMrgwUNC40kWmVECzj96pVFVemho1k="
     "client-nonce" "interact-nonce" alice instant0).1 = inr ()
  ∧ (verifyInteractionHash "ref-1"
       "4MFgQcdlw26oDn4M2GDc3ncVg4o1X7UI4yYmIQPgSqA="
       "client-nonce" "interact-nonce" alice instant0).1
    = inl (Error "Hash verification failed").
Proof.
  split.
  - apply (proj1 (@interaction_hash_verification World env NodeCrypto.crypto
                    "ref-1"
                    "DrLfi37LGgHVZzMrgwUNC40kWmVECzj96pVFVemho1k="
                    "client-nonce" "interact-nonce" alice instant0
                    (wallet alice) eq_refl)).
    vm_compute. reflexivity.
  - apply (proj2 (@interaction_hash_verification World env NodeCrypto.crypto
                    "ref-1"
                    "4MFgQcdlw26oDn4M2GDc3ncVg4o1X7UI4yYmIQPgSqA="
                    "client-nonce" "interact-nonce" alice instant0
                    (wallet alice) eq_refl)
             "client-nonce" "interact-nonce" "ref-1"
             "https://auth.example.org").
    + vm_compute. reflexivity.
    + apply change_authServer. discriminate.
    + intros [_ Heq]. vm_compute in Heq. discriminate.
Defined.

(** With a hash that does not match, [completeInstantPaySetup] throws
    and continues no grant. *)
Lemma continuation_only_after_verified_hash_witness :
  (completeInstantPaySetup "client-1" "ref-1"
     "4MFgQcdlw26oDn4M2GDc3ncVg4o1X7UI4yYmIQPgSqA=" instant0).1
  = inl (Error "Hash verification failed")
  ∧ continuations
      (completeInstantPaySetup "client-1" "ref-1"
         "4MFgQcdlw26oDn4M2GDc3ncVg4o1X7UI4yYmIQPgSqA=" instant0).2
    = continuations instant0.
Proof.
  apply (proj2 (@continuation_only_after_verified_hash World env
                  NodeCrypto.crypto "client-1" "ref-1"
                  "4MFgQcdlw26oDn4M2GDc3ncVg4o1X7UI4yYmIQPgSqA="
                  instant0 _ _ (surjective_pairing _))
           pending (wallet alice)).
  - reflexivity.
  - reflexivity.
  - vm_compute. discriminate.
Defined.

(** ** The payment server *)

(** A session is approved once: after the approval, and after a
    payment was processed in between, a second approval finds no
    session.  Four minutes after the session started, it has
    expired. *)
Lemma payment_session_single_use_witness :
  (∃ status error s3,
     PaymentServer.approve_payment approve
       (PaymentServer.run [PaymentServer.ProcessPayment (pay_vendor1 30)]
          (PaymentServer.approve_payment approve server_session).2)
     = (inr (Fail status error), s3)
     ∧ outgoing_payments s3
       = outgoing_payments
           (PaymentServer.run [PaymentServer.ProcessPayment (pay_vendor1 30)]
              (PaymentServer.approve_payment approve server_session).2)
     ∧ (is_Some (present (PaymentServer.ap_senderWalletAddress approve)) →
        is_Some (present (PaymentServer.ap_continueAccessToken approve)) →
        is_Some (present (PaymentServer.ap_interactRef approve)) →
        is_Some (present (PaymentServer.ap_continueUri approve)) →
        (createAuthenticatedClient
           (world
              (PaymentServer.run
                 [PaymentServer.ProcessPayment (pay_vendor1 30)]
                 (PaymentServer.approve_payment approve
                    server_session).2))).1
        = Some () →
        status = 400 ∧ error = "No payment session found"))
  ∧ (∃ status error s',
       PaymentServer.approve_payment approve (later server_session)
       = (inr (Fail status error), s')
       ∧ outgoing_payments s' = outgoing_payments (later server_session)
       ∧ (is_Some (present (PaymentServer.ap_senderWalletAddress approve)) →
          is_Some (present (PaymentServer.ap_continueAccessToken approve)) →
          is_Some (present (PaymentServer.ap_interactRef approve)) →
          is_Some (present (PaymentServer.ap_continueUri approve)) →
          (createAuthenticatedClient (world (later server_session))).1
          = Some () →
          status = 400
          ∧ error = "Quote grant expired, please restart payment")).
Proof.
  split.
  - assert (PaymentServer.approve_payment approve server_session
            = (inr (Reply 200 {| op_id := alice +:+ "/outgoing-payments/1" |}),
               (PaymentServer.approve_payment approve server_session).2))
      as Hfirst by (vm_compute; reflexivity).
    apply (proj1 (@payment_session_single_use World env dates) _ _ _ _
             Hfirst "session-1"
             [PaymentServer.ProcessPayment (pay_vendor1 30)]).
    + reflexivity.
    + reflexivity.
    + repeat constructor. intros [].
    + reflexivity.
  - apply (proj2 (@payment_session_single_use World env dates) approve
             (later server_session)
             "session-1"
             {| quote := {| quote_id := alice +:+ "/quotes/1" |};
                grantExpiry := 1700000180000;
                incomingPaymentUrl := bob +:+ "/incoming-payments/1" |}).
    + reflexivity.
    + vm_compute. reflexivity.
    + vm_compute. reflexivity.
Defined.

(** C4 as stated fails for approvals that are in flight together.  The
    second approval of the example session looks the session up while
    the first one waits for the payment network: both are answered
    200, and two outgoing payments are created for the one quote of
    the session.  Handled one after the other, the second approval
    finds no session. *)
Lemma overlapped_approvals_pay_twice :
  let both :=
    overlapped (PaymentServer.approve_payment_in_flight approve)
      (PaymentServer.approve_payment_in_flight approve) server_session in
  both.1
  = inr (Reply 200 {| op_id := alice +:+ "/outgoing-payments/1" |},
         Reply 200 {| op_id := alice +:+ "/outgoing-payments/1" |})
  ∧ paid_quotes both.2 = [alice +:+ "/quotes/1"; alice +:+ "/quotes/1"]
  ∧ paid_quotes server_session = []
  ∧ (PaymentServer.approve_payment approve
       (PaymentServer.approve_payment approve server_session).2).1
    = inr (Fail 400 "No payment session found").
Proof. vm_compute. repeat split; reflexivity. Qed.

(** The request without the customer's wallet address is answered by
    500, and no outgoing payment is created. *)
Lemma process_payment_without_customer_wallet_witness :
  ∃ s', PaymentServer.process_payment pay_anonymous server0
        = (inr (Fail 500 "Failed to process payment"), s')
        ∧ outgoing_payments s' = outgoing_payments server0.
Proof.
  apply (@process_payment_without_customer_wallet World env pay_anonymous
           server0).
  - reflexivity.
  - by eexists.
  - by eexists.
  - by eexists.
  - by eexists.
Defined.

(** The ledger is never debited, whatever is paid.  Alice authorizes
    vendor1 with a daily limit of 50; a payment of 30 is accepted and
    [spentToday] stays 0; a payment of 80 is accepted as well. *)
Lemma process_payment_ignores_daily_limit :
  let paid30 :=
    PaymentServer.process_payment (pay_vendor1 30) server_authorized in
  let paid80 := PaymentServer.process_payment (pay_vendor1 80) paid30.2 in
  (λ g, (dailyLimit g, spentToday g))
    <$> map_values (PaymentServer.grants (store server_authorized))
  = [(50, 0)]
  ∧ status_code paid30.1 = Some 201
  ∧ (λ g, (dailyLimit g, spentToday g))
      <$> map_values (PaymentServer.grants (store paid30.2))
    = [(50, 0)]
  ∧ status_code paid80.1 = Some 201
  ∧ length (outgoing_payments paid80.2) = 2%nat
  ∧ (λ g, (dailyLimit g, spentToday g))
      <$> map_values (PaymentServer.grants (store paid80.2))
    = [(50, 0)].
Proof. vm_compute. repeat split; reflexivity. Qed.

(** The grant of the example above is undebited and within its limit,
    as every grant of the customer API is. *)
Lemma spentToday_never_debited_witness :
  spentToday grant_8 = 0 ∧ spentToday grant_8 ≤ dailyLimit grant_8.
Proof.
  apply (proj2 (proj2 (proj2 (@spentToday_never_debited World env dates
                                NodeCrypto.crypto None base_url toDataURL)))
           two_grants
           {| now := 1700000000000; counter := 6; cache := ∅ |}).
  vm_compute. left.
Defined.

(** C6 on the failing input.  Two payments with the continuation
    credentials of two different grants: one continuation is made, for
    the first grant, and both outgoing payments are created with the
    token of the first grant. *)
Theorem process_payment_shares_token_slot :
  let first := PaymentServer.process_payment (pay bob "grant-A" uri_A 5) server0 in
  let second := PaymentServer.process_payment (pay bob "grant-B" uri_B 7) first.2 in
  status_code first.1 = Some 201
  ∧ status_code second.1 = Some 201
  ∧ continuations second.2 = [GrantContinue "grant-A" uri_A (Some "ref")]
  ∧ payment_tokens second.2 = ["access:grant-A"; "access:grant-A"].
Proof. vm_compute. repeat split; reflexivity. Qed.

(** C7 on the failing input.  A payment of 5 to a wallet of asset
    scale 3: process-payment creates the incoming payment with the
    value 500 at scale 3, where 5 × 10^3 is 5000; the instant-pay
    service, for the same wallet and amount, sends 5000. *)
Theorem process_payment_scales_by_hundred :
  incoming_amounts
    (PaymentServer.process_payment (pay usd3 "grant-A" uri_A 5) server0).2
  = [{| value := "500"; assetCode := "USD"; assetScale := 3 |}]
  ∧ number_to_string (5 * 10 ^ 3) = "5000"
  ∧ incoming_amounts
      (makeInstantPayment "token" "https://auth.interledger-test.dev/token"
         usd3 alice 5 "coffee" instant0).2
    = [{| value := "5000"; assetCode := "USD"; assetScale := 3 |}].
Proof. vm_compute. repeat split; reflexivity. Qed.

(** C9 on the failing input.  Authorizing the same vendor twice for
    the same customer through authorize-vendor succeeds twice and
    leaves two active grants for the pair; the grants route of the
    customer API refuses the second. *)
Theorem authorize_vendor_duplicates_active_grant :
  let second :=
    PaymentServer.authorize_vendor "customer1" authorize50 server_authorized in
  status_code second.1 = Some 201
  ∧ (λ g, (customerId g, vendorId g, status g))
      <$> map_values (PaymentServer.grants (store second.2))
    = [("customer1", "vendor1", "active"); ("customer1", "vendor1", "active")]
  ∧ (CustomerApi.create_grant base_url "id-6"
       {| CustomerApi.gb_vendorId := Some "vendor1";
          CustomerApi.gb_dailyLimit := Some 50;
          CustomerApi.gb_expirationDays := None |} api_two_grants).1
    = inr (Fail 400 "Active grant already exists for this vendor").
Proof. vm_compute. repeat split; reflexivity. Qed.

(** ** The customer API *)

(** The bundle of one grant verifies; with the daily limit raised from
    50 to 5000 under the issued signature it does not. *)
Lemma qr_signature_verifies_iff_unmodified_witness :
  CustomerApi.verifyQRSignature None bundle_8 = true
  ∧ (CustomerApi.verifyQRSignature None bundle_8_tampered = true
     ↔ without "signature" bundle_8_tampered = without "signature" bundle_8).
Proof.
  pose proof (@qr_signature_verifies_iff_unmodified NodeCrypto.crypto None
                "id-6" [grant_8] "1700000000000") as (Hok & Htampered & _).
  split; [exact Hok|]. apply Htampered.
  - reflexivity.
  - intros [_ Heq]. vm_compute in Heq. discriminate.
Defined.

(** The bundle of the customer with two grants lists both, in the
    order of their creation. *)
Lemma qr_bundle_lists_eligible_grants_in_ledger_order_witness :
  CustomerApi.qr_grants qr_res
  = Some (JArr (CustomerApi.grant_summary <$> [grant_8; grant_10]))
  ∧ [grant_8; grant_10]
    `sublist_of` map_values (CustomerApi.grants (store api_two_grants)).
Proof.
  pose proof (@qr_bundle_lists_eligible_grants_in_ledger_order World env
                dates NodeCrypto.crypto None toDataURL "id-6" api_two_grants
                qr_out.2 qr_res) as Hqr.
  destruct Hqr as (Hgrants & _ & Hsub & _).
  - vm_compute. reflexivity.
  - split; [exact Hgrants|exact Hsub].
Defined.

(** C8 as stated fails: the bundle lists the grant [id-8] before the
    grant [id-10], and [id-10] sorts before [id-8]. *)
Lemma qr_bundle_not_sorted_by_grantId :
  qr_out.1 = inr (Reply 200 qr_res)
  ∧ CustomerApi.qr_grants qr_res
    = Some (JArr (CustomerApi.grant_summary <$> [grant_8; grant_10]))
  ∧ String.ltb (grantId grant_10) (grantId grant_8) = true.
Proof. vm_compute. repeat split; reflexivity. Qed.

(** ** Further routes of the two servers *)

(** Without a client, process-payment and start-payment-session are
    refused. *)
Lemma no_call_without_client_witness :
  refused server0
    (@PaymentServer.process_payment World (outage false true)
       (pay_vendor1 30) server0)
  ∧ refused server0
      (@PaymentServer.start_payment_session World (outage false true) dates
         start_session server0).
Proof.
  pose proof (@no_call_without_client World (outage false true) dates server0
                eq_refl) as (Hstart & _ & _ & _ & Hpay & _).
  split; [apply Hpay|apply Hstart].
Defined.

(** After a payment with the credentials of grant A, the payment with
    those of grant B and every payment after it use the token of
    grant A. *)
Lemma stored_token_pays_every_later_payment_witness :
  let s1 :=
    PaymentServer.run
      [PaymentServer.ProcessPayment (pay bob "grant-B" uri_B 7)]
      server_paid_A in
  PaymentServer.outgoingpaymentgrantaccessToken (store s1)
  = Some "access:grant-A"
  ∧ ∀ body,
      let s2 := (PaymentServer.process_payment body s1).2 in
      continuations s2 = continuations s1
      ∧ ∃ paid, payment_tokens s2 = payment_tokens s1 ++ paid
                ∧ Forall (λ t, t = "access:grant-A") paid.
Proof.
  apply (@stored_token_pays_every_later_payment World env dates
           [PaymentServer.ProcessPayment (pay bob "grant-B" uri_B 7)]
           server_paid_A "access:grant-A").
  vm_compute. reflexivity.
Defined.

(** The approval of the example session pays the quote of the
    session with the continued grant A. *)
Lemma approved_payment_pays_session_quote_witness :
  ∃ url token',
    calls (PaymentServer.approve_payment approve server_session).2
    = calls server_session ++
      [WalletAddressGet alice;
       GrantContinue "grant-A" uri_A (Some "ref");
       OutgoingPaymentCreate url token'
         {| opa_walletAddress := alice;
            opa_quoteId := Some (alice +:+ "/quotes/1");
            opa_incomingPayment := None;
            opa_debitAmount := None;
            opa_description := None |}].
Proof.
  destruct (@approved_payment_pays_session_quote World env dates
              start_session approve server0 server_session server_session
              (PaymentServer.approve_payment approve server_session).2
              session_result
              {| op_id := alice +:+ "/outgoing-payments/1" |})
    as (id & sender & token & uri & ref & _ & Hsender & Htoken & Huri & Href
        & _ & _ & _ & (url & token' & Hcalls) & _).
  - vm_compute. reflexivity.
  - reflexivity.
  - reflexivity.
  - vm_compute. reflexivity.
  - injection Hsender as <-. injection Htoken as <-. injection Huri as <-.
    injection Href as <-. exists url, token'. exact Hcalls.
Defined.

(** The grant of the example authorization is listed. *)
Lemma authorized_vendor_is_listed_witness :
  ∃ granted listed,
    PaymentServer.list_grants server_authorized
    = (inr (Reply 200 listed), server_authorized)
    ∧ granted ∈ listed
    ∧ grantId granted = "id-1"
    ∧ dailyLimit granted = 50
    ∧ spentToday granted = 0.
Proof.
  destruct (@authorized_vendor_is_listed World env dates "customer1"
              authorize50 server0 server_authorized
              {| PaymentServer.avr_grantId := "id-1";
                 PaymentServer.avr_vendor :=
                   {| PaymentServer.vref_id := "vendor1";
                      PaymentServer.vref_name := "Coffee Shop" |};
                 PaymentServer.avr_spendingLimit := 50;
                 PaymentServer.avr_expiresAt := "1702592000000";
                 PaymentServer.avr_authorizationUrl :=
                   "https://auth.interledger-test.dev/interact" |})
    as (customer & vid & vendor & now & granted & listed & Hfacts).
  - vm_compute. reflexivity.
  - exists granted, listed. simpl in Hfacts. tauto.
Defined.

(** The customer approves the second grant; the callback marks the
    first. *)
Lemma grants_callback_marks_the_oldest_pending_grant_witness :
  ∃ s', CustomerApi.grants_callback approved_2 api_pending
        = (inr (Reply 200 ()), s')
        ∧ CustomerApi.grants (store s')
          = [("id-8", CustomerApi.with_interactRef "ref-2"
                        (unapproved grant_8));
             ("id-10", unapproved grant_10)].
Proof.
  destruct (@grants_callback_marks_the_oldest_pending_grant World env dates
              NodeCrypto.crypto None base_url toDataURL (take 3 two_grants)
              {| now := 1700000000000; counter := 6; cache := ∅ |}
              approved_2 "ref-2" 0%nat "id-8" (unapproved grant_8))
    as (s' & Hrun & Hgrants & _).
  - reflexivity.
  - reflexivity.
  - vm_compute. reflexivity.
  - exists s'. split; [exact Hrun|]. rewrite Hgrants. vm_compute. reflexivity.
Defined.

(** Before any callback, the customer with two grants gets no QR
    code. *)
Lemma no_qr_code_without_an_approved_callback_witness :
  CustomerApi.qr_code None toDataURL "id-6" api_pending
  = (inr (Fail 400 "No active authorized grants found"), api_pending).
Proof.
  destruct (@no_qr_code_without_an_approved_callback World env dates
              NodeCrypto.crypto None base_url toDataURL (take 3 two_grants)
              {| now := 1700000000000; counter := 6; cache := ∅ |} "id-6")
    as [Hmissing|Hnone].
  - repeat constructor; intros [].
  - exfalso. vm_compute in Hmissing. discriminate.
  - exact Hnone.
Defined.

(** The bundle of the customer with two grants verifies after a
    further request. *)
Lemma qr_bundle_verifies_ever_after_witness :
  let now := clock (world api_two_grants) in
  let bundle :=
    CustomerApi.qr_bundle None "id-6"
      (filter (λ g, CustomerApi.qr_eligible "id-6" now g)
         (map_values (CustomerApi.grants (store api_two_grants))))
      (toISOString now) in
  let s2 :=
    CustomerApi.run None base_url toDataURL
      [CustomerApi.CreateCustomer thandi] qr_out.2 in
  toDataURL (stringify (JObj bundle)) = Some (CustomerApi.qrCode qr_res)
  ∧ ∃ customer,
      CustomerApi.qr_verify None bundle s2
      = (inr (Reply 200
                {| CustomerApi.vr_customer := customer;
                   CustomerApi.vr_grants := CustomerApi.qr_grants qr_res |}),
         s2).
Proof.
  apply (@qr_bundle_verifies_ever_after World env dates NodeCrypto.crypto
           None base_url toDataURL "id-6" api_two_grants qr_out.2 qr_res
           [CustomerApi.CreateCustomer thandi]).
  vm_compute. reflexivity.
Defined.

(** The first grant of the example is found under its id, with the
    whole limit remaining. *)
Lemma created_grant_is_found_witness :
  ∃ s' details,
    (CustomerApi.create_grant base_url "id-6" limit50 api_customer).2 = s'
    ∧ CustomerApi.get_grant "id-8" s' = (inr (Reply 200 details), s')
    ∧ CustomerApi.gd_dailyLimit details = 50
    ∧ CustomerApi.gd_remainingToday details = 50.
Proof.
  destruct (@created_grant_is_found World env dates base_url "id-6" limit50
              api_customer
              (CustomerApi.create_grant base_url "id-6" limit50
                 api_customer).2
              {| CustomerApi.gres_id := "id-8";
                 CustomerApi.gres_vendorName := "ShopA Market";
                 CustomerApi.gres_dailyLimit := 50;
                 CustomerApi.gres_expiresAt := "1702592000000";
                 CustomerApi.gres_authorizationUrl :=
                   "https://auth.interledger-test.dev/interact" |})
    as (_ & _ & _ & _ & (vid & _ & Hget) & _).
  - vm_compute. reflexivity.
  - eexists _, _. split; [reflexivity|]. split; [exact Hget|].
    split; reflexivity.
Defined.

(** The customer of the example is found under the id that was
    returned. *)
Lemma created_customer_is_found_witness :
  ∃ id info,
    (CustomerApi.create_customer thandi api0).1
    = inr (Reply 201
             {| CustomerApi.pc_id := id;
                CustomerApi.pc_name := "Thandi";
                CustomerApi.pc_phone := None;
                CustomerApi.pc_email := None;
                CustomerApi.pc_createdAt := "1700000000000" |})
    ∧ (CustomerApi.get_customer id api_customer).1 = inr (Reply 200 info)
    ∧ CustomerApi.pc_name (CustomerApi.ci_customer info) = "Thandi".
Proof.
  destruct (@created_customer_is_found World env dates thandi api0
              api_customer
              {| CustomerApi.pc_id := "id-6";
                 CustomerApi.pc_name := "Thandi";
                 CustomerApi.pc_phone := None;
                 CustomerApi.pc_email := None;
                 CustomerApi.pc_createdAt := "1700000000000" |})
    as (name & Hname & _ & _ & _ & _ & _ & _ & Hget & _).
  - vm_compute. reflexivity.
  - injection Hname as <-. eexists _, _. split; [vm_compute; reflexivity|].
    simpl in Hget. rewrite Hget. split; reflexivity.
Defined.

(** ** More of instant pay *)

(** The setup for Alice caches the continuation under the identifier
    it sent. *)
Lemma completion_continues_the_grant_of_the_setup_witness :
  ∃ identifier data,
    cache_get identifier
      (world (setupInstantPay "https://shop.example" alice 100 instant0).2)
    = Some data
    ∧ ipd_continueToken data = "continue-token".
Proof.
  destruct (@completion_continues_the_grant_of_the_setup World env
              NodeCrypto.crypto "https://shop.example" alice 100 instant0
              (setupInstantPay "https://shop.example" alice 100 instant0).2
              "https://auth.interledger-test.dev/interact")
    as (identifier & data & url & request & w & _ & _ & Hgrant & Hget & _).
  - intros identifier data ttl w. apply lookup_insert_eq.
  - vm_compute. reflexivity.
  - exists identifier, data. split; [exact Hget|].
    simpl in Hgrant. destruct (gr_interact request); by injection Hgrant.
Defined.

(** The instant payment of the example pays with the rotated
    token. *)
Lemma instant_payment_trace_witness :
  ∃ token,
    payment_tokens
      (makeInstantPayment "token" instant_token_url bob alice 5 "coffee"
         instant0).2
    = [token]
    ∧ token_rotate "token" instant_token_url (world instant0) = (Some token, world instant0).
Proof.
  destruct (@instant_payment_trace World env "token" instant_token_url bob
              alice 5 "coffee" instant0
              (makeInstantPayment "token" instant_token_url bob alice 5
                 "coffee" instant0).2)
    as (senderWallet & vendorWallet & grantToken & incomingPayment
        & freshToken & w & incomingAmount & debitAmount & Hrotate & Hcalls
        & _).
  - vm_compute. reflexivity.
  - exists freshToken. unfold payment_tokens. rewrite Hcalls. simpl.
    split; [reflexivity|]. simpl in Hrotate. injection Hrotate as <-.
    reflexivity.
Defined.

(** With outgoing payments out of order, the instant payment fails
    with the spending-limit message, and the incoming payment stays
    created. *)
Lemma instant_payment_failure_witness :
  ∃ made,
    (@makeInstantPayment World (outage true false) "token" instant_token_url
       bob alice 5 "coffee" instant0).1
    = inl (Error "One click buy spending limit exceeded. Please setup one click buy again.")
    ∧ incoming_amounts
        (@makeInstantPayment World (outage true false) "token"
           instant_token_url bob alice 5 "coffee" instant0).2
      = made
    ∧ length made = 1%nat.
Proof.
  destruct (@instant_payment_failure World (outage true false) "token"
              instant_token_url bob alice 5 "coffee" instant0
              (@makeInstantPayment World (outage true false) "token"
                 instant_token_url bob alice 5 "coffee" instant0).2
              (Error "One click buy spending limit exceeded. Please setup one click buy again."))
    as [Hnone|[_ (made & url & grantToken & walletAddress & incomingAmount
                  & url' & token & args & Hcalls)]].
  - vm_compute. reflexivity.
  - exfalso. vm_compute in Hnone. discriminate.
  - eexists. split; [vm_compute; reflexivity|]. split; [reflexivity|].
    vm_compute. reflexivity.
Defined.
(** ** Amounts *)

(** A limit of 50 rand in cents and a payment of 5 at scale 3 are
    computed exactly; ten to the nineteenth is no safe integer. *)
Lemma exact_product_examples :
  exact_product 50 100
  ∧ exact_product 5 (10 ^ 3)
  ∧ ¬ exact_product (10 ^ 19) 100.
Proof.
  unfold exact_product, is_safe_integer, MAX_SAFE_INTEGER.
  split; [lia|]. split; [lia|]. intros (? & _). lia.
Qed.

(** ** Requests in flight together *)

(** Two requests of the example customer for vendor1 overlap: both
    grants are stored. *)
Lemma overlapped_grants_are_both_stored_witness :
  ∃ gA gB,
    ("id-8", gA) ∈ CustomerApi.grants
                     (store (overlapped
                               (CustomerApi.create_grant_in_flight base_url
                                  "id-6" limit50)
                               (CustomerApi.create_grant_in_flight base_url
                                  "id-6" limit50) api_customer).2)
    ∧ ("id-10", gB) ∈ CustomerApi.grants
                        (store (overlapped
                                  (CustomerApi.create_grant_in_flight base_url
                                     "id-6" limit50)
                                  (CustomerApi.create_grant_in_flight base_url
                                     "id-6" limit50) api_customer).2)
    ∧ CustomerApi.is_active_for "id-6" "vendor1" gA
    ∧ CustomerApi.is_active_for "id-6" "vendor1" gB.
Proof.
  destruct (@overlapped_grants_are_both_stored World env dates base_url
              "id-6" limit50 limit50 api_customer
              (overlapped
                 (CustomerApi.create_grant_in_flight base_url "id-6" limit50)
                 (CustomerApi.create_grant_in_flight base_url "id-6" limit50)
                 api_customer).2
              {| CustomerApi.gres_id := "id-8";
                 CustomerApi.gres_vendorName := "ShopA Market";
                 CustomerApi.gres_dailyLimit := 50;
                 CustomerApi.gres_expiresAt := "1702592000000";
                 CustomerApi.gres_authorizationUrl :=
                   "https://auth.interledger-test.dev/interact" |}
              {| CustomerApi.gres_id := "id-10";
                 CustomerApi.gres_vendorName := "ShopA Market";
                 CustomerApi.gres_dailyLimit := 50;
                 CustomerApi.gres_expiresAt := "1702592000000";
                 CustomerApi.gres_authorizationUrl :=
                   "https://auth.interledger-test.dev/interact" |})
    as (vid & gA & gB & Hvid & _ & HinA & HinB & HactA & HactB & _).
  - reflexivity.
  - vm_compute. reflexivity.
  - discriminate.
  - injection Hvid as <-. by exists gA, gB.
Defined.

End Examples.
